(** * Ton0racle: aggregation engine and lifecycle controller

    A shallow embedding of [PriceOracle] (aggregation, outlier removal,
    confidence, update gate), of [OracleBase] (the lifecycle controller with
    its failure counter, retry delay, schedule timer and health report), of
    [DataFetcher] (price validation, rate limiter, the Binance batch), of
    [TONClientService.sendTransaction], of [ConsoleLogger.shouldLog] and of
    [TonOracleApplication.validateConfiguration].

    JavaScript numbers are IEEE 754 binary64 values; they are embedded as
    Rocq's primitive floats, so every arithmetic step below rounds, overflows
    and produces NaN exactly where the program does. Logging and metrics calls
    have no effect on control flow or state and are left out. *)

From Stdlib Require Import ZArith Floats Bool Lia.
From stdpp Require Import gmap strings list.

Set Warnings "-inexact-float".

(** ** JavaScript numbers *)

Module JS.

Abbreviation number := float (only parsing).

(** [ToBoolean] on a number: [0], [-0] and [NaN] are falsy. *)
Definition ToBoolean (x : number) : bool := negb (is_nan x || is_zero x).

(** [array.length] as a number. *)
Definition of_nat (n : nat) : number := of_uint63 (Uint63.of_Z (Z.of_nat n)).

Definition of_Z (z : Z) : number :=
  if (z <? 0)%Z then (- of_uint63 (Uint63.of_Z (- z)))%float
  else of_uint63 (Uint63.of_Z z).

Definition Math_abs (x : number) : number := abs x.

Definition Math_sqrt (x : number) : number := sqrt x.

(** [Math.pow(x, 2)]: the engine returns the correctly rounded square. *)
Definition Math_pow2 (x : number) : number := (x * x)%float.

(** [Math.pow(2, k)] for an integer [k]: the exact power of two, [Infinity]
    above the binary64 range and [0] below it. *)
Definition Math_pow_2 (k : Z) : number := Z.ldexp 1%float k.

(** [Math.min] and [Math.max]: [NaN] if an argument is [NaN]; [-0] is
    smaller than [+0]. *)
Definition Math_min (x y : number) : number :=
  if is_nan x || is_nan y then nan
  else if (x <? y)%float then x
  else if (y <? x)%float then y
  else if get_sign x then x else y.

Definition Math_max (x y : number) : number :=
  if is_nan x || is_nan y then nan
  else if (x <? y)%float then y
  else if (y <? x)%float then x
  else if get_sign x then y else x.

(** [Math.floor], computed on the sign, mantissa and exponent of its
    argument. *)
Definition SFfloor (x : spec_float) : spec_float :=
  match x with
  | S754_finite s m e =>
      if (0 <=? e)%Z then x
      else
        let q := Z.shiftr (Zpos m) (- e) in
        let exact := (Z.shiftl q (- e) =? Zpos m)%Z in
        let z := if s then (if exact then - q else - (q + 1))%Z else q in
        match z with
        | Z0 => S754_zero s
        | _ => binary_normalize prec emax z 0 false
        end
  | _ => x
  end.

Definition Math_floor (x : number) : number := SF2Prim (SFfloor (Prim2SF x)).

(** [values.reduce((sum, v) => sum + v, 0)] *)
Definition sum (values : list number) : number :=
  fold_left (fun sum v => (sum + v)%float) values 0%float.

(** [Math.max(...values)] *)
Definition Math_max_all (values : list number) : number :=
  fold_left Math_max values neg_infinity.

(** [array[i]] read as a number: an index out of range gives [undefined],
    which arithmetic turns into [NaN]. *)
Definition at_index (values : list number) (i : Z) : number :=
  if (i <? 0)%Z then nan else nth (Z.to_nat i) values nan.

(** [[...values].sort(compare)] as the engine (V8) runs it on an array of
    fewer than 64 elements: [CountAndMakeRun] takes the run at the start of
    the copy, and [BinaryInsertionSort] puts the elements after it in their
    place one by one. An array of 64 elements or more is cut into several
    runs that are made this way and merged; when [compare] is consistent on
    the elements (for [a - b]: when none is [NaN]) the result is the one
    stable ascending arrangement whatever the length, and it is what
    [sort] returns. What [compare] says about [NaN] is not consistent, and
    the order then depends on which elements the engine compares; for 64
    elements or more that order is not followed here. *)
Section Sort.
Context {A : Type} (compare : A -> A -> number).

(** [order < 0] for the [order] the engine reads off [compare(a, b)]: a
    [NaN] result counts as [0]. *)
Definition before (a b : A) : bool := (compare a b <? 0)%float.

(** The loop of [CountAndMakeRun]: how far the run goes on after
    [previous], and what is left of the array. *)
Fixpoint extendRun (descending : bool) (previous : A) (rest : list A)
    : list A * list A :=
  match rest with
  | [] => ([], [])
  | current :: rest' =>
      if Bool.eqb (before current previous) descending
      then let '(run, others) := extendRun descending current rest' in
           (current :: run, others)
      else ([], rest)
  end.

(** [CountAndMakeRun]: the longest run at the start of the array that never
    descends, or that descends at every step and is then reversed. *)
Definition CountAndMakeRun (values : list A) : list A * list A :=
  match values with
  | elementHigh :: elementLow :: rest =>
      let isDescending := before elementLow elementHigh in
      let '(run, others) := extendRun isDescending elementLow rest in
      let run := elementHigh :: elementLow :: run in
      (if isDescending then rev run else run, others)
  | _ => (values, [])
  end.

(** The binary search of [BinaryInsertionSort] for the place of [pivot] in
    the part of the array before it; the gap between [left] and [right]
    shrinks at every step, so [fuel] at the length of that part is enough. *)
Fixpoint insertionPoint (fuel : nat) (pivot : A) (work : list A) (left right : nat)
    : nat :=
  match fuel with
  | O => left
  | S fuel' =>
      if (left <? right)%nat then
        let mid := (left + (right - left) / 2)%nat in
        match work !! mid with
        | Some element =>
            if before pivot element
            then insertionPoint fuel' pivot work left mid
            else insertionPoint fuel' pivot work (S mid) right
        | None => left
        end
      else left
  end.

Definition insertPivot (work : list A) (pivot : A) : list A :=
  let left := insertionPoint (length work) pivot work 0 (length work) in
  take left work ++ pivot :: drop left work.

Definition BinaryInsertionSort (run rest : list A) : list A :=
  fold_left insertPivot rest run.

Definition sort (values : list A) : list A :=
  let '(run, rest) := CountAndMakeRun values in
  BinaryInsertionSort run rest.
End Sort.

(** [[...new Set(xs)]]: first occurrences, in order. *)
Fixpoint dedup_first (seen xs : list string) : list string :=
  match xs with
  | [] => []
  | x :: rest =>
      if existsb (String.eqb x) seen then dedup_first seen rest
      else x :: dedup_first (x :: seen) rest
  end.

(** Thrown values. Messages built from numbers are kept as data. *)
Inductive ValidationIssue :=
| UnsupportedPair (pairKey : string)
| InsufficientSources (pairKey : string) (have : nat) (need : number)
| PriceOutOfRange (pairKey : string) (price lo hi : number)
| StaleData (pairKey source : string) (age : number)
| HighDeviation (pairKey : string) (percent : number).

Inductive exn :=
| Error_ (message : string)
| DataValidationFailed (errors : list ValidationIssue)
| ValidationError (message : string)
| TypeError (message : string).

Inductive result (A : Type) :=
| Ok (a : A)
| Throw (e : exn).
Arguments Ok {A} a.
Arguments Throw {A} e.

Definition is_ok {A} (r : result A) : bool :=
  match r with Ok _ => true | Throw _ => false end.

End JS.
Import JS.

(** ** The order of binary64 values

    A float that is not NaN has a place in the order of the reals extended by
    the infinities; [key] gives it as class, exponent and mantissa (both
    negated for negative numbers), compared lexicographically. The two zeros
    share a place. *)

Module FloatOrder.

Definition key (x : spec_float) : Z * Z * Z :=
  match x with
  | S754_zero _ => (0, 0, 0)
  | S754_infinity s => (if s then -2 else 2, 0, 0)
  | S754_nan => (0, 0, 0)
  | S754_finite s m e => if s then (-1, - e, - Zpos m) else (1, e, Zpos m)
  end%Z.

Definition key_lt (a b : Z * Z * Z) : Prop :=
  let '(c1, e1, m1) := a in
  let '(c2, e2, m2) := b in
  (c1 < c2 \/ (c1 = c2 /\ (e1 < e2 \/ (e1 = e2 /\ m1 < m2))))%Z.

Definition key_le (a b : Z * Z * Z) : Prop :=
  let '(c1, e1, m1) := a in
  let '(c2, e2, m2) := b in
  (c1 < c2 \/ (c1 = c2 /\ (e1 < e2 \/ (e1 = e2 /\ m1 <= m2))))%Z.

Definition not_nan (x : spec_float) : Prop := x <> S754_nan.

Definition fkey (x : float) : Z * Z * Z := key (Prim2SF x).

(** *** Rounding to nearest, ties to even, in closed form *)

Local Open Scope Z_scope.

(** The record after [k] one-bit shifts of [N]. *)
Definition shifted (N : Z) (k : nat) : shr_record :=
  match k with
  | O => Build_shr_record N false false
  | S j =>
      Build_shr_record (N / 2 ^ Z.of_nat k) (Z.odd (N / 2 ^ Z.of_nat j))
        (negb (N mod 2 ^ Z.of_nat j =? 0))
  end.

(** The mantissa after [k] shifts and rounding to nearest, ties to even. *)
Definition rne (N : Z) (k : nat) : Z :=
  round_nearest_even (shr_m (shifted N k)) (loc_of_shr_record (shifted N k)).

(** The float with sign [s], rounded mantissa [m] (at most [2^53]) and
    exponent [t]. *)
Definition normal (s : bool) (m t : Z) : spec_float :=
  if m =? 0 then S754_zero s
  else if m <? 2 ^ 53 then
    if t <=? 971 then S754_finite s (Z.to_pos m) t else S754_infinity s
  else
    if t + 1 <=? 971 then S754_finite s (Z.to_pos (2 ^ 52)) (t + 1)
    else S754_infinity s.

(** The place of the opposite number. *)
Definition kneg (k : Z * Z * Z) : Z * Z * Z :=
  let '(c, e, m) := k in (- c, - e, - m).

(** The float nearest to [v * 2^g]. *)
Definition RN (g v : Z) : spec_float := binary_normalize prec emax v g false.

(** The value of a finite float, as a multiple of [2^g]. *)
Definition sval (g : Z) (x : spec_float) : Z :=
  match x with
  | S754_finite s m e => cond_Zopp s (Zpos m) * 2 ^ (e - g)
  | _ => 0
  end.

(** Classes of floats. *)
Definition finite_or_zero (x : spec_float) : bool :=
  match x with
  | S754_finite _ _ _ | S754_zero _ => true
  | _ => false
  end.

Definition positive_finite (c : spec_float) : bool :=
  match c with
  | S754_finite false _ _ => true
  | _ => false
  end.

Definition finite_number (c : float) : bool := finite_or_zero (Prim2SF c).
Definition positive_number (c : float) : bool := positive_finite (Prim2SF c).

End FloatOrder.

(** ** Data model ([types/price.ts], [types/oracle.ts]) *)

Record PriceData := {
  base : string;
  quote : string;
  price : number;
  timestamp : number;
  source : string;
  volume24h : option number;
  change24h : option number;
  marketCap : option number;
  confidence : option number
}.

(** [OracleData<PriceData>], as [PriceOracle.fetchData] builds it. *)
Record OracleData := {
  value : PriceData;
  od_timestamp : number;
  od_source : string;
  metadata_pair : string;
  metadata_confidence : option number
}.

Record AggregatedPriceData := {
  ag_base : string;
  ag_quote : string;
  ag_price : number;
  ag_timestamp : number;
  ag_sources : list string;
  sourceCount : nat;
  standardDeviation : number;
  ag_confidence : number;
  outliers : list PriceData
}.

Record TradingPair := {
  tp_base : string;
  tp_quote : string;
  symbol : string;
  isActive : bool;
  minPrice : number;
  maxPrice : number;
  decimalPlaces : number
}.

Record PriceSourceConfig := {
  name : string;
  enabled : bool;
  weight : number
}.

Inductive AggregationMethod := median | average | weighted.

Record PriceOracleConfig := {
  supportedPairs : list TradingPair;
  sources : list PriceSourceConfig;
  aggregationMethod : AggregationMethod;
  outlierThreshold : number;
  minSourcesRequired : number;
  maxPriceAge : number;
  updateInterval : number;
  deviationThreshold : number
}.

Record ValidationResult := {
  isValid : bool;
  errors : list ValidationIssue;
  warnings : list ValidationIssue
}.

(** The argument of [tonClient.sendTransaction], built by
    [createPriceUpdateData]. *)
Record TransactionData := {
  tx_to : string;
  tx_value : string;
  tx_method : string;
  tx_base : string;
  tx_quote : string;
  tx_price : number;
  tx_timestamp : number;
  tx_sources : list string;
  tx_confidence : number
}.

(** ** [PriceOracle]: the aggregation engine *)

Module PriceOracle.

(** [`${base}/${quote}`] *)
Definition pairKeyOf (b q : string) : string := b +:+ "/" +:+ q.

Definition prices (data : list OracleData) : list number :=
  List.map (fun d => price (value d)) data.

(** [prices.reduce((sum, price) => sum + price, 0) / prices.length] *)
Definition mean (values : list number) : number :=
  (sum values / of_nat (length values))%float.

Definition calculateStandardDeviation (values : list number) : number :=
  let mean := (sum values / of_nat (length values))%float in
  let squaredDiffs := List.map (fun val => Math_pow2 (val - mean)%float) values in
  let variance := (sum squaredDiffs / of_nat (length values))%float in
  Math_sqrt variance.

(** A JavaScript [Map] iterates in insertion order: the groups are kept as
    an association list, one entry per key, in order of first appearance. *)
Fixpoint group_push (k : string) (od : OracleData)
    (grouped : list (string * list OracleData)) : list (string * list OracleData) :=
  match grouped with
  | [] => [(k, [od])]
  | (k', ods) :: rest =>
      if String.eqb k' k then (k', ods ++ [od]) :: rest
      else (k', ods) :: group_push k od rest
  end.

Definition groupDataByPair (data : list OracleData) : list (string * list OracleData) :=
  fold_left
    (fun grouped oracleData =>
       let priceData := value oracleData in
       let pairKey := pairKeyOf (base priceData) (quote priceData) in
       group_push pairKey oracleData grouped)
    data [].

Section Engine.
Variable priceConfig : PriceOracleConfig.

Definition zScore (mean stdDev : number) (d : OracleData) : number :=
  Math_abs ((price (value d) - mean) / stdDev)%float.

Definition removeOutliers (data : list OracleData) : list OracleData :=
  if (length data <=? 2)%nat then data
  else
    let prices := prices data in
    let mean := mean prices in
    let stdDev := calculateStandardDeviation prices in
    let threshold := outlierThreshold priceConfig in
    List.filter (fun d => (zScore mean stdDev d <=? threshold)%float) data.

Definition calculateMedian (values : list number) : number :=
  let sorted := sort (fun a b => (a - b)%float) values in
  let mid := (Z.of_nat (length sorted) / 2)%Z in
  if (Z.of_nat (length sorted) mod 2 =? 0)%Z then
    ((at_index sorted (mid - 1) + at_index sorted mid) / 2)%float
  else at_index sorted mid.

(** [sourceConfig?.weight || 1] *)
Definition weightOf (sourceName : string) : number :=
  match List.find (fun s => String.eqb (name s) sourceName) (sources priceConfig) with
  | Some sourceConfig => if ToBoolean (weight sourceConfig) then weight sourceConfig else 1%float
  | None => 1%float
  end.

Definition calculateWeightedAverage (data : list OracleData) : number :=
  let '(totalWeight, weightedSum) :=
    fold_left
      (fun '(totalWeight, weightedSum) oracleData =>
         let weight := weightOf (od_source oracleData) in
         ((totalWeight + weight)%float,
          (weightedSum + price (value oracleData) * weight)%float))
      data (0%float, 0%float) in
  if (0 <? totalWeight)%float then (weightedSum / totalWeight)%float else 0%float.

(** The last three steps of [calculateConfidence], as a function of the
    source count and of the coefficient of variation. *)
Definition confidenceOf (count : nat) (coefficient : number) : number :=
  let baseConfidence :=
    (Math_min (of_nat count / minSourcesRequired priceConfig) 1 * 100)%float in
  let variancePenalty := Math_min (coefficient * 50)%float 30%float in
  Math_max (baseConfidence - variancePenalty)%float 0%float.

Definition coefficientOfVariation (data : list OracleData) : number :=
  let prices := prices data in
  let stdDev := calculateStandardDeviation prices in
  let mean := mean prices in
  (stdDev / mean)%float.

Definition calculateConfidence (data : list OracleData) : number :=
  confidenceOf (length data) (coefficientOfVariation data).

Definition shouldUpdate (oldPrice newPrice : number) : bool :=
  let changePercent := (Math_abs ((newPrice - oldPrice) / oldPrice) * 100)%float in
  (deviationThreshold priceConfig <=? changePercent)%float.

(** [data[0].value] is read without a check: an empty argument throws. *)
Definition aggregatePrices (data : list OracleData) : result AggregatedPriceData :=
  let prices := prices data in
  let sources := List.map od_source data in
  let timestamps := List.map (fun d => timestamp (value d)) data in
  let aggregatedPrice :=
    match aggregationMethod priceConfig with
    | median => calculateMedian prices
    | weighted => calculateWeightedAverage data
    | average => (sum prices / of_nat (length prices))%float
    end in
  let standardDeviation := calculateStandardDeviation prices in
  match data with
  | [] => Throw (TypeError "Cannot read properties of undefined (reading 'value')")
  | first :: _ =>
      let firstPrice := value first in
      Ok {| ag_base := base firstPrice;
            ag_quote := quote firstPrice;
            ag_price := aggregatedPrice;
            ag_timestamp := Math_max_all timestamps;
            ag_sources := dedup_first [] sources;
            sourceCount := length data;
            standardDeviation := standardDeviation;
            ag_confidence := calculateConfidence data;
            outliers := [] |}
  end.

Definition findPair (pairKey : string) : option TradingPair :=
  List.find (fun p => String.eqb (pairKeyOf (tp_base p) (tp_quote p)) pairKey)
    (supportedPairs priceConfig).


(** What a cycle sees of the outside: the source adapters, the ledger client
    and the clock. *)
Record Env := {
  fetchPrice : string -> string -> string -> result PriceData;
  sendTransaction : TransactionData -> result string;
  Date_now : number;
  Math_random : Z -> number
}.

(** The mutable part of a [PriceOracle], with the transactions handed to the
    ledger client so far (oldest first). *)
Record State := {
  lastPrices : gmap string AggregatedPriceData;
  ledger : list TransactionData
}.

Definition set_lastPrices (lp : gmap string AggregatedPriceData) (st : State) : State :=
  {| lastPrices := lp; ledger := ledger st |}.

(** [getCurrentPrice]: the stored observation of the pair, or [null]. *)
Definition getCurrentPrice (b q : string) (st : State) : option AggregatedPriceData :=
  lastPrices st !! pairKeyOf b q.

Section Methods.
Variable dataSources : list string.
Variable env : Env.

Definition fetchFromSources (pair : TradingPair) : list OracleData :=
  let pairKey := pairKeyOf (tp_base pair) (tp_quote pair) in
  flat_map
    (fun sourceName =>
       match fetchPrice env sourceName (tp_base pair) (tp_quote pair) with
       | Ok priceData =>
           [{| value := priceData;
               od_timestamp := timestamp priceData;
               od_source := sourceName;
               metadata_pair := pairKey;
               metadata_confidence := confidence priceData |}]
       | Throw _ => []
       end)
    dataSources.

Definition fetchData (st : State) : result (list OracleData) * State :=
  (Ok (flat_map
         (fun pair => if isActive pair then fetchFromSources pair else [])
         (supportedPairs priceConfig)),
   st).

Definition validateOne (pairKey : string) (pair : TradingPair)
    (acc : list ValidationIssue * list ValidationIssue) (oracleData : OracleData)
    : list ValidationIssue * list ValidationIssue :=
  let '(errors, warnings) := acc in
  let priceData := value oracleData in
  let errors :=
    if (price priceData <? minPrice pair)%float || (maxPrice pair <? price priceData)%float
    then errors ++ [PriceOutOfRange pairKey (price priceData) (minPrice pair) (maxPrice pair)]
    else errors in
  let now := Date_now env in
  let maxAge := (maxPriceAge priceConfig * 1000)%float in
  let warnings :=
    if (maxAge <? now - timestamp priceData)%float
    then warnings ++ [StaleData pairKey (source priceData) (now - timestamp priceData)%float]
    else warnings in
  (errors, warnings).

Definition validatePair (acc : list ValidationIssue * list ValidationIssue)
    (entry : string * list OracleData) : list ValidationIssue * list ValidationIssue :=
  let '(errors, warnings) := acc in
  let '(pairKey, pairData) := entry in
  match findPair pairKey with
  | None => (errors ++ [UnsupportedPair pairKey], warnings)
  | Some tradingPair =>
      if (of_nat (length pairData) <? minSourcesRequired priceConfig)%float then
        (errors ++ [InsufficientSources pairKey (length pairData)
                      (minSourcesRequired priceConfig)], warnings)
      else
        let '(errors, warnings) :=
          fold_left (validateOne pairKey tradingPair) pairData (errors, warnings) in
        let prices := prices pairData in
        let deviation := calculateStandardDeviation prices in
        let mean := mean prices in
        let deviationPercent := (deviation / mean * 100)%float in
        if (outlierThreshold priceConfig * 10 <? deviationPercent)%float
        then (errors, warnings ++ [HighDeviation pairKey deviationPercent])
        else (errors, warnings)
  end.

Definition validateData (data : list OracleData) (st : State)
    : result ValidationResult * State :=
  let dataByPair := groupDataByPair data in
  let '(errors, warnings) := fold_left validatePair dataByPair ([], []) in
  (Ok {| isValid := (length errors =? 0)%nat; errors := errors; warnings := warnings |},
   st).

(** The loop of [processData] over the groups. *)
Fixpoint processPairs (dataByPair : list (string * list OracleData))
    (aggregatedResults : list AggregatedPriceData) (st : State)
    : result (list AggregatedPriceData) * State :=
  match dataByPair with
  | [] => (Ok aggregatedResults, st)
  | (pairKey, pairData) :: rest =>
      match findPair pairKey with
      | None => processPairs rest aggregatedResults st
      | Some _ =>
          if (length pairData =? 0)%nat then processPairs rest aggregatedResults st
          else
            let cleanedData := removeOutliers pairData in
            if (of_nat (length cleanedData) <? minSourcesRequired priceConfig)%float
            then processPairs rest aggregatedResults st
            else
              match aggregatePrices cleanedData with
              | Throw e => (Throw e, st)
              | Ok aggregatedPrice =>
                  processPairs rest (aggregatedResults ++ [aggregatedPrice])
                    (set_lastPrices (<[pairKey := aggregatedPrice]> (lastPrices st)) st)
              end
      end
  end.

Definition processData (data : list OracleData) (st : State)
    : result AggregatedPriceData * State :=
  match processPairs (groupDataByPair data) [] st with
  | (Throw e, st) => (Throw e, st)
  | (Ok [], st) => (Throw (ValidationError "No valid aggregated price data available"), st)
  | (Ok (first :: _), st) => (Ok first, st)
  end.

Definition createPriceUpdateData (priceData : AggregatedPriceData) : TransactionData :=
  {| tx_to := "oracle_contract_address";
     tx_value := "0";
     tx_method := "updatePrice";
     tx_base := ag_base priceData;
     tx_quote := ag_quote priceData;
     tx_price := ag_price priceData;
     tx_timestamp := ag_timestamp priceData;
     tx_sources := ag_sources priceData;
     tx_confidence := ag_confidence priceData |}.

Definition send (processedData : AggregatedPriceData) (st : State)
    : result string * State :=
  let transactionData := createPriceUpdateData processedData in
  let st := {| lastPrices := lastPrices st; ledger := ledger st ++ [transactionData] |} in
  match sendTransaction env transactionData with
  | Ok hash => (Ok hash, st)
  | Throw error => (Throw error, st)
  end.

Definition submitToBlockchain (processedData : AggregatedPriceData) (st : State)
    : result string * State :=
  let pairKey := pairKeyOf (ag_base processedData) (ag_quote processedData) in
  match lastPrices st !! pairKey with
  | Some lastPrice =>
      if negb (shouldUpdate (ag_price lastPrice) (ag_price processedData))
      then (Ok "skipped", st)
      else send processedData st
  | None => send processedData st
  end.

End Methods.
End Engine.
End PriceOracle.

(** ** [OracleBase]: the lifecycle controller *)

Module OracleBase.

Record OracleConfig := {
  cfg_updateInterval : number;
  cfg_deviationThreshold : number;
  minSources : number;
  maxOutlierDeviation : number;
  gasLimit : number;
  retryAttempts : Z;
  cfg_enabled : bool
}.

(** The fields of the controller, the state [W] of the derived class, and the
    part of the runtime the controller acts on: the timers armed in the event
    loop and the delays slept so far. A timer handle is a number; [setTimeout]
    hands out [nextTimer]. *)
Record Oracle (W : Type) := {
  config : OracleConfig;
  isRunning : bool;
  updateTimer : option nat;
  errorCount : Z;
  totalUpdates : Z;
  lastUpdateTime : number;
  derived : W;
  timers : list nat;
  nextTimer : nat;
  slept : list number
}.
Arguments config {W} _.
Arguments isRunning {W} _.
Arguments updateTimer {W} _.
Arguments errorCount {W} _.
Arguments totalUpdates {W} _.
Arguments lastUpdateTime {W} _.
Arguments derived {W} _.
Arguments timers {W} _.
Arguments nextTimer {W} _.
Arguments slept {W} _.

(** A new instance: not running, counters at zero, no timer. *)
Definition create {W} (cfg : OracleConfig) (w : W) : Oracle W :=
  {| config := cfg; isRunning := false; updateTimer := None; errorCount := 0;
     totalUpdates := 0; lastUpdateTime := 0%float; derived := w;
     timers := []; nextTimer := 0; slept := [] |}.

Section Fields.
Context {W : Type}.

Definition set_isRunning (b : bool) (o : Oracle W) : Oracle W :=
  {| config := config o; isRunning := b; updateTimer := updateTimer o;
     errorCount := errorCount o; totalUpdates := totalUpdates o;
     lastUpdateTime := lastUpdateTime o; derived := derived o;
     timers := timers o; nextTimer := nextTimer o; slept := slept o |}.

Definition set_errorCount (n : Z) (o : Oracle W) : Oracle W :=
  {| config := config o; isRunning := isRunning o; updateTimer := updateTimer o;
     errorCount := n; totalUpdates := totalUpdates o;
     lastUpdateTime := lastUpdateTime o; derived := derived o;
     timers := timers o; nextTimer := nextTimer o; slept := slept o |}.

Definition set_success (n : Z) (now : number) (o : Oracle W) : Oracle W :=
  {| config := config o; isRunning := isRunning o; updateTimer := updateTimer o;
     errorCount := errorCount o; totalUpdates := n;
     lastUpdateTime := now; derived := derived o;
     timers := timers o; nextTimer := nextTimer o; slept := slept o |}.

Definition set_derived (w : W) (o : Oracle W) : Oracle W :=
  {| config := config o; isRunning := isRunning o; updateTimer := updateTimer o;
     errorCount := errorCount o; totalUpdates := totalUpdates o;
     lastUpdateTime := lastUpdateTime o; derived := w;
     timers := timers o; nextTimer := nextTimer o; slept := slept o |}.

(** [this.updateTimer = setTimeout(...)] *)
Definition setTimeout (o : Oracle W) : Oracle W :=
  {| config := config o; isRunning := isRunning o; updateTimer := Some (nextTimer o);
     errorCount := errorCount o; totalUpdates := totalUpdates o;
     lastUpdateTime := lastUpdateTime o; derived := derived o;
     timers := nextTimer o :: timers o; nextTimer := S (nextTimer o);
     slept := slept o |}.

(** [clearTimeout(this.updateTimer); this.updateTimer = undefined] *)
Definition clearTimeout (h : nat) (o : Oracle W) : Oracle W :=
  {| config := config o; isRunning := isRunning o; updateTimer := None;
     errorCount := errorCount o; totalUpdates := totalUpdates o;
     lastUpdateTime := lastUpdateTime o; derived := derived o;
     timers := List.filter (fun h' => negb (h' =? h)%nat) (timers o);
     nextTimer := nextTimer o; slept := slept o |}.

(** The event loop takes a timer that fires off its list. *)
Definition fire (h : nat) (o : Oracle W) : Oracle W :=
  {| config := config o; isRunning := isRunning o; updateTimer := updateTimer o;
     errorCount := errorCount o; totalUpdates := totalUpdates o;
     lastUpdateTime := lastUpdateTime o; derived := derived o;
     timers := List.filter (fun h' => negb (h' =? h)%nat) (timers o);
     nextTimer := nextTimer o; slept := slept o |}.

Definition sleep (ms : number) (o : Oracle W) : Oracle W :=
  {| config := config o; isRunning := isRunning o; updateTimer := updateTimer o;
     errorCount := errorCount o; totalUpdates := totalUpdates o;
     lastUpdateTime := lastUpdateTime o; derived := derived o;
     timers := timers o; nextTimer := nextTimer o; slept := slept o ++ [ms] |}.

End Fields.

(** [calculateRetryDelay]; [random] is the value [Math.random()] returns. *)
Definition calculateRetryDelay (random : number) (attempt : Z) : number :=
  let baseDelay := 1000%float in
  let maxDelay := 30000%float in
  let delay := Math_min (baseDelay * Math_pow_2 (attempt - 1))%float maxDelay in
  let jitter := (random * 0.1 * delay)%float in
  Math_floor (delay + jitter)%float.

Section Lifecycle.
Context {W D T : Type}.

(** The abstract methods of the class, and the clock and random source of the
    runtime ([Math_random k] is the draw taken after the [k]-th failed fetch
    attempt of a cycle). *)
Variable fetchData : W -> result (list D) * W.
Variable validateData : list D -> W -> result ValidationResult * W.
Variable processData : list D -> W -> result T * W.
Variable submitToBlockchain : T -> W -> result string * W.
Variable Date_now : number.
Variable Math_random : Z -> number.

Definition stop (o : Oracle W) : Oracle W :=
  if negb (isRunning o) then o
  else
    let o := set_isRunning false o in
    match updateTimer o with
    | Some h => clearTimeout h o
    | None => o
    end.

(** The [for] loop of [fetchDataWithRetry], with [fuel] iterations left. *)
Fixpoint fetchAttempts (fuel : nat) (attempt : Z) (lastError : option exn)
    (o : Oracle W) : result (list D) * Oracle W :=
  match fuel with
  | O =>
      (Throw (match lastError with
              | Some e => e
              | None => Error_ "All fetch attempts failed"
              end), o)
  | S fuel' =>
      match fetchData (derived o) with
      | (Ok data, w) => (Ok data, set_derived w o)
      | (Throw error, w) =>
          let o := set_derived w o in
          let o :=
            if (attempt <? retryAttempts (config o))%Z
            then sleep (calculateRetryDelay (Math_random attempt) attempt) o
            else o in
          fetchAttempts fuel' (attempt + 1)%Z (Some error) o
      end
  end.

Definition fetchDataWithRetry (o : Oracle W) : result (list D) * Oracle W :=
  fetchAttempts (Z.to_nat (retryAttempts (config o))) 1%Z None o.

(** The [try] block of [performUpdate] up to the submission: fetch, validate,
    process, submit. *)
Definition pipeline (o : Oracle W) : result string * Oracle W :=
  match fetchDataWithRetry o with
  | (Throw e, o) => (Throw e, o)
  | (Ok rawData, o) =>
      match validateData rawData (derived o) with
      | (Throw e, w) => (Throw e, set_derived w o)
      | (Ok validation, w) =>
          let o := set_derived w o in
          if negb (isValid validation)
          then (Throw (DataValidationFailed (errors validation)), o)
          else
            match processData rawData (derived o) with
            | (Throw e, w) => (Throw e, set_derived w o)
            | (Ok processedData, w) =>
                let o := set_derived w o in
                match submitToBlockchain processedData (derived o) with
                | (Throw e, w) => (Throw e, set_derived w o)
                | (Ok txHash, w) => (Ok txHash, set_derived w o)
                end
            end
      end
  end.

Definition performUpdate (o : Oracle W) : result unit * Oracle W :=
  match pipeline o with
  | (Ok txHash, o) =>
      (Ok tt, set_success (totalUpdates o + 1)%Z Date_now o)
  | (Throw error, o) =>
      let o := set_errorCount (errorCount o + 1)%Z o in
      if (retryAttempts (config o) <=? errorCount o)%Z
      then (Throw error, stop o)
      else (Ok tt, o)
  end.

Definition scheduleUpdates (o : Oracle W) : Oracle W :=
  if negb (isRunning o) then o else setTimeout o.

(** The callback given to [setTimeout], run when timer [h] fires. *)
Definition onTimer (h : nat) (o : Oracle W) : Oracle W :=
  let o := fire h o in
  let o := snd (performUpdate o) in
  scheduleUpdates o.

Definition start (o : Oracle W) : result unit * Oracle W :=
  if isRunning o then (Ok tt, o)
  else if negb (cfg_enabled (config o)) then (Ok tt, o)
  else
    let o := set_isRunning true o in
    match performUpdate o with
    | (Throw e, o) => (Throw e, o)
    | (Ok _, o) => (Ok tt, scheduleUpdates o)
    end.

Definition forceUpdate (o : Oracle W) : result unit * Oracle W :=
  performUpdate o.

End Lifecycle.

(** [updateConfig(newConfig)] sets [{ ...this.config, ...newConfig }]: a field
    that [newConfig] does not have keeps its value. *)
Record PartialOracleConfig := {
  new_updateInterval : option number;
  new_deviationThreshold : option number;
  new_minSources : option number;
  new_maxOutlierDeviation : option number;
  new_gasLimit : option number;
  new_retryAttempts : option Z;
  new_enabled : option bool
}.

Definition spread (cfg : OracleConfig) (newConfig : PartialOracleConfig) : OracleConfig :=
  {| cfg_updateInterval := default (cfg_updateInterval cfg) (new_updateInterval newConfig);
     cfg_deviationThreshold :=
       default (cfg_deviationThreshold cfg) (new_deviationThreshold newConfig);
     minSources := default (minSources cfg) (new_minSources newConfig);
     maxOutlierDeviation :=
       default (maxOutlierDeviation cfg) (new_maxOutlierDeviation newConfig);
     gasLimit := default (gasLimit cfg) (new_gasLimit newConfig);
     retryAttempts := default (retryAttempts cfg) (new_retryAttempts newConfig);
     cfg_enabled := default (cfg_enabled cfg) (new_enabled newConfig) |}.

Definition updateConfig {W} (newConfig : PartialOracleConfig) (o : Oracle W) : Oracle W :=
  {| config := spread (config o) newConfig; isRunning := isRunning o;
     updateTimer := updateTimer o; errorCount := errorCount o;
     totalUpdates := totalUpdates o; lastUpdateTime := lastUpdateTime o;
     derived := derived o; timers := timers o; nextTimer := nextTimer o;
     slept := slept o |}.

(** [OracleStatus], with the source statuses of the derived class. *)
Record OracleStatus (S : Type) := {
  status_isActive : bool;
  lastUpdate : number;
  status_totalUpdates : Z;
  status_errorCount : Z;
  status_sources : list S
}.
Arguments status_isActive {S} _.
Arguments lastUpdate {S} _.
Arguments status_totalUpdates {S} _.
Arguments status_errorCount {S} _.
Arguments status_sources {S} _.

Inductive Health := healthy | unhealthy | degraded.

(** The [details] of a health report, by its [reason]. *)
Inductive HealthDetails (S : Type) :=
| NotActive (status : OracleStatus S)
| StaleUpdate (timeSinceLastUpdate maxAllowedAge : number) (status : OracleStatus S)
| HighErrorRate (status : OracleStatus S)
| NoReason (status : OracleStatus S)
| HealthCheckFailed (error : exn).
Arguments NotActive {S} _.
Arguments StaleUpdate {S} _ _ _.
Arguments HighErrorRate {S} _.
Arguments NoReason {S} _.
Arguments HealthCheckFailed {S} _.

Section Status.
Context {W S : Type}.

(** The abstract [getSourcesStatus], and the clock. *)
Variable getSourcesStatus : W -> result (list S) * W.
Variable Date_now : number.

Definition getStatus (o : Oracle W) : result (OracleStatus S) * Oracle W :=
  match getSourcesStatus (derived o) with
  | (Ok sources, w) =>
      (Ok {| status_isActive := isRunning o;
             lastUpdate := lastUpdateTime o;
             status_totalUpdates := totalUpdates o;
             status_errorCount := errorCount o;
             status_sources := sources |},
       set_derived w o)
  | (Throw error, w) => (Throw error, set_derived w o)
  end.

Definition getHealth (o : Oracle W) : (Health * HealthDetails S) * Oracle W :=
  match getStatus o with
  | (Throw error, o) => ((unhealthy, HealthCheckFailed error), o)
  | (Ok status, o) =>
      let now := Date_now in
      let timeSinceLastUpdate := (now - lastUpdate status)%float in
      let maxAllowedAge := (cfg_updateInterval (config o) * 2 * 1000)%float in
      if negb (status_isActive status) then ((unhealthy, NotActive status), o)
      else if (maxAllowedAge <? timeSinceLastUpdate)%float
      then ((degraded, StaleUpdate timeSinceLastUpdate maxAllowedAge status), o)
      else if (of_Z (retryAttempts (config o)) / 2 <? of_Z (status_errorCount status))%float
      then ((degraded, HighErrorRate status), o)
      else ((healthy, NoReason status), o)
  end.

End Status.
End OracleBase.

(** ** [PriceOracle] as an [OracleBase] *)

Module Oracle.
Import PriceOracle OracleBase.

(** The constructor of [PriceOracle]. *)
Definition oracleConfig (priceConfig : PriceOracleConfig) : OracleConfig :=
  {| cfg_updateInterval := updateInterval priceConfig;
     cfg_deviationThreshold :=
       if ToBoolean (deviationThreshold priceConfig)
       then deviationThreshold priceConfig else 1%float;
     minSources := minSourcesRequired priceConfig;
     maxOutlierDeviation := outlierThreshold priceConfig;
     gasLimit := 1000000%float;
     retryAttempts := 3;
     cfg_enabled := true |}.

(** [initializeDataSources]: the enabled adapters, in the order they are
    added to the [Map]. *)
Definition initializeDataSources (priceConfig : PriceOracleConfig) : list string :=
  List.filter
    (fun n =>
       match List.find (fun s => String.eqb (name s) n) (sources priceConfig) with
       | Some sourceConfig => enabled sourceConfig
       | None => false
       end)
    ["coingecko"; "binance"; "coinmarketcap"].

Definition new (priceConfig : PriceOracleConfig) : Oracle State :=
  create (oracleConfig priceConfig) {| lastPrices := ∅; ledger := [] |}.

Section Instance.
Variable priceConfig : PriceOracleConfig.
Variable env : Env.

Definition performUpdate : Oracle State -> result unit * Oracle State :=
  OracleBase.performUpdate
    (fetchData priceConfig (initializeDataSources priceConfig) env)
    (validateData priceConfig env)
    (processData priceConfig)
    (submitToBlockchain priceConfig env)
    (Date_now env) (Math_random env).

Definition start : Oracle State -> result unit * Oracle State :=
  OracleBase.start
    (fetchData priceConfig (initializeDataSources priceConfig) env)
    (validateData priceConfig env)
    (processData priceConfig)
    (submitToBlockchain priceConfig env)
    (Date_now env) (Math_random env).

Definition onTimer : nat -> Oracle State -> Oracle State :=
  OracleBase.onTimer
    (fetchData priceConfig (initializeDataSources priceConfig) env)
    (validateData priceConfig env)
    (processData priceConfig)
    (submitToBlockchain priceConfig env)
    (Date_now env) (Math_random env).

End Instance.
End Oracle.

(** ** JavaScript strings *)

Module JSString.

(** An index argument of [slice], counted from the end when negative and
    brought into [0 .. len]. *)
Definition clamp (len i : Z) : Z :=
  if (i <? 0)%Z then Z.max (len + i) 0 else Z.min i len.

(** [s.slice(start, end)]; [end_] is [None] when the argument is left
    out. *)
Definition slice (s : string) (start : Z) (end_ : option Z) : string :=
  let len := Z.of_nat (String.length s) in
  let from := clamp len start in
  let to := match end_ with Some e => clamp len e | None => len end in
  String.substring (Z.to_nat from) (Z.to_nat (Z.max (to - from) 0)) s.

End JSString.

(** ** [DataFetcher.validatePriceData] *)

Module DataFetcher.

(** [Partial<PriceData>]: a field is [None] when it is [undefined]; [p_price]
    is also [None] when the value is not of type [number]. *)
Record PartialPriceData := {
  p_base : option string;
  p_quote : option string;
  p_price : option number;
  p_timestamp : option number;
  p_volume24h : option number;
  p_change24h : option number;
  p_marketCap : option number;
  p_confidence : option number
}.

(** [!s] on an optional string: [undefined] and the empty string are falsy. *)
Definition truthy_string (s : option string) : bool :=
  match s with
  | Some s => negb (String.eqb s "")
  | None => false
  end.

(** [x || d] on an optional number. *)
Definition number_or (x : option number) (d : number) : number :=
  match x with
  | Some x => if ToBoolean x then x else d
  | None => d
  end.

(** [fetcherName] is [this.name], [now] the value of [Date.now()]. *)
Definition validatePriceData (fetcherName : string) (now : number)
    (data : PartialPriceData) : result PriceData :=
  match p_base data, p_quote data, p_price data with
  | Some b, Some q, Some p =>
      if negb (truthy_string (p_base data)) || negb (truthy_string (p_quote data))
      then Throw (Error_ "Invalid price data structure")
      else if (p <=? 0)%float then Throw (Error_ "Price must be positive")
      else
        let timestamp := number_or (p_timestamp data) now in
        Ok {| base := b;
              quote := q;
              price := p;
              timestamp := timestamp;
              source := fetcherName;
              volume24h := p_volume24h data;
              change24h := p_change24h data;
              marketCap := p_marketCap data;
              confidence := Some (number_or (p_confidence data) 100%float) |}
  | _, _, _ => Throw (Error_ "Invalid price data structure")
  end.

(** [checkRateLimit]: the time to sleep before the next request ([None]
    when the request can go at once), from the configured requests per
    minute, the time of the last request and the clock. *)
Definition checkRateLimit (rateLimit lastRequestTime now : number) : option number :=
  let timeSinceLastRequest := (now - lastRequestTime)%float in
  let minInterval := (60 * 1000 / rateLimit)%float in
  if (timeSinceLastRequest <? minInterval)%float
  then Some (minInterval - timeSinceLastRequest)%float
  else None.

(** [BinanceFetcher.fetchMultiplePrices], from the response of the request
    on: an item is the symbol and the price as [parseFloat] reads it.
    [clock k] is what the [k]-th call of [Date.now()] returns; [reads] calls
    have been made so far. [validatePriceData] reads the clock again only
    for a falsy timestamp. *)
Fixpoint Binance_items (clock : nat -> number) (reads : nat)
    (response : list (string * number)) : result (list PriceData) :=
  match response with
  | [] => Ok []
  | (item_symbol, item_price) :: rest =>
      let base := JSString.slice item_symbol 0 (Some (-4)%Z) in
      let quote := JSString.slice item_symbol (-4) None in
      let timestamp := clock reads in
      match validatePriceData "binance" (clock (S reads))
              {| p_base := Some base; p_quote := Some quote;
                 p_price := Some item_price; p_timestamp := Some timestamp;
                 p_volume24h := None; p_change24h := None; p_marketCap := None;
                 p_confidence := Some 98%float |} with
      | Throw e => Throw e
      | Ok priceData =>
          match Binance_items clock (if ToBoolean timestamp then S reads else S (S reads))
                  rest with
          | Throw e => Throw e
          | Ok results => Ok (priceData :: results)
          end
      end
  end.

Definition Binance_fetchMultiplePrices (clock : nat -> number) (reads : nat)
    (response : result (list (string * number))) : result (list PriceData) :=
  match response with
  | Throw networkError => Throw networkError
  | Ok items => Binance_items clock reads items
  end.

End DataFetcher.

(** ** [TONClientService]: sending a transaction *)

Module TONClient.

Record TONConfig := {
  network : string;
  endpoint : string;
  ton_gasLimit : number;
  gasPrice : number;
  maxRetries : Z;
  retryDelay : number
}.

(** [BlockchainError] is declared as an interface only
    (types/blockchain.ts): the name has no value at run time, and every
    [new BlockchainError(...)] throws this [TypeError] in place of the error
    it was to build. *)
Definition notAConstructor : exn :=
  TypeError "BlockchainError is not a constructor".

Inductive outcome (A : Type) :=
| Returned (a : A)
| Raised (e : exn).
Arguments Returned {A} a.
Arguments Raised {A} e.

Record TransactionResult := {
  hash : string;
  success : bool;
  gasUsed : number;
  tr_timestamp : number
}.

(** The client: its wallet (by address) once initialised, the connection
    flag, and the delays slept so far. *)
Record Client := {
  ton_config : TONConfig;
  wallet : option string;
  isConnected : bool;
  ton_slept : list number
}.

Definition ton_sleep (ms : number) (c : Client) : Client :=
  {| ton_config := ton_config c; wallet := wallet c; isConnected := isConnected c;
     ton_slept := ton_slept c ++ [ms] |}.

Definition isReady (c : Client) : bool :=
  isConnected c && match wallet c with Some _ => true | None => false end.

Definition getWalletAddress (c : Client) : outcome string :=
  match wallet c with
  | None => Raised notAConstructor
  | Some address => Returned address
  end.

Definition disconnect (c : Client) : Client :=
  {| ton_config := ton_config c; wallet := None; isConnected := false;
     ton_slept := ton_slept c |}.

Section Send.

(** What the body of the [try] does at a given attempt (open the wallet,
    read the seqno, build the message, send the transfer): the text of the
    transfer, or what was thrown. [Date_now] is the clock when the result is
    built. *)
Variable transfer : Z -> result string.
Variable Date_now : number.

(** The [while] loop of [sendTransaction], with [fuel] iterations left. The
    [throw] of the last failed attempt and the one after the loop both go
    through [new BlockchainError]. *)
Fixpoint sendAttempts (fuel : nat) (attempt : Z) (c : Client)
    : outcome TransactionResult * Client :=
  match fuel with
  | O => (Raised notAConstructor, c)
  | S fuel' =>
      if negb (attempt <? maxRetries (ton_config c))%Z
      then (Raised notAConstructor, c)
      else
        let attempt := (attempt + 1)%Z in
        match transfer attempt with
        | Ok transferText =>
            (Returned {| hash := transferText; success := true;
                         gasUsed := ton_gasLimit (ton_config c);
                         tr_timestamp := Date_now |}, c)
        | Throw error =>
            if (maxRetries (ton_config c) <=? attempt)%Z
            then (Raised notAConstructor, c)
            else sendAttempts fuel' attempt
                   (ton_sleep (retryDelay (ton_config c) * of_Z attempt)%float c)
        end
  end.

Definition sendTransaction (c : Client) : outcome TransactionResult * Client :=
  match wallet c with
  | None => (Raised notAConstructor, c)
  | Some _ => sendAttempts (Z.to_nat (maxRetries (ton_config c))) 0 c
  end.

End Send.
End TONClient.

(** ** [ConsoleLogger]: which messages are written *)

Module Logger.

(** [levels[level]]; any other text gives a value that no comparison
    holds for. *)
Definition levels (level : string) : option number :=
  if String.eqb level "debug" then Some 0%float
  else if String.eqb level "info" then Some 1%float
  else if String.eqb level "warn" then Some 2%float
  else if String.eqb level "error" then Some 3%float
  else None.

(** [levels[level] >= levels[this.logLevel]] *)
Definition shouldLog (logLevel level : string) : bool :=
  match levels level, levels logLevel with
  | Some l, Some threshold => (threshold <=? l)%float
  | _, _ => false
  end.

End Logger.

(** ** [TonOracleApplication.validateConfiguration] *)

Module App.

Inductive ConfigError :=
| InsufficientEnabledSources (have : nat) (need : number)
| NoSupportedPairs
| InvalidNetwork (network : string).

(** [None] when the configuration is accepted. *)
Definition validateConfiguration (network : string) (price : PriceOracleConfig)
    : option ConfigError :=
  let enabledSources := List.filter enabled (sources price) in
  if (of_nat (length enabledSources) <? minSourcesRequired price)%float
  then Some (InsufficientEnabledSources (length enabledSources) (minSourcesRequired price))
  else if (length (supportedPairs price) =? 0)%nat then Some NoSupportedPairs
  else if negb (existsb (String.eqb network) ["mainnet"; "testnet"])
  then Some (InvalidNetwork network)
  else None.

End App.

(** ** What the loop of [processData] is meant to compute *)

Module Spec.
Import PriceOracle.

Definition keyOf (d : OracleData) : string :=
  pairKeyOf (base (value d)) (quote (value d)).

Definition keyOfAggregate (a : AggregatedPriceData) : string :=
  pairKeyOf (ag_base a) (ag_quote a).

(** A group as [groupDataByPair] builds it: not empty, every member under
    its own key. *)
Definition group_ok (entry : string * list OracleData) : Prop :=
  snd entry <> [] /\ forall d, In d (snd entry) -> keyOf d = fst entry.

Definition grouped_ok (grouped : list (string * list OracleData)) : Prop :=
  List.NoDup (List.map fst grouped) /\ List.Forall group_ok grouped.

(** The groups that get an aggregated observation: a supported pair whose
    group, after outlier removal, is not below the floor. *)
Definition meetsFloor (cfg : PriceOracleConfig) (entry : string * list OracleData)
    : bool :=
  match findPair cfg (fst entry) with
  | Some _ =>
      negb (length (snd entry) =? 0)%nat &&
      negb (of_nat (length (removeOutliers cfg (snd entry))) <?
              minSourcesRequired cfg)%float
  | None => false
  end.

(** How a group that meets the floor is aggregated. *)
Definition aggregated (cfg : PriceOracleConfig) (entry : string * list OracleData)
    (a : AggregatedPriceData) : Prop :=
  aggregatePrices cfg (removeOutliers cfg (snd entry)) = Ok a /\
  (minSourcesRequired cfg <=? of_nat (length (removeOutliers cfg (snd entry))))%float
  = true.


(** The delay before jitter: it doubles from 1000 and is capped at 30000
    from the sixth attempt on. *)
Definition baseDelay (attempt : Z) : number :=
  Math_min (1000 * Math_pow_2 (attempt - 1))%float 30000%float.



(** A list that goes down at every step. *)
Fixpoint descending (l : list number) : Prop :=
  match l with
  | [] => True
  | x :: rest => (forall y, In y rest -> (y <? x)%float = true) /\ descending rest
  end.




End Spec.

(** ** Well-formed controller states *)

Module Invariant.
Import OracleBase.

(** The only timer the controller ever has in the event loop is the one
    whose handle it holds, and a stopped controller has none. Every
    operation of the class, run to completion, keeps this. *)
Definition timers_ok {W} (o : Oracle W) : Prop :=
  (forall h, In h (timers o) -> updateTimer o = Some h) /\
  (isRunning o = false -> timers o = []).

(** No timer is armed, or the controller runs and the one timer armed is
    the one whose handle it holds. *)
Definition scheduled {W} (o : Oracle W) : Prop :=
  timers o = [] \/
  (isRunning o = true /\ exists h, timers o = [h] /\ updateTimer o = Some h).

End Invariant.

(** ** The states a controller can be in

    The calls a client can make and the timer events of the runtime, each run
    to completion, starting from a new instance. *)

Module Events.
Import OracleBase.

Section Reachable.
Context {W D T : Type}.
Variable fetchData : W -> result (list D) * W.
Variable validateData : list D -> W -> result ValidationResult * W.
Variable processData : list D -> W -> result T * W.
Variable submitToBlockchain : T -> W -> result string * W.
Variable Date_now : number.
Variable Math_random : Z -> number.

Inductive reachable : Oracle W -> Prop :=
| reach_create (cfg : OracleConfig) (w : W) : reachable (create cfg w)
| reach_start (o : Oracle W) :
    reachable o ->
    reachable (snd (start fetchData validateData processData submitToBlockchain
                      Date_now Math_random o))
| reach_stop (o : Oracle W) : reachable o -> reachable (stop o)
| reach_forceUpdate (o : Oracle W) :
    reachable o ->
    reachable (snd (forceUpdate fetchData validateData processData submitToBlockchain
                      Date_now Math_random o))
| reach_timer (o : Oracle W) (h : nat) :
    reachable o -> In h (timers o) ->
    reachable (onTimer fetchData validateData processData submitToBlockchain
                 Date_now Math_random h o)
| reach_updateConfig (o : Oracle W) (newConfig : PartialOracleConfig) :
    reachable o -> reachable (updateConfig newConfig o).

End Reachable.
End Events.

(** ** What [validateData] accepts *)

Module Rules.
Import PriceOracle Spec.

(** The members of [data] that belong to pair [k], in their order. *)
Definition membersOf (k : string) (data : list OracleData) : list OracleData :=
  List.filter (fun d => String.eqb (keyOf d) k) data.

(** A price that passes the range check of its pair. *)
Definition inRange (pair : TradingPair) (d : OracleData) : bool :=
  negb ((price (value d) <? minPrice pair)%float ||
        (maxPrice pair <? price (value d))%float).

(** A group that adds no error: its pair is supported, it is not below the
    floor, and every price passes the range check. *)
Definition groupAccepted (cfg : PriceOracleConfig) (entry : string * list OracleData)
    : bool :=
  match findPair cfg (fst entry) with
  | None => false
  | Some tradingPair =>
      negb (of_nat (length (snd entry)) <? minSourcesRequired cfg)%float &&
      forallb (inRange tradingPair) (snd entry)
  end.

(** The delays slept after the failed attempts [first], [first + 1], ... of
    [fetchDataWithRetry]. *)
Definition delaysFrom (Math_random : Z -> number) (first : Z) (count : nat)
    : list number :=
  List.map
    (fun i => let attempt := (first + Z.of_nat i)%Z in
              OracleBase.calculateRetryDelay (Math_random attempt) attempt)
    (seq 0 count).

(** The state of the derived class after [count] calls of [fetchData], one
    after the other, from state [w]. *)
Definition afterCalls {W D} (fetchData : W -> result (list D) * W) (count : nat)
    (w : W) : W :=
  Nat.iter count (fun w => snd (fetchData w)) w.

(** What a price returned by [BinanceFetcher.fetchMultiplePrices] has to do
    with the item it was made from. *)
Definition splitOf (item : string * number) (pd : PriceData) : Prop :=
  (base pd +:+ quote pd)%string = fst item /\
  String.length (quote pd) = 4%nat /\ base pd <> ""%string /\
  price pd = snd item /\ (snd item <=? 0)%float = false /\
  source pd = "binance"%string.

(** The delays slept after the failed attempts [first], [first + 1], ... of
    [sendTransaction]: the retry delay times the number of the attempt. *)
Definition backoffFrom (retryDelay : number) (first : Z) (count : nat) : list number :=
  List.map (fun i => (retryDelay * of_Z (first + Z.of_nat i))%float) (seq 0 count).

(** The client after it has slept [delays]. *)
Definition after (delays : list number) (c : TONClient.Client) : TONClient.Client :=
  {| TONClient.ton_config := TONClient.ton_config c;
     TONClient.wallet := TONClient.wallet c;
     TONClient.isConnected := TONClient.isConnected c;
     TONClient.ton_slept := TONClient.ton_slept c ++ delays |}.

(** The rank of a level name of the logger. *)
Definition rank (level : string) : option nat :=
  if String.eqb level "debug" then Some 0%nat
  else if String.eqb level "info" then Some 1%nat
  else if String.eqb level "warn" then Some 2%nat
  else if String.eqb level "error" then Some 3%nat
  else None.

End Rules.

(** ** Concrete runs *)

Module Scenario.
Import PriceOracle OracleBase.

Definition btcusd : TradingPair :=
  {| tp_base := "BTC"; tp_quote := "USD"; symbol := "BTCUSD"; isActive := true;
     minPrice := 0.000001%float; maxPrice := 1000000%float;
     decimalPlaces := 6%float |}.

Definition sourceConfig (n : string) : PriceSourceConfig :=
  {| name := n; enabled := true; weight := 1%float |}.

(** Three enabled sources, one pair, median aggregation, a deviation
    threshold of 1 percent. *)
Definition priceConfig (outlierThreshold minSourcesRequired : number)
    : PriceOracleConfig :=
  {| supportedPairs := [btcusd];
     sources := [sourceConfig "coingecko"; sourceConfig "binance";
                 sourceConfig "coinmarketcap"];
     aggregationMethod := median;
     outlierThreshold := outlierThreshold;
     minSourcesRequired := minSourcesRequired;
     maxPriceAge := 300%float;
     updateInterval := 60%float;
     deviationThreshold := 1%float |}.

Definition reading (s : string) (p : number) : PriceData :=
  {| base := "BTC"; quote := "USD"; price := p; timestamp := 1700000000000%float;
     source := s; volume24h := None; change24h := None; marketCap := None;
     confidence := Some 95%float |}.

Definition observation (s : string) (p : number) : OracleData :=
  {| value := reading s p; od_timestamp := 1700000000000%float; od_source := s;
     metadata_pair := "BTC/USD"; metadata_confidence := Some 95%float |}.

(** The three sources answer [a], [b] and [c]; the ledger accepts. *)
Definition answers (a b c : number) : Env :=
  {| fetchPrice := fun s _ _ =>
       if String.eqb s "coingecko" then Ok (reading s a)
       else if String.eqb s "binance" then Ok (reading s b)
       else Ok (reading s c);
     sendTransaction := fun _ => Ok "0xabc";
     Date_now := 1700000000500%float;
     Math_random := fun _ => 0.5%float |}.

(** No source answers. *)
Definition outage : Env :=
  {| fetchPrice := fun _ _ _ => Throw (Error_ "Request failed");
     sendTransaction := fun _ => Ok "0xabc";
     Date_now := 1700000000500%float;
     Math_random := fun _ => 0.5%float |}.

Definition identical : list OracleData :=
  [observation "coingecko" 100%float; observation "binance" 100%float;
   observation "coinmarketcap" 100%float].

Definition config22 : PriceOracleConfig := priceConfig 2%float 2%float.

(** The pipeline of [performUpdate] of a [PriceOracle]. *)
Definition pipeline (cfg : PriceOracleConfig) (env : Env) :=
  OracleBase.pipeline
    (fetchData cfg (Oracle.initializeDataSources cfg) env)
    (validateData cfg env) (processData cfg) (submitToBlockchain cfg env)
    (Math_random env).

(** What [Binance.fetchPrice] passes on when [parseFloat] of the price text
    gives [NaN]. *)
Definition unparsed : DataFetcher.PartialPriceData :=
  {| DataFetcher.p_base := Some "BTC"; DataFetcher.p_quote := Some "USDT";
     DataFetcher.p_price := Some nan;
     DataFetcher.p_timestamp := Some 1700000000000%float;
     DataFetcher.p_volume24h := Some nan; DataFetcher.p_change24h := Some nan;
     DataFetcher.p_marketCap := None;
     DataFetcher.p_confidence := Some 98%float |}.

Definition performUpdate := Oracle.performUpdate config22.

(** A new oracle after two cycles that found every source down. *)
Definition afterTwoOutages : Oracle State :=
  snd (performUpdate outage (snd (performUpdate outage (Oracle.new config22)))).

Definition noData : exn := ValidationError "No valid aggregated price data available".

(** An oracle started while every source is down: its first cycle has
    failed, it runs, and its timer is armed. *)
Definition startedInOutage : Oracle State :=
  snd (Oracle.start config22 outage (Oracle.new config22)).

(** The same oracle once its timer has fired into the outage: two failed
    cycles, still running, the next timer armed. *)
Definition oneFailureLeft : Oracle State :=
  Oracle.onTimer config22 outage 0 startedInOutage.

(** A floor of three sources and an outlier threshold of one standard
    deviation. *)
Definition config13 : PriceOracleConfig := priceConfig 1%float 3%float.

(** A client with a wallet, three attempts and a retry delay of five
    seconds. *)
Definition sampleClient : TONClient.Client :=
  {| TONClient.ton_config :=
       {| TONClient.network := "testnet";
          TONClient.endpoint := "https://testnet.toncenter.com";
          TONClient.ton_gasLimit := 1000000%float;
          TONClient.gasPrice := 1000000000%float;
          TONClient.maxRetries := 3; TONClient.retryDelay := 5000%float |};
     TONClient.wallet := Some "EQ"; TONClient.isConnected := true;
     TONClient.ton_slept := [] |}.

End Scenario.

(** * Properties *)

(** ** Comparisons of floats *)

Module FloatFacts.
Import FloatOrder.
Local Open Scope Z_scope.

Lemma SFcompare_key (x y : spec_float) :
  not_nan x -> not_nan y ->
  exists c, SFcompare x y = Some c /\
    match c with
    | Lt => key_lt (key x) (key y)
    | Eq => key x = key y
    | Gt => key_lt (key y) (key x)
    end.
Proof.
  intros Hx Hy.
  destruct x as [sx|sx| |sx mx ex]; [| |contradiction Hx; reflexivity|];
  (destruct y as [sy|sy| |sy my ey]; [| |contradiction Hy; reflexivity|]);
  try (destruct sx); try (destruct sy); cbn;
  try (eexists; split; [reflexivity|]; cbn; (reflexivity || lia));
  change (Pos.compare_cont Eq mx my) with (Pos.compare mx my);
  (destruct (Z.compare_spec ex ey);
   [destruct (Pos.compare_spec mx my)| |]);
  (eexists; split; [reflexivity|]); cbn; subst; try reflexivity; lia.
Qed.

Lemma SFcompare_nan_l (y : spec_float) : SFcompare S754_nan y = None.
Proof. reflexivity. Qed.

Lemma SFcompare_nan_r (x : spec_float) : SFcompare x S754_nan = None.
Proof. destruct x; reflexivity. Qed.

Lemma key_lt_irrefl (k : Z * Z * Z) : ~ key_lt k k.
Proof. destruct k as [[c e] m]. cbn. lia. Qed.

Lemma SFltb_key (x y : spec_float) :
  not_nan x -> not_nan y -> (SFltb x y = true <-> key_lt (key x) (key y)).
Proof.
  intros Hx Hy. destruct (SFcompare_key x y Hx Hy) as (c & Hc & Hk).
  unfold SFltb. rewrite Hc.
  destruct (key x) as [[c1 e1] m1], (key y) as [[c2 e2] m2].
  destruct c; cbn in *; split; try discriminate; try reflexivity;
    try (inversion Hk; subst); lia.
Qed.

Lemma SFleb_key (x y : spec_float) :
  not_nan x -> not_nan y -> (SFleb x y = true <-> key_le (key x) (key y)).
Proof.
  intros Hx Hy. destruct (SFcompare_key x y Hx Hy) as (c & Hc & Hk).
  unfold SFleb. rewrite Hc.
  destruct (key x) as [[c1 e1] m1], (key y) as [[c2 e2] m2].
  destruct c; cbn in *; split; try discriminate; try reflexivity;
    try (inversion Hk; subst); lia.
Qed.

Lemma is_nan_spec (x : float) : is_nan x = true <-> Prim2SF x = S754_nan.
Proof.
  unfold is_nan. rewrite FloatAxioms.eqb_spec. unfold SFeqb.
  destruct (Prim2SF x) as [s|s| |s m e] eqn:Hx;
    [cbn; split; discriminate|destruct s; cbn; split; discriminate
    |cbn; split; reflexivity|].
  assert (Hn : not_nan (S754_finite s m e)) by discriminate.
  destruct (SFcompare_key _ _ Hn Hn) as (c & Hc & Hk).
  rewrite Hc. destruct c; cbn; split; try discriminate;
    exfalso; exact (key_lt_irrefl _ Hk).
Qed.

Lemma not_nan_spec (x : float) : is_nan x = false <-> not_nan (Prim2SF x).
Proof.
  unfold not_nan. rewrite <- is_nan_spec. destruct (is_nan x); split; congruence.
Qed.

Lemma ltb_key (x y : float) :
  is_nan x = false -> is_nan y = false ->
  ((x <? y)%float = true <-> key_lt (fkey x) (fkey y)).
Proof.
  intros Hx Hy. rewrite ltb_spec.
  apply SFltb_key; apply not_nan_spec; assumption.
Qed.

Lemma leb_key (x y : float) :
  is_nan x = false -> is_nan y = false ->
  ((x <=? y)%float = true <-> key_le (fkey x) (fkey y)).
Proof.
  intros Hx Hy. rewrite leb_spec.
  apply SFleb_key; apply not_nan_spec; assumption.
Qed.

Lemma ltb_not_nan (x y : float) :
  (x <? y)%float = true -> is_nan x = false /\ is_nan y = false.
Proof.
  rewrite ltb_spec. intros H.
  split; apply not_nan_spec; intros Hn; rewrite Hn in H;
    [rewrite SFcompare_nan_l in H || (unfold SFltb in H; rewrite SFcompare_nan_l in H)
    |unfold SFltb in H; rewrite SFcompare_nan_r in H]; discriminate.
Qed.

Lemma leb_not_nan (x y : float) :
  (x <=? y)%float = true -> is_nan x = false /\ is_nan y = false.
Proof.
  rewrite leb_spec. intros H.
  split; apply not_nan_spec; intros Hn; rewrite Hn in H;
    unfold SFleb in H;
    [rewrite SFcompare_nan_l in H|rewrite SFcompare_nan_r in H]; discriminate.
Qed.

Lemma iter_pos_invariant {A} (P : A -> Prop) (f : A -> A) :
  (forall x, P x -> P (f x)) -> forall n x, P x -> P (SpecFloat.iter_pos f n x).
Proof.
  intros Hf. induction n as [n IH|n IH|]; intros x Hx; cbn.
  - apply IH, IH, Hf, Hx.
  - apply IH, IH, Hx.
  - apply Hf, Hx.
Qed.

Lemma shr_1_nonneg (mrs : shr_record) : 0 <= shr_m mrs -> 0 <= shr_m (shr_1 mrs).
Proof.
  destruct mrs as [m r s]. cbn. intros Hm.
  destruct m as [|p|p]; [cbn; lia| |lia].
  destruct p; cbn; lia.
Qed.

Lemma shr_nonneg (mrs : shr_record) (e n : Z) :
  0 <= shr_m mrs -> 0 <= shr_m (fst (shr mrs e n)).
Proof.
  intros Hm. unfold shr. destruct n as [|p|p]; cbn [fst]; try exact Hm.
  apply iter_pos_invariant; [exact shr_1_nonneg|exact Hm].
Qed.

Lemma shr_fexp_nonneg (m e : Z) (l : location) :
  0 <= m -> 0 <= shr_m (fst (shr_fexp prec emax m e l)).
Proof.
  intros Hm. unfold shr_fexp. apply shr_nonneg.
  destruct l as [|[]]; exact Hm.
Qed.

Lemma round_nearest_even_nonneg (m : Z) (l : location) :
  0 <= m -> 0 <= round_nearest_even m l.
Proof.
  intros Hm. destruct l as [|[]]; cbn; try lia. destruct (Z.even m); lia.
Qed.

Lemma binary_round_aux_not_nan (s : bool) (m e : Z) (l : location) :
  0 <= m -> not_nan (binary_round_aux prec emax s m e l).
Proof.
  intros Hm. unfold binary_round_aux.
  pose proof (shr_fexp_nonneg m e l Hm) as H1.
  destruct (shr_fexp prec emax m e l) as [mrs' e'] eqn:E1. cbn [fst] in H1.
  pose proof (shr_fexp_nonneg _ e' loc_Exact
                (round_nearest_even_nonneg _ (loc_of_shr_record mrs') H1)) as H2.
  destruct (shr_fexp prec emax (round_nearest_even _ _) e' loc_Exact) as [mrs'' e''].
  cbn [fst] in H2.
  destruct (shr_m mrs'') as [|p|p]; [discriminate| |lia].
  destruct (e'' <=? _); discriminate.
Qed.

Lemma binary_normalize_not_nan (z e : Z) (szero : bool) :
  not_nan (binary_normalize prec emax z e szero).
Proof.
  destruct z as [|p|p]; cbn; [discriminate| |];
    unfold binary_round; destruct (shl_align _ _ _) as [mz ez];
    apply binary_round_aux_not_nan; lia.
Qed.

Lemma of_nat_not_nan (n : nat) : is_nan (of_nat n) = false.
Proof.
  apply not_nan_spec. unfold of_nat. rewrite of_uint63_spec.
  apply binary_normalize_not_nan.
Qed.

Local Open Scope float_scope.

(** [<=?] is a total preorder on the floats that are not NaN, with [<?] its
    strict part. *)
Lemma leb_of_not_ltb (x y : float) :
  is_nan x = false -> is_nan y = false -> (x <? y) = false -> (y <=? x) = true.
Proof.
  intros Hx Hy Hlt. apply (leb_key y x Hy Hx).
  destruct (x <? y) eqn:E; [discriminate|].
  assert (Hn : ~ key_lt (fkey x) (fkey y)).
  { intros Hk. apply (ltb_key x y Hx Hy) in Hk. congruence. }
  destruct (fkey x) as [[c1 e1] m1], (fkey y) as [[c2 e2] m2]. cbn in *. lia.
Qed.

Lemma ltb_false_of_leb (x y : float) : (x <=? y) = true -> (y <? x) = false.
Proof.
  intros Hle. destruct (leb_not_nan x y Hle) as [Hx Hy].
  apply (leb_key x y Hx Hy) in Hle.
  destruct (y <? x) eqn:E; [|reflexivity].
  apply (ltb_key y x Hy Hx) in E.
  destruct (fkey x) as [[c1 e1] m1], (fkey y) as [[c2 e2] m2]. cbn in *. lia.
Qed.

Lemma leb_of_ltb (x y : float) : (x <? y) = true -> (x <=? y) = true.
Proof.
  intros Hlt. destruct (ltb_not_nan x y Hlt) as [Hx Hy].
  apply (leb_key x y Hx Hy). apply (ltb_key x y Hx Hy) in Hlt.
  destruct (fkey x) as [[c1 e1] m1], (fkey y) as [[c2 e2] m2]. cbn in *. lia.
Qed.

Lemma leb_refl (x : float) : is_nan x = false -> (x <=? x) = true.
Proof.
  intros Hx. apply (leb_key x x Hx Hx).
  destruct (fkey x) as [[c e] m]. cbn. lia.
Qed.

Lemma leb_trans (x y z : float) :
  (x <=? y) = true -> (y <=? z) = true -> (x <=? z) = true.
Proof.
  intros Hxy Hyz.
  destruct (leb_not_nan x y Hxy) as [Hx Hy], (leb_not_nan y z Hyz) as [_ Hz].
  apply (leb_key x z Hx Hz).
  apply (leb_key x y Hx Hy) in Hxy. apply (leb_key y z Hy Hz) in Hyz.
  destruct (fkey x) as [[c1 e1] m1], (fkey y) as [[c2 e2] m2],
    (fkey z) as [[c3 e3] m3]. cbn in *. lia.
Qed.

End FloatFacts.

(** ** Rounding is monotone

    [binary_round] is put in closed form ([binary_round_normal]); from it,
    rounding is monotone ([RN_mono]) and exact on representable values
    ([RN_exact]), and so the sum, the difference and the product of floats
    are monotone in each argument. *)

Module Rounding.
Import FloatOrder FloatFacts.
Local Open Scope Z_scope.
Local Abbreviation fexp := (SpecFloat.fexp prec emax).

Ltac case_ifs :=
  repeat match goal with
         | |- context [if ?b then _ else _] => destruct b eqn:?
         end.

Lemma digits2_size (p : positive) : digits2_pos p = Pos.size p.
Proof. induction p; cbn; congruence. Qed.

Lemma digits_bounds (p : positive) :
  2 ^ (Zpos (digits2_pos p) - 1) <= Zpos p < 2 ^ Zpos (digits2_pos p).
Proof.
  rewrite digits2_size. split.
  - pose proof (Pos.size_le p) as H.
    assert (H' : 2 ^ Zpos (Pos.size p) <= 2 * Zpos p).
    { change 2 with (Zpos 2) at 1. rewrite <- Pos2Z.inj_pow.
      apply Pos2Z.pos_le_pos in H. rewrite Pos2Z.inj_xO in H. exact H. }
    assert (Hs : 2 ^ Zpos (Pos.size p) = 2 * 2 ^ (Zpos (Pos.size p) - 1)).
    { rewrite <- Z.pow_succ_r by lia. f_equal. lia. }
    lia.
  - pose proof (Pos.size_gt p) as H.
    change 2 with (Zpos 2). rewrite <- Pos2Z.inj_pow.
    apply Pos2Z.pos_lt_pos. exact H.
Qed.

Lemma digits_log2 (p : positive) : Zpos (digits2_pos p) = Z.log2 (Zpos p) + 1.
Proof.
  pose proof (digits_bounds p) as [Hl Hu].
  symmetry. rewrite (Z.log2_unique (Zpos p) (Zpos (digits2_pos p) - 1)); try lia.
  replace (Z.succ (Zpos (digits2_pos p) - 1)) with (Zpos (digits2_pos p)) by lia.
  split; assumption.
Qed.

Lemma Zdigits2_log2 (z : Z) : 0 < z -> Zdigits2 z = Z.log2 z + 1.
Proof. destruct z as [|p|p]; try lia. intros _. apply digits_log2. Qed.

Lemma Zdigits2_bounds (z : Z) : 0 < z -> 2 ^ (Zdigits2 z - 1) <= z < 2 ^ Zdigits2 z.
Proof. destruct z as [|p|p]; try lia. intros _. apply digits_bounds. Qed.

Lemma Zdigits2_pos (z : Z) : 0 < z -> 0 < Zdigits2 z.
Proof. destruct z as [|p|p]; cbn; lia. Qed.

Lemma Zdigits2_unique (z d : Z) : 2 ^ (d - 1) <= z < 2 ^ d -> 0 < d -> Zdigits2 z = d.
Proof.
  intros H Hd. assert (0 < z) by (pose proof (Z.pow_pos_nonneg 2 (d - 1)); lia).
  rewrite Zdigits2_log2 by lia.
  rewrite (Z.log2_unique z (d - 1)); try lia.
  replace (Z.succ (d - 1)) with d by lia. exact H.
Qed.

Lemma Zdigits2_le (a b : Z) : 0 < a -> a <= b -> Zdigits2 a <= Zdigits2 b.
Proof.
  intros Ha Hab. rewrite !Zdigits2_log2 by lia.
  pose proof (Z.log2_le_mono a b Hab). lia.
Qed.

Lemma Zdigits2_mul_pow2 (z k : Z) : 0 < z -> 0 <= k -> Zdigits2 (z * 2 ^ k) = Zdigits2 z + k.
Proof.
  intros Hz Hk. assert (0 < 2 ^ k) by (apply Z.pow_pos_nonneg; lia).
  rewrite !Zdigits2_log2 by nia. rewrite Z.log2_mul_pow2 by lia. lia.
Qed.

Lemma iter_pos_nat {A} (f : A -> A) (p : positive) :
  forall x, SpecFloat.iter_pos f p x = Nat.iter (Pos.to_nat p) f x.
Proof.
  induction p as [p IH|p IH|]; intros x; cbn [SpecFloat.iter_pos].
  - rewrite !IH, Pos2Nat.inj_xI.
    replace (S (2 * Pos.to_nat p)) with (Pos.to_nat p + S (Pos.to_nat p))%nat by lia.
    rewrite Nat.iter_add, Nat.iter_succ_r. reflexivity.
  - rewrite !IH, Pos2Nat.inj_xO.
    replace (2 * Pos.to_nat p)%nat with (Pos.to_nat p + Pos.to_nat p)%nat by lia.
    rewrite Nat.iter_add. reflexivity.
  - reflexivity.
Qed.

Lemma shr_1_spec (m : Z) (r s : bool) :
  0 <= m ->
  shr_1 (Build_shr_record m r s) = Build_shr_record (m / 2) (Z.odd m) (r || s).
Proof.
  intros Hm. rewrite <- Z.div2_div.
  destruct m as [|p|p]; [reflexivity| |lia]. destruct p; reflexivity.
Qed.

Lemma mod_pow2_succ (N j : Z) :
  0 <= j -> N mod 2 ^ (j + 1) = N mod 2 ^ j + 2 ^ j * (if Z.odd (N / 2 ^ j) then 1 else 0).
Proof.
  intros Hj. assert (0 < 2 ^ j) by (apply Z.pow_pos_nonneg; lia).
  rewrite Z.pow_add_r, Z.pow_1_r by lia.
  rewrite Z.rem_mul_r by lia. rewrite Zmod_odd. reflexivity.
Qed.

Lemma iter_shr_1 (N : Z) (k : nat) :
  0 <= N -> Nat.iter k shr_1 (Build_shr_record N false false) = shifted N k.
Proof.
  intros HN. induction k as [|k IH]; [reflexivity|].
  rewrite Nat.iter_succ, IH. clear IH.
  destruct k as [|j].
  - cbn [shifted]. rewrite shr_1_spec by lia. cbn [orb].
    change (Z.of_nat 1) with 1. change (Z.of_nat 0) with 0.
    rewrite Z.pow_0_r, Z.pow_1_r, Z.div_1_r, Z.mod_1_r. reflexivity.
  - cbn [shifted].
    assert (H2 : 0 < 2 ^ Z.of_nat j) by (apply Z.pow_pos_nonneg; lia).
    assert (H3 : 0 < 2 ^ Z.of_nat (S j)) by (apply Z.pow_pos_nonneg; lia).
    rewrite shr_1_spec by (apply Z.div_pos; lia).
    f_equal.
    + rewrite Z.div_div by lia. f_equal.
      rewrite (Nat2Z.inj_succ (S j)), Z.pow_succ_r by lia. lia.
    + pose proof (mod_pow2_succ N (Z.of_nat j) ltac:(lia)) as Hm.
      replace (Z.of_nat j + 1) with (Z.of_nat (S j)) in Hm by lia.
      pose proof (Z.mod_pos_bound N (2 ^ Z.of_nat j) H2) as Hb.
      destruct (Z.odd (N / 2 ^ Z.of_nat j)); cbn [orb].
      * symmetry. apply negb_true_iff, Z.eqb_neq. lia.
      * f_equal. destruct (Z.eqb_spec (N mod 2 ^ Z.of_nat j) 0),
          (Z.eqb_spec (N mod 2 ^ Z.of_nat (S j)) 0); try reflexivity; lia.
Qed.

Lemma shr_shifted (N e n : Z) :
  0 <= N -> 0 <= n ->
  shr (Build_shr_record N false false) e n = (shifted N (Z.to_nat n), e + n).
Proof.
  intros HN Hn. unfold shr. destruct n as [|p|p]; [|
    |lia].
  - cbn. f_equal. lia.
  - rewrite iter_pos_nat, iter_shr_1 by lia. reflexivity.
Qed.

Lemma rne_0 (N : Z) : rne N 0 = N.
Proof. reflexivity. Qed.

Lemma rne_S (N : Z) (j : nat) :
  0 <= N ->
  let a := N / 2 ^ Z.of_nat j in
  let q := a / 2 in
  rne N (S j) =
    if Z.odd a then
      if negb (N mod 2 ^ Z.of_nat j =? 0) then q + 1
      else if Z.even q then q else q + 1
    else q.
Proof.
  intros HN a q. unfold rne. cbn [shifted shr_m loc_of_shr_record].
  assert (H2 : 0 < 2 ^ Z.of_nat j) by (apply Z.pow_pos_nonneg; lia).
  assert (Hq : N / 2 ^ Z.of_nat (S j) = q).
  { unfold q, a. rewrite Z.div_div by lia. f_equal.
    rewrite Nat2Z.inj_succ, Z.pow_succ_r by lia. lia. }
  rewrite Hq. fold a.
  destruct (Z.odd a), (negb (N mod 2 ^ Z.of_nat j =? 0)); reflexivity.
Qed.

Lemma rne_floor (N : Z) (k : nat) :
  0 <= N -> N / 2 ^ Z.of_nat k <= rne N k <= N / 2 ^ Z.of_nat k + 1.
Proof.
  intros HN. destruct k as [|j].
  - rewrite rne_0. change (Z.of_nat 0) with 0. rewrite Z.pow_0_r, Z.div_1_r. lia.
  - rewrite rne_S by lia. cbv zeta.
    assert (H2 : 0 < 2 ^ Z.of_nat j) by (apply Z.pow_pos_nonneg; lia).
    assert (Hq : N / 2 ^ Z.of_nat (S j) = N / 2 ^ Z.of_nat j / 2).
    { rewrite Z.div_div by lia. f_equal.
      rewrite Nat2Z.inj_succ, Z.pow_succ_r by lia. lia. }
    rewrite Hq. case_ifs; lia.
Qed.

Lemma rne_exact (N : Z) (k : nat) :
  0 <= N -> N mod 2 ^ Z.of_nat k = 0 -> rne N k = N / 2 ^ Z.of_nat k.
Proof.
  intros HN Hmod. destruct k as [|j].
  - rewrite rne_0. change (Z.of_nat 0) with 0. rewrite Z.pow_0_r, Z.div_1_r. lia.
  - rewrite rne_S by lia. cbv zeta.
    assert (H2 : 0 < 2 ^ Z.of_nat j) by (apply Z.pow_pos_nonneg; lia).
    pose proof (mod_pow2_succ N (Z.of_nat j) ltac:(lia)) as Hm.
    replace (Z.of_nat j + 1) with (Z.of_nat (S j)) in Hm by lia.
    pose proof (Z.mod_pos_bound N (2 ^ Z.of_nat j) H2) as Hb.
    assert (Hq : N / 2 ^ Z.of_nat (S j) = N / 2 ^ Z.of_nat j / 2).
    { rewrite Z.div_div by lia. f_equal.
      rewrite Nat2Z.inj_succ, Z.pow_succ_r by lia. lia. }
    rewrite Hq.
    destruct (Z.odd _); [lia|reflexivity].
Qed.

Lemma rne_mono (N1 N2 : Z) (k : nat) :
  0 <= N1 -> N1 <= N2 -> rne N1 k <= rne N2 k.
Proof.
  intros H1 H12. destruct k as [|j]; [rewrite !rne_0; exact H12|].
  rewrite !rne_S by lia. cbv zeta.
  assert (H2 : 0 < 2 ^ Z.of_nat j) by (apply Z.pow_pos_nonneg; lia).
  set (P := 2 ^ Z.of_nat j) in *.
  pose proof (Z.div_le_mono N1 N2 P H2 H12) as Ha.
  pose proof (Z.div_mod N1 P ltac:(lia)) as E1.
  pose proof (Z.div_mod N2 P ltac:(lia)) as E2.
  pose proof (Z.mod_pos_bound N1 P H2) as B1.
  pose proof (Z.mod_pos_bound N2 P H2) as B2.
  pose proof (Z.div_mod (N1 / P) 2 ltac:(lia)) as D1.
  pose proof (Z.div_mod (N2 / P) 2 ltac:(lia)) as D2.
  rewrite Zmod_odd in D1, D2.
  destruct (Z.eq_dec (N1 / P) (N2 / P)) as [Heq|Hne].
  - rewrite <- Heq in *.
    destruct (Z.odd (N1 / P)); [|lia].
    destruct (Z.eqb_spec (N1 mod P) 0), (Z.eqb_spec (N2 mod P) 0); cbn [negb];
      destruct (Z.even (N1 / P / 2)); lia.
  - destruct (Z.odd (N1 / P)), (Z.odd (N2 / P)), (negb (N1 mod P =? 0)),
      (negb (N2 mod P =? 0)), (Z.even (N1 / P / 2)), (Z.even (N2 / P / 2)); lia.
Qed.


Lemma fexp_spec (e : Z) : fexp e = Z.max (e - 53) (-1074).
Proof. reflexivity. Qed.

Lemma shr_nonpos (mrs : shr_record) (e n : Z) : n <= 0 -> shr mrs e n = (mrs, e).
Proof. intros Hn. destruct n as [|p|p]; try reflexivity. lia. Qed.

Lemma rne_bound (M E : Z) :
  0 < M ->
  let t := fexp (Zdigits2 M + E) in
  E <= t ->
  0 <= rne M (Z.to_nat (t - E)) <= 2 ^ 53.
Proof.
  intros HM t Ht.
  pose proof (rne_floor M (Z.to_nat (t - E)) ltac:(lia)) as [Hlo Hhi].
  rewrite Z2Nat.id in * by lia.
  assert (Hp : 0 < 2 ^ (t - E)) by (apply Z.pow_pos_nonneg; lia).
  pose proof (Z.div_pos M (2 ^ (t - E)) ltac:(lia) Hp).
  split; [lia|].
  assert (M / 2 ^ (t - E) < 2 ^ 53); [|lia].
  apply Z.div_lt_upper_bound; [lia|].
  rewrite <- Z.pow_add_r by lia.
  pose proof (Zdigits2_bounds M HM) as [_ Hu].
  pose proof (Zdigits2_pos M HM) as Hd.
  eapply Z.lt_le_trans; [exact Hu|].
  apply Z.pow_le_mono_r; [lia|].
  unfold t. rewrite fexp_spec. lia.
Qed.

Lemma binary_round_aux_normal (s : bool) (M E : Z) :
  0 < M ->
  let t := fexp (Zdigits2 M + E) in
  E <= t ->
  binary_round_aux prec emax s M E loc_Exact =
  normal s (rne M (Z.to_nat (t - E))) t.
Proof.
  intros HM t Ht.
  pose proof (rne_bound M E HM Ht) as Hb. fold t in Hb.
  unfold binary_round_aux, shr_fexp. fold t.
  cbn [shr_record_of_loc].
  rewrite shr_shifted by lia.
  replace (E + (t - E)) with t by lia.
  change (round_nearest_even (shr_m (shifted M (Z.to_nat (t - E))))
            (loc_of_shr_record (shifted M (Z.to_nat (t - E)))))
    with (rne M (Z.to_nat (t - E))).
  set (m2 := rne M (Z.to_nat (t - E))) in *.
  assert (Htmin : -1074 <= t) by (unfold t; rewrite fexp_spec; lia).
  unfold normal.
  destruct (Z.eqb_spec m2 0) as [H0|H0].
  - rewrite H0. cbn [Zdigits2]. rewrite shr_nonpos by (rewrite fexp_spec; lia).
    reflexivity.
  - destruct (Z.ltb_spec m2 (2 ^ 53)) as [Hlt|Hge].
    + assert (Hd2 : Zdigits2 m2 <= 53).
      { pose proof (Zdigits2_bounds m2 ltac:(lia)) as [Hl _].
        destruct (Z_le_gt_dec (Zdigits2 m2) 53) as [|Hgt]; [assumption|].
        exfalso. assert (2 ^ 53 <= 2 ^ (Zdigits2 m2 - 1))
          by (apply Z.pow_le_mono_r; lia). lia. }
      rewrite shr_nonpos by (rewrite fexp_spec; lia).
      cbn [shr_m]. destruct m2 as [|p|p]; try lia. reflexivity.
    + assert (Hm2 : m2 = 2 ^ 53) by lia. rewrite Hm2.
      change (Zdigits2 (2 ^ 53)) with 54.
      replace (fexp (54 + t) - t) with 1 by (rewrite fexp_spec; lia).
      cbn [shr SpecFloat.iter_pos]. reflexivity.
Qed.

Lemma shifted_scale (N : Z) (k j : nat) :
  0 <= N -> shifted (N * 2 ^ Z.of_nat j) (k + j) = shifted N k.
Proof.
  intros HN.
  assert (Hj : 0 < 2 ^ Z.of_nat j) by (apply Z.pow_pos_nonneg; lia).
  destruct k as [|k'].
  - destruct j as [|j']; cbn [Nat.add shifted].
    + change (Z.of_nat 0) with 0. rewrite Z.pow_0_r, Z.mul_1_r. reflexivity.
    + assert (Hj' : 0 < 2 ^ Z.of_nat j') by (apply Z.pow_pos_nonneg; lia).
      assert (Hs : 2 ^ Z.of_nat (S j') = 2 * 2 ^ Z.of_nat j')
        by (rewrite Nat2Z.inj_succ, Z.pow_succ_r by lia; reflexivity).
      f_equal.
      * apply Z.div_mul. lia.
      * rewrite Hs. replace (N * (2 * 2 ^ Z.of_nat j')) with (N * 2 * 2 ^ Z.of_nat j') by lia.
        rewrite Z.div_mul by lia. rewrite Z.mul_comm, Z.odd_mul. reflexivity.
      * rewrite Hs. replace (N * (2 * 2 ^ Z.of_nat j')) with (N * 2 * 2 ^ Z.of_nat j') by lia.
        rewrite Z.mod_mul by lia. reflexivity.
  - cbn [Nat.add shifted].
    assert (Hk : 0 < 2 ^ Z.of_nat k') by (apply Z.pow_pos_nonneg; lia).
    assert (Hk1 : 0 < 2 ^ Z.of_nat (S k')) by (apply Z.pow_pos_nonneg; lia).
    f_equal.
    + replace (Z.of_nat (S (k' + j))) with (Z.of_nat (S k') + Z.of_nat j) by lia.
      rewrite Z.pow_add_r by lia. apply Z.div_mul_cancel_r; lia.
    + f_equal. rewrite Nat2Z.inj_add, Z.pow_add_r by lia.
      apply Z.div_mul_cancel_r; lia.
    + f_equal. rewrite Nat2Z.inj_add, Z.pow_add_r by lia.
      rewrite Z.mul_mod_distr_r by lia.
      destruct (Z.eqb_spec (N mod 2 ^ Z.of_nat k') 0) as [->|Hne].
      * reflexivity.
      * apply Z.eqb_neq. nia.
Qed.

Lemma rne_scale (N : Z) (k j : nat) :
  0 <= N -> rne (N * 2 ^ Z.of_nat j) (k + j) = rne N k.
Proof. intros HN. unfold rne. rewrite shifted_scale by lia. reflexivity. Qed.

Lemma iter_xO (m d : positive) : Zpos (Pos.iter xO m d) = Zpos m * 2 ^ Zpos d.
Proof.
  rewrite <- Z.shiftl_mul_pow2 by lia. cbn [Z.shiftl].
  apply (Pos.iter_swap_gen _ _ Zpos xO (Z.mul 2)). reflexivity.
Qed.

Lemma shl_align_spec (mx : positive) (ex ex' : Z) :
  snd (shl_align mx ex ex') = Z.min ex ex' /\
  Zpos (fst (shl_align mx ex ex')) = Zpos mx * 2 ^ (ex - Z.min ex ex').
Proof.
  unfold shl_align. destruct (ex' - ex) as [|d|d] eqn:Hd; cbn [fst snd].
  - replace (Z.min ex ex') with ex by lia. rewrite Z.sub_diag, Z.pow_0_r. lia.
  - replace (Z.min ex ex') with ex by lia. rewrite Z.sub_diag, Z.pow_0_r. lia.
  - replace (Z.min ex ex') with ex' by lia. split; [reflexivity|].
    rewrite iter_xO. f_equal. f_equal. lia.
Qed.

(** [binary_round], whatever the exponent the value is written at. *)
Lemma binary_round_normal (s : bool) (M : positive) (E E0 : Z) :
  E0 <= E -> E0 <= -1074 ->
  let t := fexp (Zpos (digits2_pos M) + E) in
  binary_round prec emax s M E =
  normal s (rne (Zpos M * 2 ^ (E - E0)) (Z.to_nat (t - E0))) t.
Proof.
  intros HE0 Hmin t. unfold binary_round. fold t.
  pose proof (shl_align_spec M E t) as [Hez Hmz].
  destruct (shl_align M E t) as [mz ez]. cbn [fst snd] in *.
  assert (Htmin : -1074 <= t) by (unfold t; rewrite fexp_spec; lia).
  assert (Hd : Zdigits2 (Zpos mz) + ez = Zpos (digits2_pos M) + E).
  { rewrite Hmz, Zdigits2_mul_pow2 by lia. cbn [Zdigits2]. lia. }
  pose proof (binary_round_aux_normal s (Zpos mz) ez eq_refl) as Hn.
  cbv zeta in Hn. rewrite Hd in Hn. fold t in Hn. rewrite Hn by lia.
  f_equal.
  replace (Zpos M * 2 ^ (E - E0))
    with (Zpos mz * 2 ^ Z.of_nat (Z.to_nat (ez - E0))).
  - replace (Z.to_nat (t - E0)) with (Z.to_nat (t - ez) + Z.to_nat (ez - E0))%nat
      by lia.
    apply eq_sym, rne_scale. lia.
  - rewrite Z2Nat.id by lia. rewrite Hmz, <- Z.mul_assoc, <- Z.pow_add_r by lia.
    f_equal. f_equal. lia.
Qed.


Lemma pow2_53 : 2 ^ 53 = 9007199254740992. Proof. reflexivity. Qed.
Lemma pow2_52 : 2 ^ 52 = 4503599627370496. Proof. reflexivity. Qed.

Lemma normal_mono_m (m m' t : Z) :
  0 <= m -> m <= m' -> m' <= 2 ^ 53 ->
  key_le (key (normal false m t)) (key (normal false m' t)).
Proof.
  intros H0 Hm Hm'. unfold normal. rewrite pow2_53, pow2_52 in *.
  destruct (Z.eqb_spec m 0), (Z.eqb_spec m' 0), (Z.ltb_spec m 9007199254740992),
    (Z.ltb_spec m' 9007199254740992), (Z.leb_spec t 971), (Z.leb_spec (t + 1) 971);
    cbn [key key_le]; rewrite ?Z2Pos.id by lia; lia.
Qed.

Lemma normal_mono_t (m m' t t' : Z) :
  t < t' -> 0 <= m -> m <= 2 ^ 53 -> 2 ^ 52 <= m' -> m' <= 2 ^ 53 ->
  key_le (key (normal false m t)) (key (normal false m' t')).
Proof.
  intros Ht H0 Hm Hlo Hhi. unfold normal. rewrite pow2_53, pow2_52 in *.
  destruct (Z.eqb_spec m 0), (Z.eqb_spec m' 0), (Z.ltb_spec m 9007199254740992),
    (Z.ltb_spec m' 9007199254740992), (Z.leb_spec t 971), (Z.leb_spec (t + 1) 971),
    (Z.leb_spec t' 971), (Z.leb_spec (t' + 1) 971);
    cbn [key key_le]; rewrite ?Z2Pos.id by lia; lia.
Qed.

Lemma normal_nonneg (m t : Z) :
  0 <= m -> key_le (0, 0, 0) (key (normal false m t)).
Proof.
  intros H0. unfold normal.
  destruct (m =? 0), (m <? 2 ^ 53), (t <=? 971), (t + 1 <=? 971); cbn; lia.
Qed.

(** Rounding is monotone: of two positive values, the larger one rounds to
    the larger float. *)
Theorem binary_round_mono (M1 M2 : positive) (E1 E2 E0 : Z) :
  E0 <= E1 -> E0 <= E2 -> E0 <= -1074 ->
  Zpos M1 * 2 ^ (E1 - E0) <= Zpos M2 * 2 ^ (E2 - E0) ->
  key_le (key (binary_round prec emax false M1 E1))
         (key (binary_round prec emax false M2 E2)).
Proof.
  intros H1 H2 Hmin Hle.
  rewrite (binary_round_normal false M1 E1 E0 H1 Hmin).
  rewrite (binary_round_normal false M2 E2 E0 H2 Hmin). cbv zeta.
  set (N1 := Zpos M1 * 2 ^ (E1 - E0)) in *.
  set (N2 := Zpos M2 * 2 ^ (E2 - E0)) in *.
  assert (HN1 : 0 < N1) by (unfold N1; pose proof (Z.pow_pos_nonneg 2 (E1 - E0)); nia).
  assert (HN2 : 0 < N2) by lia.
  assert (HD1 : Zdigits2 N1 + E0 = Zpos (digits2_pos M1) + E1).
  { unfold N1. rewrite Zdigits2_mul_pow2 by lia. cbn [Zdigits2]. lia. }
  assert (HD2 : Zdigits2 N2 + E0 = Zpos (digits2_pos M2) + E2).
  { unfold N2. rewrite Zdigits2_mul_pow2 by lia. cbn [Zdigits2]. lia. }
  rewrite <- HD1, <- HD2.
  pose proof (Zdigits2_le N1 N2 HN1 Hle) as HD.
  set (t1 := fexp (Zdigits2 N1 + E0)). set (t2 := fexp (Zdigits2 N2 + E0)).
  assert (Ht1 : -1074 <= t1) by (unfold t1; rewrite fexp_spec; lia).
  assert (Ht12 : t1 <= t2) by (unfold t1, t2; rewrite !fexp_spec; lia).
  pose proof (rne_bound N1 E0 HN1) as Hb1. cbv zeta in Hb1. fold t1 in Hb1.
  pose proof (rne_bound N2 E0 HN2) as Hb2. cbv zeta in Hb2. fold t2 in Hb2.
  specialize (Hb1 ltac:(lia)). specialize (Hb2 ltac:(lia)).
  destruct (Z.eq_dec t1 t2) as [Heq|Hne].
  - rewrite <- Heq in *. apply normal_mono_m; try lia.
    apply rne_mono; lia.
  - apply normal_mono_t; try lia.
    pose proof (rne_floor N2 (Z.to_nat (t2 - E0)) ltac:(lia)) as [Hfl _].
    rewrite Z2Nat.id in Hfl by lia.
    assert (Ht2 : t2 = Zdigits2 N2 + E0 - 53) by (unfold t2 in *; rewrite fexp_spec in *; lia).
    assert (2 ^ 52 <= N2 / 2 ^ (t2 - E0)); [|lia].
    apply Z.div_le_lower_bound; [apply Z.pow_pos_nonneg; lia|].
    rewrite <- Z.pow_add_r by lia.
    pose proof (Zdigits2_bounds N2 HN2) as [Hlo _].
    replace (t2 - E0 + 52) with (Zdigits2 N2 - 1) by lia. exact Hlo.
Qed.

Lemma key_SFopp (x : spec_float) : key (SFopp x) = kneg (key x).
Proof.
  destruct x as [[]|[]| |[] m e]; cbn; rewrite ?Z.opp_involutive; reflexivity.
Qed.

Lemma key_le_kneg (a b : Z * Z * Z) : key_le a b -> key_le (kneg b) (kneg a).
Proof. destruct a as [[c1 e1] m1], b as [[c2 e2] m2]. cbn. lia. Qed.

Lemma normal_SFopp (s : bool) (m t : Z) :
  normal (negb s) m t = SFopp (normal s m t).
Proof.
  unfold normal.
  destruct (m =? 0), (m <? 2 ^ 53), (t <=? 971), (t + 1 <=? 971); reflexivity.
Qed.

Lemma binary_round_true (M : positive) (E : Z) :
  binary_round prec emax true M E = SFopp (binary_round prec emax false M E).
Proof.
  rewrite (binary_round_normal true M E (Z.min E (-1074))) by lia.
  rewrite (binary_round_normal false M E (Z.min E (-1074))) by lia.
  cbv zeta. apply (normal_SFopp false).
Qed.

Lemma binary_round_nonneg (M : positive) (E : Z) :
  key_le (0, 0, 0) (key (binary_round prec emax false M E)).
Proof.
  rewrite (binary_round_normal false M E (Z.min E (-1074))) by lia. cbv zeta.
  apply normal_nonneg.
  pose proof (rne_floor (Zpos M * 2 ^ (E - Z.min E (-1074)))
    (Z.to_nat (fexp (Zpos (digits2_pos M) + E) - Z.min E (-1074)))) as H.
  assert (H0 : 0 <= Zpos M * 2 ^ (E - Z.min E (-1074)))
    by (pose proof (Z.pow_pos_nonneg 2 (E - Z.min E (-1074))); nia).
  specialize (H H0).
  pose proof (Z.div_pos (Zpos M * 2 ^ (E - Z.min E (-1074)))
    (2 ^ Z.of_nat (Z.to_nat (fexp (Zpos (digits2_pos M) + E) - Z.min E (-1074))))
    H0 ltac:(apply Z.pow_pos_nonneg; lia)). lia.
Qed.

Theorem RN_mono (g v1 v2 : Z) :
  g <= -1074 -> v1 <= v2 -> key_le (key (RN g v1)) (key (RN g v2)).
Proof.
  intros Hg Hv. unfold RN, binary_normalize.
  destruct v1 as [|p1|p1], v2 as [|p2|p2]; try lia;
    rewrite ?binary_round_true, ?key_SFopp.
  - cbn. lia.
  - apply binary_round_nonneg.
  - apply (binary_round_mono p1 p2 g g g); try lia.
    rewrite Z.sub_diag, Z.pow_0_r. lia.
  - apply (key_le_kneg (0, 0, 0)), binary_round_nonneg.
  - pose proof (binary_round_nonneg p1 g) as H1.
    pose proof (binary_round_nonneg p2 g) as H2.
    destruct (key (binary_round prec emax false p1 g)) as [[c1 e1] m1],
      (key (binary_round prec emax false p2 g)) as [[c2 e2] m2]. cbn in *. lia.
  - apply key_le_kneg. apply (binary_round_mono p2 p1 g g g); try lia.
    rewrite Z.sub_diag, Z.pow_0_r. lia.
Qed.

(** The same value written at a smaller exponent rounds to the same float. *)
Lemma binary_normalize_rescale (z e g : Z) (sz : bool) :
  g <= e -> g <= -1074 ->
  binary_normalize prec emax z e sz = binary_normalize prec emax (z * 2 ^ (e - g)) g sz.
Proof.
  intros Hge Hg.
  assert (Hp : 0 < 2 ^ (e - g)) by (apply Z.pow_pos_nonneg; lia).
  assert (Hround : forall s (p : positive),
    binary_round prec emax s p e =
    binary_round prec emax s (Z.to_pos (Zpos p * 2 ^ (e - g))) g).
  { intros s p.
    rewrite (binary_round_normal s p e g Hge Hg).
    rewrite (binary_round_normal s _ g g (Z.le_refl g) Hg). cbv zeta.
    assert (Hd : Zpos (digits2_pos (Z.to_pos (Zpos p * 2 ^ (e - g)))) + g
                 = Zpos (digits2_pos p) + e).
    { change (Zpos (digits2_pos (Z.to_pos (Zpos p * 2 ^ (e - g)))))
        with (Zdigits2 (Zpos (Z.to_pos (Zpos p * 2 ^ (e - g))))).
      rewrite Z2Pos.id by nia. rewrite Zdigits2_mul_pow2 by lia. cbn [Zdigits2]. lia. }
    rewrite Hd, Z.sub_diag, Z.pow_0_r, Z.mul_1_r, Z2Pos.id by nia. reflexivity. }
  unfold binary_normalize. destruct z as [|p|p].
  - reflexivity.
  - rewrite Hround. destruct (Zpos p * 2 ^ (e - g)) eqn:E; try nia.
    rewrite <- E at 1. rewrite E. reflexivity.
  - rewrite Hround.
    assert (E : Zneg p * 2 ^ (e - g) = - (Zpos p * 2 ^ (e - g))) by lia.
    rewrite E. destruct (Zpos p * 2 ^ (e - g)) eqn:E'; try nia. reflexivity.
Qed.


Lemma valid_finite (s : bool) (m : positive) (e : Z) :
  valid_binary (S754_finite s m e) = true ->
  e = fexp (Zpos (digits2_pos m) + e) /\ e <= 971.
Proof.
  cbn. unfold bounded, canonical_mantissa. intros H.
  apply andb_true_iff in H as [H1 H2].
  apply Z.eqb_eq in H1. apply Z.leb_le in H2. split; [symmetry; exact H1|exact H2].
Qed.

Lemma valid_bounds (s : bool) (m : positive) (e : Z) :
  valid_binary (S754_finite s m e) = true ->
  -1074 <= e <= 971 /\ Zpos m < 2 ^ 53 /\ (-1074 < e -> 2 ^ 52 <= Zpos m).
Proof.
  intros H. apply valid_finite in H as [Hc He]. rewrite fexp_spec in Hc.
  pose proof (digits_bounds m) as [Hlo Hhi].
  split; [lia|]. split.
  - eapply Z.lt_le_trans; [exact Hhi|]. apply Z.pow_le_mono_r; lia.
  - intros Hn. eapply Z.le_trans; [|exact Hlo]. apply Z.pow_le_mono_r; lia.
Qed.

(** A valid float is the rounding of its own value. *)
Lemma RN_exact (g : Z) (x : spec_float) :
  g <= -1074 -> valid_binary x = true -> finite_or_zero x = true ->
  key (RN g (sval g x)) = key x.
Proof.
  intros Hg Hv Hf. destruct x as [s| | |s m e]; try discriminate; [reflexivity|].
  pose proof (valid_finite s m e Hv) as [Hc He].
  pose proof (valid_bounds s m e Hv) as (Hb & Hm & _).
  unfold RN, sval. rewrite <- binary_normalize_rescale by lia.
  assert (Hr : binary_round prec emax s m e = S754_finite s m e).
  { rewrite (binary_round_normal s m e g) by lia. cbv zeta. rewrite <- Hc.
    replace (Zpos m * 2 ^ (e - g)) with (Zpos m * 2 ^ Z.of_nat (Z.to_nat (e - g)))
      by (rewrite Z2Nat.id by lia; reflexivity).
    pose proof (rne_scale (Zpos m) 0 (Z.to_nat (e - g)) ltac:(lia)) as Hs.
    cbn [Nat.add] in Hs. rewrite Hs, rne_0. unfold normal.
    destruct (Z.eqb_spec (Zpos m) 0); [lia|].
    destruct (Z.ltb_spec (Zpos m) (2 ^ 53)); [|lia].
    destruct (Z.leb_spec e 971); [|lia]. reflexivity. }
  destruct s; cbn [cond_Zopp]; [change (- Zpos m) with (Zneg m)|];
    cbn [binary_normalize]; rewrite Hr; reflexivity.
Qed.

(** On valid floats the order of the keys is the order of the values. *)
Lemma sval_mono (g : Z) (x y : spec_float) :
  g <= -1074 -> valid_binary x = true -> valid_binary y = true ->
  finite_or_zero x = true -> finite_or_zero y = true ->
  key_le (key x) (key y) -> sval g x <= sval g y.
Proof.
  intros Hg Hvx Hvy Hfx Hfy Hk.
  destruct x as [sx| | |sx mx ex]; try discriminate;
  destruct y as [sy| | |sy my ey]; try discriminate; cbn [sval].
  - pose proof (Z.pow_pos_nonneg 2 (ey - g)).
    pose proof (valid_bounds sy my ey Hvy) as (? & _).
    destruct sy; cbn in Hk |- *; try lia; nia.
  - pose proof (valid_bounds sx mx ex Hvx) as (? & _).
    pose proof (Z.pow_pos_nonneg 2 (ex - g)).
    destruct sx; cbn in Hk |- *; try lia; nia.
  - pose proof (valid_bounds sx mx ex Hvx) as (Hbx & Hmx & Hnx).
    pose proof (valid_bounds sy my ey Hvy) as (Hby & Hmy & Hny).
    assert (HA : 0 < 2 ^ (ex - g)) by (apply Z.pow_pos_nonneg; lia).
    assert (HB : 0 < 2 ^ (ey - g)) by (apply Z.pow_pos_nonneg; lia).
    rewrite pow2_53, pow2_52 in *.
    destruct sx, sy; cbn in Hk |- *; try lia; try nia.
    + (* both negative: -ex < -ey or equal with -mx <= -my *)
      destruct (Z.eq_dec ex ey) as [->|Hne]; [nia|].
      assert (Hlt : ey < ex) by lia.
      assert (Hp : 2 * 2 ^ (ey - g) <= 2 ^ (ex - g)).
      { rewrite <- Z.pow_succ_r by lia. apply Z.pow_le_mono_r; lia. }
      specialize (Hnx ltac:(lia)). nia.
    + destruct (Z.eq_dec ex ey) as [->|Hne]; [nia|].
      assert (Hlt : ex < ey) by lia.
      assert (Hp : 2 * 2 ^ (ex - g) <= 2 ^ (ey - g)).
      { rewrite <- Z.pow_succ_r by lia. apply Z.pow_le_mono_r; lia. }
      specialize (Hny ltac:(lia)). nia.
Qed.

Lemma binary_round_aux_aligned (s : bool) (M : positive) (E : Z) :
  E <= fexp (Zpos (digits2_pos M) + E) ->
  binary_round_aux prec emax s (Zpos M) E loc_Exact = binary_round prec emax s M E.
Proof.
  intros H. unfold binary_round, shl_align.
  destruct (fexp (Zpos (digits2_pos M) + E) - E) eqn:Hd; try reflexivity. lia.
Qed.

Lemma digits_mul (mx my : positive) :
  Zpos (digits2_pos mx) + Zpos (digits2_pos my) - 1 <= Zpos (digits2_pos (mx * my)).
Proof.
  pose proof (digits_bounds mx) as [Hx _]. pose proof (digits_bounds my) as [Hy _].
  set (dx := Zpos (digits2_pos mx)) in *. set (dy := Zpos (digits2_pos my)) in *.
  assert (Hdx : 0 < dx) by (unfold dx; lia). assert (Hdy : 0 < dy) by (unfold dy; lia).
  assert (Hp : 2 ^ (dx + dy - 2) <= Zpos (mx * my)).
  { replace (dx + dy - 2) with ((dx - 1) + (dy - 1)) by lia.
    rewrite Z.pow_add_r by lia. rewrite Pos2Z.inj_mul.
    apply Z.mul_le_mono_nonneg; try assumption; apply Z.pow_nonneg; lia. }
  change (Zpos (digits2_pos (mx * my))) with (Zdigits2 (Zpos (mx * my))).
  rewrite <- (Zdigits2_unique (2 ^ (dx + dy - 2)) (dx + dy - 1)).
  - apply Zdigits2_le; [apply Z.pow_pos_nonneg; lia|exact Hp].
  - replace (dx + dy - 1 - 1) with (dx + dy - 2) by lia. split; [lia|].
    apply Z.pow_lt_mono_r; lia.
  - lia.
Qed.

Lemma mul_aligned (sx sy : bool) (mx my : positive) (ex ey : Z) :
  valid_binary (S754_finite sx mx ex) = true ->
  valid_binary (S754_finite sy my ey) = true ->
  ex + ey <= fexp (Zpos (digits2_pos (mx * my)) + (ex + ey)).
Proof.
  intros Hx Hy. apply valid_finite in Hx as [Hx _]. apply valid_finite in Hy as [Hy _].
  pose proof (digits_mul mx my). rewrite fexp_spec in *.
  assert (0 < Zpos (digits2_pos mx)) by lia. assert (0 < Zpos (digits2_pos my)) by lia.
  lia.
Qed.

Lemma cond_Zopp_mul (sx sy : bool) (a b : Z) :
  cond_Zopp (xorb sx sy) (a * b) = cond_Zopp sx a * cond_Zopp sy b.
Proof. destruct sx, sy; cbn; lia. Qed.

Lemma binary_normalize_cond (s : bool) (M : positive) (E : Z) (sz : bool) :
  binary_normalize prec emax (cond_Zopp s (Zpos M)) E sz = binary_round prec emax s M E.
Proof. destruct s; reflexivity. Qed.

Lemma SFmul_key (g : Z) (x y : spec_float) :
  g <= -1074 -> valid_binary x = true -> valid_binary y = true ->
  finite_or_zero x = true -> finite_or_zero y = true ->
  key (SFmul prec emax x y) = key (RN (2 * g) (sval g x * sval g y)).
Proof.
  intros Hg Hvx Hvy Hfx Hfy.
  destruct x as [sx| | |sx mx ex]; try discriminate;
  destruct y as [sy| | |sy my ey]; try discriminate; cbn [SFmul sval];
    rewrite ?Z.mul_0_l, ?Z.mul_0_r; try reflexivity.
  pose proof (valid_bounds sx mx ex Hvx) as (Hbx & _).
  pose proof (valid_bounds sy my ey Hvy) as (Hby & _).
  rewrite binary_round_aux_aligned by (apply (mul_aligned sx sy); assumption).
  rewrite <- (binary_normalize_cond _ _ _ false).
  rewrite (binary_normalize_rescale _ (ex + ey) (2 * g)) by lia.
  unfold RN. f_equal. f_equal.
  rewrite Pos2Z.inj_mul, cond_Zopp_mul.
  replace (ex + ey - 2 * g) with ((ex - g) + (ey - g)) by lia.
  rewrite Z.pow_add_r by lia. ring.
Qed.

Lemma shl_align_le (m : positive) (e ez : Z) :
  ez <= e -> Zpos (fst (shl_align m e ez)) = Zpos m * 2 ^ (e - ez).
Proof.
  intros H. pose proof (shl_align_spec m e ez) as [_ Hm].
  replace (Z.min e ez) with ez in Hm by lia. exact Hm.
Qed.

Lemma SFadd_key (g : Z) (x y : spec_float) :
  g <= -1074 -> valid_binary x = true -> valid_binary y = true ->
  finite_or_zero x = true -> finite_or_zero y = true ->
  key (SFadd prec emax x y) = key (RN g (sval g x + sval g y)).
Proof.
  intros Hg Hvx Hvy Hfx Hfy.
  destruct x as [sx| | |sx mx ex] eqn:Ex; try discriminate;
  destruct y as [sy| | |sy my ey] eqn:Ey; try discriminate.
  - destruct sx, sy; reflexivity.
  - rewrite <- Ey in *. replace (SFadd prec emax (S754_zero sx) y) with y
      by (rewrite Ey; reflexivity).
    cbn [sval]. rewrite Z.add_0_l. symmetry. apply RN_exact; assumption.
  - rewrite <- Ex in *. replace (SFadd prec emax x (S754_zero sy)) with x
      by (rewrite Ex; reflexivity).
    cbn [sval]. rewrite Z.add_0_r. symmetry. apply RN_exact; assumption.
  - pose proof (valid_bounds sx mx ex Hvx) as (Hbx & _).
    pose proof (valid_bounds sy my ey Hvy) as (Hby & _).
    cbn [SFadd sval].
    rewrite !shl_align_le by lia.
    rewrite (binary_normalize_rescale _ (Z.min ex ey) g) by lia.
    unfold RN. f_equal. f_equal.
    rewrite Z.mul_add_distr_r.
    assert (Hc : forall s a b, cond_Zopp s a * b = cond_Zopp s (a * b))
      by (intros [] a b; cbn; lia).
    rewrite <- !Hc, <- !Z.mul_assoc, <- !Z.pow_add_r by lia.
    f_equal; f_equal; f_equal; lia.
Qed.

Lemma SFsub_key (g : Z) (x y : spec_float) :
  g <= -1074 -> valid_binary x = true -> valid_binary y = true ->
  finite_or_zero x = true -> finite_or_zero y = true ->
  key (SFsub prec emax x y) = key (RN g (sval g x - sval g y)).
Proof.
  intros Hg Hvx Hvy Hfx Hfy.
  destruct x as [sx| | |sx mx ex] eqn:Ex; try discriminate;
  destruct y as [sy| | |sy my ey] eqn:Ey; try discriminate.
  - destruct sx, sy; reflexivity.
  - cbn [SFsub sval]. rewrite Z.sub_0_l.
    rewrite <- (RN_exact g (S754_finite (negb sy) my ey)) by assumption.
    f_equal. f_equal. cbn [sval]. destruct sy; cbn; lia.
  - rewrite <- Ex in *. replace (SFsub prec emax x (S754_zero sy)) with x
      by (rewrite Ex; reflexivity).
    cbn [sval]. rewrite Z.sub_0_r. symmetry. apply RN_exact; assumption.
  - pose proof (valid_bounds sx mx ex Hvx) as (Hbx & _).
    pose proof (valid_bounds sy my ey Hvy) as (Hby & _).
    cbn [SFsub sval].
    rewrite !shl_align_le by lia.
    rewrite (binary_normalize_rescale _ (Z.min ex ey) g) by lia.
    unfold RN. f_equal. f_equal.
    rewrite Z.mul_sub_distr_r.
    assert (Hc : forall s a b, cond_Zopp s a * b = cond_Zopp s (a * b))
      by (intros [] a b; cbn; lia).
    rewrite <- !Hc, <- !Z.mul_assoc, <- !Z.pow_add_r by lia.
    f_equal; f_equal; f_equal; lia.
Qed.


Lemma key_bounds (x : spec_float) :
  key_le (-2, 0, 0) (key x) /\ key_le (key x) (2, 0, 0).
Proof. destruct x as [s|[]| |[] m e]; cbn; lia. Qed.

Lemma key_top (x : spec_float) :
  not_nan x -> key_le (2, 0, 0) (key x) -> x = S754_infinity false.
Proof.
  intros Hn. destruct x as [s|[]| |[] m e]; cbn; try lia; reflexivity.
Qed.

Lemma key_bottom (x : spec_float) :
  not_nan x -> key_le (key x) (-2, 0, 0) -> x = S754_infinity true.
Proof.
  intros Hn. destruct x as [s|[]| |[] m e]; cbn; try lia; reflexivity.
Qed.

Lemma finite_or_infinite (x : spec_float) :
  not_nan x -> finite_or_zero x = true \/ exists s, x = S754_infinity s.
Proof.
  intros Hn. destruct x as [s|s| |s m e]; [left|right; exists s|contradiction Hn|left];
    reflexivity.
Qed.

Lemma sval_positive (g : Z) (c : spec_float) :
  g <= -1074 -> valid_binary c = true -> positive_finite c = true -> 0 < sval g c.
Proof.
  intros Hg Hv. destruct c as [s|s| |[] m e]; try discriminate. intros _. cbn.
  pose proof (valid_bounds false m e Hv) as (Hb & _).
  pose proof (Z.pow_pos_nonneg 2 (e - g) ltac:(lia) ltac:(lia)). nia.
Qed.

Lemma SFmul_not_nan (x c : spec_float) :
  not_nan x -> positive_finite c = true -> not_nan (SFmul prec emax x c).
Proof.
  intros Hx Hc. destruct c as [s|s| |[] mc ec]; try discriminate.
  destruct x as [sx|sx| |sx mx ex]; cbn; try discriminate;
    [contradiction Hx; reflexivity|].
  apply binary_round_aux_not_nan. lia.
Qed.

(** Multiplying by a positive finite number is monotone. *)
Lemma SFmul_mono (c x y : spec_float) :
  valid_binary c = true -> positive_finite c = true ->
  valid_binary x = true -> valid_binary y = true ->
  not_nan x -> not_nan y ->
  key_le (key x) (key y) ->
  key_le (key (SFmul prec emax x c)) (key (SFmul prec emax y c)).
Proof.
  intros Hvc Hc Hvx Hvy Hx Hy Hk.
  assert (Hfc : finite_or_zero c = true)
    by (destruct c as [s|s| |[] mc ec]; try discriminate; reflexivity).
  destruct (finite_or_infinite x Hx) as [Hfx|[sx ->]];
  destruct (finite_or_infinite y Hy) as [Hfy|[sy ->]].
  - rewrite (SFmul_key (-1074)), (SFmul_key (-1074) y) by (assumption || lia).
    apply RN_mono; [lia|].
    pose proof (sval_mono (-1074) x y ltac:(lia) Hvx Hvy Hfx Hfy Hk).
    pose proof (sval_positive (-1074) c ltac:(lia) Hvc Hc). nia.
  - destruct sy.
    + apply key_bottom in Hk; [subst x; discriminate|exact Hx].
    + destruct c as [s|s| |[] mc ec]; try discriminate. cbn [SFmul xorb].
      apply key_bounds.
  - destruct sx.
    + destruct c as [s|s| |[] mc ec]; try discriminate. cbn [SFmul xorb].
      apply key_bounds.
    + apply key_top in Hk; [subst y; discriminate|exact Hy].
  - destruct c as [s|s| |[] mc ec]; try discriminate.
    destruct sx, sy; cbn in Hk |- *; lia.
Qed.

Lemma SFadd_not_nan (x c : spec_float) :
  not_nan x -> finite_or_zero c = true -> not_nan (SFadd prec emax c x).
Proof.
  intros Hx Hc. destruct c as [sc|sc| |sc mc ec]; try discriminate;
  destruct x as [sx|sx| |sx mx ex]; cbn; try discriminate;
    try (contradiction Hx; reflexivity).
  - destruct sx, sc; discriminate.
  - apply binary_normalize_not_nan.
Qed.

(** Adding a finite number is monotone. *)
Lemma SFadd_mono (c x y : spec_float) :
  valid_binary c = true -> finite_or_zero c = true ->
  valid_binary x = true -> valid_binary y = true ->
  not_nan x -> not_nan y ->
  key_le (key x) (key y) ->
  key_le (key (SFadd prec emax c x)) (key (SFadd prec emax c y)).
Proof.
  intros Hvc Hfc Hvx Hvy Hx Hy Hk.
  destruct (finite_or_infinite x Hx) as [Hfx|[sx ->]];
  destruct (finite_or_infinite y Hy) as [Hfy|[sy ->]].
  - rewrite (SFadd_key (-1074)), (SFadd_key (-1074) c y) by (assumption || lia).
    apply RN_mono; [lia|].
    pose proof (sval_mono (-1074) x y ltac:(lia) Hvx Hvy Hfx Hfy Hk). lia.
  - destruct sy.
    + apply key_bottom in Hk; [subst x; discriminate|exact Hx].
    + destruct c as [sc|sc| |sc mc ec]; try discriminate; cbn [SFadd];
        apply key_bounds.
  - destruct sx.
    + destruct c as [sc|sc| |sc mc ec]; try discriminate; cbn [SFadd];
        apply key_bounds.
    + apply key_top in Hk; [subst y; discriminate|exact Hy].
  - destruct c as [sc|sc| |sc mc ec]; try discriminate;
    destruct sx, sy; cbn in Hk |- *; lia.
Qed.

Lemma SFsub_not_nan (b p : spec_float) :
  finite_or_zero b = true -> not_nan p -> not_nan (SFsub prec emax b p).
Proof.
  intros Hb Hp. destruct b as [sb|sb| |sb mb eb]; try discriminate;
  destruct p as [sp|sp| |sp mp ep]; cbn; try discriminate;
    try (contradiction Hp; reflexivity).
  - destruct sb, sp; discriminate.
  - apply binary_normalize_not_nan.
Qed.

(** Subtracting from a finite number is antitone. *)
Lemma SFsub_antitone (b p1 p2 : spec_float) :
  valid_binary b = true -> finite_or_zero b = true ->
  valid_binary p1 = true -> valid_binary p2 = true ->
  not_nan p1 -> not_nan p2 ->
  key_le (key p1) (key p2) ->
  key_le (key (SFsub prec emax b p2)) (key (SFsub prec emax b p1)).
Proof.
  intros Hvb Hfb Hv1 Hv2 H1 H2 Hk.
  destruct (finite_or_infinite p1 H1) as [Hf1|[s1 ->]];
  destruct (finite_or_infinite p2 H2) as [Hf2|[s2 ->]].
  - rewrite (SFsub_key (-1074)), (SFsub_key (-1074) b p1) by (assumption || lia).
    apply RN_mono; [lia|].
    pose proof (sval_mono (-1074) p1 p2 ltac:(lia) Hv1 Hv2 Hf1 Hf2 Hk). lia.
  - destruct s2.
    + apply key_bottom in Hk; [subst p1; discriminate|exact H1].
    + destruct b as [sb|sb| |sb mb eb]; try discriminate; cbn [SFsub negb];
        apply key_bounds.
  - destruct s1.
    + destruct b as [sb|sb| |sb mb eb]; try discriminate; cbn [SFsub negb];
        apply key_bounds.
    + apply key_top in Hk; [subst p2; discriminate|exact H2].
  - destruct b as [sb|sb| |sb mb eb]; try discriminate;
    destruct s1, s2; cbn in Hk |- *; lia.
Qed.


Lemma leb_keys (x y : float) :
  (x <=? y)%float = true ->
  not_nan (Prim2SF x) /\ not_nan (Prim2SF y) /\ key_le (fkey x) (fkey y).
Proof.
  intros H. destruct (leb_not_nan x y H) as [Hx Hy].
  split; [apply not_nan_spec, Hx|]. split; [apply not_nan_spec, Hy|].
  apply (leb_key x y Hx Hy), H.
Qed.

Lemma keys_leb (x y : float) :
  not_nan (Prim2SF x) -> not_nan (Prim2SF y) -> key_le (fkey x) (fkey y) ->
  (x <=? y)%float = true.
Proof.
  intros Hx Hy Hk. apply leb_key; [apply not_nan_spec, Hx|apply not_nan_spec, Hy|exact Hk].
Qed.

Lemma SFmul_comm (x y : spec_float) : SFmul prec emax x y = SFmul prec emax y x.
Proof.
  destruct x as [sx|sx| |sx mx ex], y as [sy|sy| |sy my ey]; cbn;
    rewrite ?(xorb_comm sx sy); try reflexivity.
  rewrite Pos.mul_comm, Z.add_comm. reflexivity.
Qed.

Lemma mul_comm (x y : float) : (x * y)%float = (y * x)%float.
Proof.
  apply Prim2SF_inj. rewrite !mul_spec. apply SFmul_comm.
Qed.

Lemma digits_53 (m : Z) : 2 ^ 52 <= m < 2 ^ 53 -> Zdigits2 m = 53.
Proof. intros H. apply Zdigits2_unique; [exact H|lia]. Qed.

Lemma digits_le_53 (m : Z) : 0 < m < 2 ^ 53 -> Zdigits2 m <= 53.
Proof.
  intros H. pose proof (Zdigits2_bounds m ltac:(lia)) as [Hl _].
  destruct (Z_le_gt_dec (Zdigits2 m) 53) as [|Hgt]; [assumption|].
  exfalso. assert (2 ^ 53 <= 2 ^ (Zdigits2 m - 1)) by (apply Z.pow_le_mono_r; lia). lia.
Qed.

Lemma normal_valid (s : bool) (N E0 : Z) :
  0 < N -> E0 <= -1074 ->
  let t := fexp (Zdigits2 N + E0) in
  valid_binary (normal s (rne N (Z.to_nat (t - E0))) t) = true.
Proof.
  intros HN HE0 t.
  assert (Ht : -1074 <= t) by (unfold t; rewrite fexp_spec; lia).
  pose proof (rne_bound N E0 HN) as Hb. cbv zeta in Hb. fold t in Hb.
  specialize (Hb ltac:(lia)).
  pose proof (rne_floor N (Z.to_nat (t - E0)) ltac:(lia)) as [Hfl _].
  rewrite Z2Nat.id in Hfl by lia.
  set (m := rne N (Z.to_nat (t - E0))) in *.
  unfold normal.
  destruct (Z.eqb_spec m 0) as [H0|H0]; [reflexivity|].
  destruct (Z.ltb_spec m (2 ^ 53)) as [Hlt|Hge].
  - destruct (Z.leb_spec t 971) as [Hle|Hgt]; [|reflexivity].
    cbn [valid_binary]. unfold bounded, canonical_mantissa.
    apply andb_true_iff. split; [|apply Z.leb_le; exact Hle].
    apply Z.eqb_eq.
    change (Zpos (digits2_pos (Z.to_pos m))) with (Zdigits2 (Zpos (Z.to_pos m))).
    rewrite Z2Pos.id by lia. rewrite fexp_spec.
    pose proof (digits_le_53 m ltac:(lia)) as Hd.
    destruct (Z.eq_dec t (-1074)) as [Heq|Hne]; [lia|].
    assert (Ht2 : t = Zdigits2 N + E0 - 53) by (unfold t in *; rewrite fexp_spec in *; lia).
    assert (H52 : 2 ^ 52 <= N / 2 ^ (t - E0)).
    { apply Z.div_le_lower_bound; [apply Z.pow_pos_nonneg; lia|].
      rewrite <- Z.pow_add_r by lia.
      pose proof (Zdigits2_bounds N HN) as [Hlo _].
      replace (t - E0 + 52) with (Zdigits2 N - 1) by lia. exact Hlo. }
    rewrite (digits_53 m) by lia. lia.
  - destruct (Z.leb_spec (t + 1) 971) as [Hle|Hgt]; [|reflexivity].
    cbn [valid_binary]. unfold bounded, canonical_mantissa.
    apply andb_true_iff. split; [|apply Z.leb_le; exact Hle].
    apply Z.eqb_eq. change (Zpos (digits2_pos (Z.to_pos (2 ^ 52)))) with 53.
    rewrite fexp_spec. lia.
Qed.

Lemma binary_round_valid (s : bool) (M : positive) (E : Z) :
  valid_binary (binary_round prec emax s M E) = true.
Proof.
  set (E0 := Z.min E (-1074)).
  rewrite (binary_round_normal s M E E0) by (unfold E0; lia). cbv zeta.
  assert (Hp : 0 < 2 ^ (E - E0)) by (apply Z.pow_pos_nonneg; unfold E0; lia).
  pose proof (normal_valid s (Zpos M * 2 ^ (E - E0)) E0 ltac:(nia) ltac:(unfold E0; lia))
    as H. cbv zeta in H.
  rewrite Zdigits2_mul_pow2 in H by (unfold E0; lia). cbn [Zdigits2] in H.
  replace (Zpos (digits2_pos M) + (E - E0) + E0) with (Zpos (digits2_pos M) + E) in H by lia.
  exact H.
Qed.

Lemma binary_normalize_valid (z e : Z) (sz : bool) :
  valid_binary (binary_normalize prec emax z e sz) = true.
Proof. destruct z; cbn [binary_normalize]; [reflexivity| |]; apply binary_round_valid. Qed.

Lemma SFfloor_valid (x : spec_float) :
  valid_binary x = true -> valid_binary (SFfloor x) = true.
Proof.
  intros Hv. destruct x as [s|s| |s m e]; try exact Hv. cbn [SFfloor].
  destruct (0 <=? e); [exact Hv|]. cbv zeta.
  match goal with |- valid_binary (match ?z with _ => _ end) = true => destruct z end;
    [reflexivity| |]; apply binary_normalize_valid.
Qed.

Lemma SFfloor_not_nan (x : spec_float) : not_nan x -> not_nan (SFfloor x).
Proof.
  intros Hn. destruct x as [s|s| |s m e]; try exact Hn. cbn [SFfloor].
  destruct (0 <=? e); [exact Hn|]. cbv zeta.
  match goal with |- not_nan (match ?z with _ => _ end) => destruct z end;
    [discriminate| |]; apply binary_normalize_not_nan.
Qed.

Lemma Math_floor_spec (x : float) : Prim2SF (Math_floor x) = SFfloor (Prim2SF x).
Proof.
  unfold Math_floor. apply Prim2SF_SF2Prim, SFfloor_valid, Prim2SF_valid.
Qed.

(** The floor of a finite float is the rounding of the floor of its value. *)
Lemma SFfloor_key (x : spec_float) :
  valid_binary x = true -> finite_or_zero x = true ->
  key (SFfloor x) =
  key (RN (-1074) (sval (-1074) x / 2 ^ 1074 * 2 ^ 1074)).
Proof.
  intros Hv Hf. destruct x as [s| | |s m e]; try discriminate; [reflexivity|].
  pose proof (valid_bounds s m e Hv) as (Hb & _).
  assert (HP : 0 < 2 ^ 1074) by (apply Z.pow_pos_nonneg; lia).
  cbn [SFfloor sval]. destruct (Z.leb_spec 0 e) as [He|He].
  - assert (Hs : cond_Zopp s (Zpos m) * 2 ^ (e - -1074)
                 = cond_Zopp s (Zpos m) * 2 ^ e * 2 ^ 1074).
    { replace (e - -1074) with (e + 1074) by lia. rewrite Z.pow_add_r by lia. lia. }
    rewrite Hs, Z.div_mul by lia. rewrite <- Hs.
    symmetry. apply (RN_exact (-1074) (S754_finite s m e)); [lia|exact Hv|reflexivity].
  - cbv zeta.
    set (B := 2 ^ (- e)). assert (HB : 0 < B) by (apply Z.pow_pos_nonneg; lia).
    assert (HA : 0 < 2 ^ (e - -1074)) by (apply Z.pow_pos_nonneg; lia).
    assert (H1074 : 2 ^ 1074 = B * 2 ^ (e - -1074)).
    { unfold B. rewrite <- Z.pow_add_r by lia. f_equal. lia. }
    rewrite H1074 at 1. rewrite Z.div_mul_cancel_r by lia.
    rewrite Z.shiftr_div_pow2, Z.shiftl_mul_pow2 by lia. fold B.
    set (q := Zpos m / B).
    pose proof (Z.div_mod (Zpos m) B ltac:(lia)) as Hdm. fold q in Hdm.
    pose proof (Z.mod_pos_bound (Zpos m) B HB) as Hmb.
    assert (Hz : (if s then if q * B =? Zpos m then - q else - (q + 1) else q)
                 = cond_Zopp s (Zpos m) / B).
    { destruct s; cbn [cond_Zopp]; [|reflexivity].
      destruct (Z.eqb_spec (q * B) (Zpos m)) as [Heq|Hne].
      - rewrite Z.div_opp_l_z by lia. reflexivity.
      - rewrite Z.div_opp_l_nz by lia. fold q. lia. }
    rewrite Hz. set (z := cond_Zopp s (Zpos m) / B).
    transitivity (key (binary_normalize prec emax z 0 false)).
    { destruct z; reflexivity. }
    rewrite (binary_normalize_rescale z 0 (-1074)) by lia. reflexivity.
Qed.

Lemma SFfloor_mono (x y : spec_float) :
  valid_binary x = true -> valid_binary y = true ->
  not_nan x -> not_nan y ->
  key_le (key x) (key y) -> key_le (key (SFfloor x)) (key (SFfloor y)).
Proof.
  intros Hvx Hvy Hx Hy Hk.
  destruct (finite_or_infinite x Hx) as [Hfx|[sx ->]];
  destruct (finite_or_infinite y Hy) as [Hfy|[sy ->]].
  - rewrite !SFfloor_key by assumption. apply RN_mono; [lia|].
    pose proof (sval_mono (-1074) x y ltac:(lia) Hvx Hvy Hfx Hfy Hk) as Hs.
    assert (HP : 0 < 2 ^ 1074) by (apply Z.pow_pos_nonneg; lia).
    pose proof (Z.div_le_mono _ _ (2 ^ 1074) HP Hs). nia.
  - destruct sy.
    + apply key_bottom in Hk; [subst x; discriminate|exact Hx].
    + apply key_bounds.
  - destruct sx.
    + apply key_bounds.
    + apply key_top in Hk; [subst y; discriminate|exact Hy].
  - exact Hk.
Qed.



(** A value of at least one unit in the last place of the smallest
    subnormal does not round to zero. *)
Lemma RN_positive (v : Z) : 0 < v -> key_lt (0, 0, 0) (key (RN (-1074) v)).
Proof.
  intros Hv. unfold RN. destruct v as [|p|p]; try lia. cbn [binary_normalize].
  rewrite (binary_round_normal false p (-1074) (-1074)) by lia. cbv zeta.
  rewrite Z.sub_diag, Z.pow_0_r, Z.mul_1_r.
  set (t := fexp (Zpos (digits2_pos p) + -1074)).
  assert (Ht : -1074 <= t) by (unfold t; rewrite fexp_spec; lia).
  pose proof (rne_floor (Zpos p) (Z.to_nat (t - -1074)) ltac:(lia)) as [Hfl _].
  rewrite Z2Nat.id in Hfl by lia.
  assert (H1 : 1 <= Zpos p / 2 ^ (t - -1074)).
  { apply Z.div_le_lower_bound; [apply Z.pow_pos_nonneg; lia|]. rewrite Z.mul_1_r.
    pose proof (digits_bounds p) as [Hlo _].
    eapply Z.le_trans; [|exact Hlo]. apply Z.pow_le_mono_r; [lia|].
    unfold t. rewrite fexp_spec. lia. }
  set (m := rne (Zpos p) (Z.to_nat (t - -1074))) in *.
  unfold normal.
  destruct (Z.eqb_spec m 0); [lia|].
  destruct (m <? 2 ^ 53), (t <=? 971), (t + 1 <=? 971); cbn; lia.
Qed.

Lemma RN_positive_iff (v : Z) : 0 < v <-> key_lt (0, 0, 0) (key (RN (-1074) v)).
Proof.
  split; [apply RN_positive|]. intros Hk.
  destruct (Z_lt_le_dec 0 v) as [|Hle]; [assumption|exfalso].
  pose proof (RN_mono (-1074) v 0 ltac:(lia) Hle) as Hm.
  change (key (RN (-1074) 0)) with (0, 0, 0) in Hm.
  destruct (key (RN (-1074) v)) as [[c e] m]. cbn in *. lia.
Qed.

Lemma key_le_total (a b : Z * Z * Z) : key_lt a b \/ key_le b a.
Proof. destruct a as [[c1 e1] m1], b as [[c2 e2] m2]. cbn. lia. Qed.

Lemma sval_lt_iff (x y : spec_float) :
  valid_binary x = true -> valid_binary y = true ->
  finite_or_zero x = true -> finite_or_zero y = true ->
  (sval (-1074) x < sval (-1074) y <-> key_lt (key x) (key y)).
Proof.
  intros Hvx Hvy Hfx Hfy. split.
  - intros Hlt. destruct (key_le_total (key x) (key y)) as [|Hle]; [assumption|].
    pose proof (sval_mono (-1074) y x ltac:(lia) Hvy Hvx Hfy Hfx Hle). lia.
  - intros Hk.
    assert (Hle : key_le (key x) (key y))
      by (destruct (key x) as [[c1 e1] m1], (key y) as [[c2 e2] m2]; cbn in *; lia).
    pose proof (sval_mono (-1074) x y ltac:(lia) Hvx Hvy Hfx Hfy Hle) as Hs.
    destruct (Z.eq_dec (sval (-1074) x) (sval (-1074) y)) as [Heq|]; [|lia].
    exfalso.
    rewrite <- (RN_exact (-1074) x), <- (RN_exact (-1074) y) in Hk by (assumption || lia).
    rewrite Heq in Hk. exact (key_lt_irrefl _ Hk).
Qed.

(** The sign of a difference tells the order of its operands. *)
Lemma SFsub_positive_iff (x y : spec_float) :
  valid_binary x = true -> valid_binary y = true -> not_nan x -> not_nan y ->
  (SFltb (S754_zero false) (SFsub prec emax y x) = SFltb x y).
Proof.
  intros Hvx Hvy Hx Hy.
  destruct (finite_or_infinite x Hx) as [Hfx|[sx ->]];
  destruct (finite_or_infinite y Hy) as [Hfy|[sy ->]].
  - assert (Hn : not_nan (SFsub prec emax y x)) by (apply SFsub_not_nan; assumption).
    assert (H0 : not_nan (S754_zero false)) by discriminate.
    apply eq_true_iff_eq.
    rewrite (SFltb_key _ _ H0 Hn), (SFltb_key _ _ Hx Hy).
    rewrite (SFsub_key (-1074)) by (assumption || lia).
    change (key (S754_zero false)) with (0, 0, 0).
    rewrite <- RN_positive_iff, <- sval_lt_iff by assumption. lia.
  - destruct x as [s| | |s m e]; try discriminate; destruct sy; reflexivity.
  - destruct y as [s| | |[] m e]; try discriminate; destruct sx; reflexivity.
  - destruct sx, sy; reflexivity.
Qed.





Lemma binary_round_not_nan (s : bool) (M : positive) (E : Z) :
  not_nan (binary_round prec emax s M E).
Proof.
  unfold binary_round. destruct (shl_align _ _ _) as [mz ez].
  apply binary_round_aux_not_nan. lia.
Qed.

Local Open Scope float_scope.

Theorem mul_le_mono_r (c x y : float) :
  positive_number c = true -> (x <=? y) = true -> (x * c <=? y * c) = true.
Proof.
  intros Hc H. destruct (leb_keys x y H) as (Hx & Hy & Hk).
  apply keys_leb; unfold fkey; rewrite ?mul_spec.
  - apply SFmul_not_nan; assumption.
  - apply SFmul_not_nan; assumption.
  - apply SFmul_mono; try assumption; apply Prim2SF_valid.
Qed.

Theorem mul_le_mono_l (c x y : float) :
  positive_number c = true -> (x <=? y) = true -> (c * x <=? c * y) = true.
Proof. intros Hc H. rewrite (mul_comm c x), (mul_comm c y). apply mul_le_mono_r; assumption. Qed.

Theorem add_le_mono_l (c x y : float) :
  finite_number c = true -> (x <=? y) = true -> (c + x <=? c + y) = true.
Proof.
  intros Hc H. destruct (leb_keys x y H) as (Hx & Hy & Hk).
  apply keys_leb; unfold fkey; rewrite ?add_spec.
  - apply SFadd_not_nan; assumption.
  - apply SFadd_not_nan; assumption.
  - apply SFadd_mono; try assumption; apply Prim2SF_valid.
Qed.

Theorem sub_le_antitone (b p1 p2 : float) :
  finite_number b = true -> (p1 <=? p2) = true -> (b - p2 <=? b - p1) = true.
Proof.
  intros Hb H. destruct (leb_keys p1 p2 H) as (H1 & H2 & Hk).
  apply keys_leb; unfold fkey; rewrite ?sub_spec.
  - apply SFsub_not_nan; assumption.
  - apply SFsub_not_nan; assumption.
  - apply SFsub_antitone; try assumption; apply Prim2SF_valid.
Qed.

(** [Math.min] and [Math.max] *)
Lemma Math_min_spec (x y : float) :
  is_nan x = false -> is_nan y = false ->
  (Math_min x y = x \/ Math_min x y = y) /\
  (Math_min x y <=? x) = true /\ (Math_min x y <=? y) = true.
Proof.
  intros Hx Hy. unfold Math_min. rewrite Hx, Hy. cbn [orb].
  destruct (x <? y) eqn:E1.
  - split; [left; reflexivity|]. split; [apply leb_refl, Hx|apply leb_of_ltb, E1].
  - destruct (y <? x) eqn:E2.
    + split; [right; reflexivity|]. split; [apply leb_of_ltb, E2|apply leb_refl, Hy].
    + pose proof (leb_of_not_ltb x y Hx Hy E1). pose proof (leb_of_not_ltb y x Hy Hx E2).
      destruct (get_sign x).
      * split; [left; reflexivity|]. split; [apply leb_refl, Hx|assumption].
      * split; [right; reflexivity|]. split; [assumption|apply leb_refl, Hy].
Qed.

Lemma Math_max_spec (x y : float) :
  is_nan x = false -> is_nan y = false ->
  (Math_max x y = x \/ Math_max x y = y) /\
  (x <=? Math_max x y) = true /\ (y <=? Math_max x y) = true.
Proof.
  intros Hx Hy. unfold Math_max. rewrite Hx, Hy. cbn [orb].
  destruct (x <? y) eqn:E1.
  - split; [right; reflexivity|]. split; [apply leb_of_ltb, E1|apply leb_refl, Hy].
  - destruct (y <? x) eqn:E2.
    + split; [left; reflexivity|]. split; [apply leb_refl, Hx|apply leb_of_ltb, E2].
    + pose proof (leb_of_not_ltb x y Hx Hy E1). pose proof (leb_of_not_ltb y x Hy Hx E2).
      destruct (get_sign x).
      * split; [right; reflexivity|]. split; [assumption|apply leb_refl, Hy].
      * split; [left; reflexivity|]. split; [apply leb_refl, Hx|assumption].
Qed.



Lemma nan_ltb (t : float) : (nan <? t) = false.
Proof. rewrite ltb_spec. reflexivity. Qed.

Lemma Math_max_not_below (v c : float) :
  is_nan c = false -> (Math_max v c <? c) = false.
Proof.
  intros Hc. destruct (is_nan v) eqn:Hv.
  - unfold Math_max. rewrite Hv. cbn [orb]. apply nan_ltb.
  - destruct (Math_max_spec v c Hv Hc) as (_ & _ & H). apply ltb_false_of_leb, H.
Qed.



Theorem Math_floor_mono (x y : float) :
  (x <=? y) = true -> (Math_floor x <=? Math_floor y) = true.
Proof.
  intros H. destruct (leb_keys x y H) as (Hx & Hy & Hk).
  apply keys_leb; unfold fkey; rewrite ?Math_floor_spec.
  - apply SFfloor_not_nan, Hx.
  - apply SFfloor_not_nan, Hy.
  - apply SFfloor_mono; try assumption; apply Prim2SF_valid.
Qed.

Lemma sub_positive_iff (x y : float) :
  is_nan x = false -> is_nan y = false -> (0 <? y - x) = (x <? y).
Proof.
  intros Hx Hy. rewrite !ltb_spec, sub_spec.
  change (Prim2SF 0) with (S754_zero false).
  apply SFsub_positive_iff; try apply Prim2SF_valid; apply not_nan_spec; assumption.
Qed.


Lemma ltb_leb_trans (x y z : float) :
  (x <? y) = true -> (y <=? z) = true -> (x <? z) = true.
Proof.
  intros Hxy Hyz.
  destruct (ltb_not_nan x y Hxy) as [Hx Hy], (leb_not_nan y z Hyz) as [_ Hz].
  apply (ltb_key x z Hx Hz).
  apply (ltb_key x y Hx Hy) in Hxy. apply (leb_key y z Hy Hz) in Hyz.
  destruct (fkey x) as [[c1 e1] m1], (fkey y) as [[c2 e2] m2],
    (fkey z) as [[c3 e3] m3]. cbn in *. lia.
Qed.

Lemma Math_min_right (x c : float) : (c <? x) = true -> Math_min x c = c.
Proof.
  intros H. destruct (ltb_not_nan c x H) as [Hc Hx].
  unfold Math_min. rewrite Hx, Hc. cbn [orb].
  rewrite (ltb_false_of_leb c x (leb_of_ltb c x H)), H. reflexivity.
Qed.

End Rounding.

(** ** The lifecycle controller *)

Module Controller.
Import OracleBase Invariant.

(** Two states that differ at most in the derived state and in the delays
    slept. *)
Definition same_control {W} (o o' : Oracle W) : Prop :=
  config o' = config o /\ isRunning o' = isRunning o /\
  updateTimer o' = updateTimer o /\ errorCount o' = errorCount o /\
  totalUpdates o' = totalUpdates o /\ lastUpdateTime o' = lastUpdateTime o /\
  timers o' = timers o /\ nextTimer o' = nextTimer o.

Lemma same_control_refl {W} (o : Oracle W) : same_control o o.
Proof. repeat split. Qed.

Lemma same_control_trans {W} (o1 o2 o3 : Oracle W) :
  same_control o1 o2 -> same_control o2 o3 -> same_control o1 o3.
Proof.
  unfold same_control. intros H12 H23.
  destruct H12 as (?&?&?&?&?&?&?&?), H23 as (?&?&?&?&?&?&?&?).
  repeat split; congruence.
Qed.

Lemma same_control_set_derived {W} (w : W) (o : Oracle W) :
  same_control o (set_derived w o).
Proof. repeat split. Qed.

Lemma same_control_sleep {W} (ms : number) (o : Oracle W) :
  same_control o (sleep ms o).
Proof. repeat split. Qed.

Section Generic.
Context {W D T : Type}.
Variable fetchData : W -> result (list D) * W.
Variable validateData : list D -> W -> result ValidationResult * W.
Variable processData : list D -> W -> result T * W.
Variable submitToBlockchain : T -> W -> result string * W.
Variable Date_now : number.
Variable Math_random : Z -> number.

Local Abbreviation pipeline :=
  (pipeline fetchData validateData processData submitToBlockchain Math_random).
Local Abbreviation performUpdate :=
  (performUpdate fetchData validateData processData submitToBlockchain
     Date_now Math_random).
Local Abbreviation start :=
  (start fetchData validateData processData submitToBlockchain
     Date_now Math_random).
Local Abbreviation onTimer :=
  (onTimer fetchData validateData processData submitToBlockchain
     Date_now Math_random).

Lemma fetchAttempts_control (fuel : nat) :
  forall attempt lastError (o : Oracle W),
    same_control o
      (snd (fetchAttempts fetchData Math_random fuel attempt lastError o)).
Proof.
  induction fuel as [|fuel IH]; intros attempt lastError o; cbn [fetchAttempts].
  - apply same_control_refl.
  - destruct (fetchData (derived o)) as [[data|error] w]; cbn [snd].
    + apply same_control_set_derived.
    + eapply same_control_trans; [|apply IH].
      destruct (attempt <? _)%Z;
        [eapply same_control_trans; [apply same_control_set_derived|
                                     apply same_control_sleep]
        |apply same_control_set_derived].
Qed.

Lemma pipeline_control (o : Oracle W) : same_control o (snd (pipeline o)).
Proof.
  unfold OracleBase.pipeline, fetchDataWithRetry.
  pose proof (fetchAttempts_control (Z.to_nat (retryAttempts (config o))) 1 None o)
    as Hf.
  destruct (fetchAttempts _ _ _ _ _ o) as [[rawData|e] o1]; cbn [snd] in *;
    [|exact Hf].
  destruct (validateData rawData (derived o1)) as [[validation|e] w1]; cbn [snd];
    [|eapply same_control_trans; [exact Hf|apply same_control_set_derived]].
  assert (H1 : same_control o (set_derived w1 o1))
    by (eapply same_control_trans; [exact Hf|apply same_control_set_derived]).
  destruct (negb (isValid validation)); cbn [snd]; [exact H1|].
  destruct (processData rawData _) as [[processedData|e] w2]; cbn [snd];
    [|eapply same_control_trans; [exact H1|apply same_control_set_derived]].
  assert (H2 : same_control o (set_derived w2 (set_derived w1 o1)))
    by (eapply same_control_trans; [exact H1|apply same_control_set_derived]).
  destruct (submitToBlockchain processedData _) as [[txHash|e] w3]; cbn [snd];
    (eapply same_control_trans; [exact H2|apply same_control_set_derived]).
Qed.

(** [stop] leaves a well-formed state stopped and without a timer. *)
Lemma filter_held (h : nat) (l : list nat) :
  (forall h', In h' l -> h' = h) ->
  List.filter (fun h' => negb (h' =? h)%nat) l = [].
Proof.
  induction l as [|x l IH]; intros Hall; cbn; [reflexivity|].
  rewrite (Hall x (or_introl eq_refl)), Nat.eqb_refl; cbn.
  apply IH. intros h' Hin. apply Hall. right. exact Hin.
Qed.

Lemma stop_stopped (o : Oracle W) :
  timers_ok o -> isRunning (stop o) = false /\ timers (stop o) = [].
Proof.
  intros [Hheld Hidle]. unfold stop.
  destruct (isRunning o) eqn:Hrun; cbn [negb].
  - cbn. destruct (updateTimer o) as [h|] eqn:Hh; cbn.
    + split; [reflexivity|].
      apply filter_held. intros h' Hin. specialize (Hheld h' Hin). congruence.
    + split; [reflexivity|].
      destruct (timers o) as [|h l]; [reflexivity|].
      specialize (Hheld h (or_introl eq_refl)). discriminate.
  - split; [exact Hrun|apply Hidle; reflexivity].
Qed.

Lemma timers_ok_same_control (o o' : Oracle W) :
  same_control o o' -> timers_ok o -> timers_ok o'.
Proof.
  intros (_&Hr&Ht&_&_&_&Hl&_) [Hheld Hidle]. unfold timers_ok.
  rewrite Hr, Ht, Hl. split; assumption.
Qed.

(** The outcome of a cycle, case by case. *)
Lemma performUpdate_success (o o1 : Oracle W) (txHash : string) :
  pipeline o = (Ok txHash, o1) ->
  performUpdate o = (Ok (), set_success (totalUpdates o1 + 1)%Z Date_now o1).
Proof. intros H. unfold OracleBase.performUpdate. rewrite H. reflexivity. Qed.

Lemma performUpdate_failure (o o1 : Oracle W) (error : exn) :
  pipeline o = (Throw error, o1) ->
  performUpdate o =
    let o2 := set_errorCount (errorCount o + 1)%Z o1 in
    if (retryAttempts (config o) <=? errorCount o + 1)%Z
    then (Throw error, stop o2) else (Ok (), o2).
Proof.
  intros H. unfold OracleBase.performUpdate. rewrite H.
  pose proof (pipeline_control o) as (Hc&_&_&He&_). rewrite H in Hc, He.
  cbn [snd] in Hc, He. cbn. rewrite Hc, He. reflexivity.
Qed.

Lemma stop_keeps_errorCount (o : Oracle W) : errorCount (stop o) = errorCount o.
Proof.
  unfold stop. destruct (isRunning o); cbn; [|reflexivity].
  destruct (updateTimer o); reflexivity.
Qed.

(** C3 (amended): no cycle resets the failure counter. A successful cycle
    leaves it as it was and a failed cycle adds one, so the counter is the
    number of failed cycles since construction, whatever successes lie in
    between. *)
Theorem errorCount_never_reset (o : Oracle W) :
  errorCount (snd (performUpdate o)) =
    (if is_ok (fst (pipeline o)) then errorCount o else errorCount o + 1)%Z.
Proof.
  pose proof (pipeline_control o) as (_&_&_&He&_).
  destruct (pipeline o) as [[txHash|error] o1] eqn:Hp; cbn [fst snd is_ok] in *.
  - rewrite (performUpdate_success _ _ _ Hp). exact He.
  - rewrite (performUpdate_failure _ _ _ Hp). cbv zeta.
    destruct (_ <=? _)%Z; cbn [snd]; [rewrite stop_keeps_errorCount|]; reflexivity.
Qed.

Lemma stop_keeps_nextTimer (o : Oracle W) : nextTimer (stop o) = nextTimer o.
Proof.
  unfold stop. destruct (isRunning o); cbn; [|reflexivity].
  destruct (updateTimer o); reflexivity.
Qed.

(** A failed cycle, on a well-formed state. *)
Lemma failed_cycle (o o1 : Oracle W) (error : exn) :
  timers_ok o ->
  pipeline o = (Throw error, o1) ->
  let r := performUpdate o in
  errorCount (snd r) = (errorCount o + 1)%Z /\
  nextTimer (snd r) = nextTimer o /\
  if (retryAttempts (config o) <=? errorCount o + 1)%Z
  then fst r = Throw error /\ isRunning (snd r) = false /\ timers (snd r) = []
  else fst r = Ok () /\ isRunning (snd r) = isRunning o /\
       timers (snd r) = timers o /\ updateTimer (snd r) = updateTimer o.
Proof.
  intros Hok Hp r. subst r.
  pose proof (pipeline_control o) as Hc. rewrite Hp in Hc. cbn [snd] in Hc.
  rewrite (performUpdate_failure _ _ _ Hp). cbv zeta.
  assert (Hok2 : timers_ok (set_errorCount (errorCount o + 1)%Z o1))
    by exact (timers_ok_same_control o o1 Hc Hok).
  destruct Hc as (_&Hr&Ht&_&_&_&Hl&Hn).
  destruct (_ <=? _)%Z; cbn [fst snd].
  - destruct (stop_stopped _ Hok2) as [Hs Hnone].
    rewrite stop_keeps_errorCount, stop_keeps_nextTimer.
    repeat split; assumption.
  - cbn. repeat split; assumption.
Qed.

(** C5: a failed cycle that brings the failure counter to [retryAttempts]
    stops the controller, leaves no timer armed (so the rescheduling step of
    the timer callback arms none either) and throws the error of the cycle
    to its caller; a failed cycle that leaves the counter below
    [retryAttempts] returns normally and leaves the running flag and the
    armed timer as they were. *)
Theorem circuit_breaker (o o1 : Oracle W) (error : exn) :
  timers_ok o ->
  pipeline o = (Throw error, o1) ->
  let r := performUpdate o in
  errorCount (snd r) = (errorCount o + 1)%Z /\
  if (retryAttempts (config o) <=? errorCount o + 1)%Z
  then fst r = Throw error /\ isRunning (snd r) = false /\
       timers (snd r) = [] /\ timers (scheduleUpdates (snd r)) = []
  else fst r = Ok () /\ isRunning (snd r) = isRunning o /\
       timers (snd r) = timers o /\ updateTimer (snd r) = updateTimer o.
Proof.
  intros Hok Hp.
  destruct (failed_cycle o o1 error Hok Hp) as (He&_&H). cbv zeta.
  split; [exact He|].
  destruct (_ <=? _)%Z; [|exact H].
  destruct H as (Hf&Hs&Hn). repeat split; try assumption.
  unfold scheduleUpdates. rewrite Hs. exact Hn.
Qed.

(** C6 (amended): [start] on a running (or disabled) oracle returns without
    an error and without touching the state. Otherwise it runs one cycle at
    once. If that cycle fails and the failure counter thereby reaches
    [retryAttempts], the oracle is left stopped with no timer armed and the
    error reaches the caller of [start]; if it fails with the counter still
    below [retryAttempts], or succeeds, [start] returns normally with the
    oracle running and the schedule armed. *)
Theorem start_outcome (o : Oracle W) :
  timers_ok o ->
  let r := start o in
  if isRunning o then r = (Ok (), o)
  else if negb (cfg_enabled (config o)) then r = (Ok (), o)
  else
    match fst (pipeline (set_isRunning true o)) with
    | Ok _ =>
        fst r = Ok () /\ isRunning (snd r) = true /\
        timers (snd r) = [nextTimer o]
    | Throw error =>
        if (retryAttempts (config o) <=? errorCount o + 1)%Z
        then fst r = Throw error /\ isRunning (snd r) = false /\
             timers (snd r) = []
        else fst r = Ok () /\ isRunning (snd r) = true /\
             timers (snd r) = [nextTimer o]
    end.
Proof.
  intros [Hheld Hidle] r. subst r. unfold OracleBase.start.
  destruct (isRunning o) eqn:Hrun; [reflexivity|].
  destruct (negb (cfg_enabled (config o))); [reflexivity|].
  specialize (Hidle eq_refl).
  assert (Hok' : timers_ok (set_isRunning true o)).
  { split; cbn; [rewrite Hidle; intros h []|discriminate]. }
  pose proof (pipeline_control (set_isRunning true o)) as Hc.
  destruct (pipeline (set_isRunning true o)) as [[txHash|error] o1] eqn:Hp;
    cbn [fst snd] in *.
  - rewrite (performUpdate_success _ _ _ Hp).
    destruct Hc as (_&Hr&_&_&_&_&Hl&Hn). cbn in Hr, Hl, Hn.
    unfold scheduleUpdates. cbn. rewrite Hr. cbn. rewrite Hl, Hn, Hidle.
    repeat split; assumption.
  - pose proof (failed_cycle _ o1 error Hok' Hp) as (_&Hnx&Hcb).
    cbv zeta in Hnx, Hcb. cbn [set_isRunning errorCount config nextTimer isRunning
                                 timers] in Hnx, Hcb.
    destruct (_ <=? _)%Z.
    + destruct Hcb as (Hf&Hs&Hn).
      destruct (performUpdate (set_isRunning true o)) as [[u|e] o2];
        cbn [fst snd] in *; [discriminate|].
      repeat split; congruence.
    + destruct Hcb as (Hf&Hs&Hn&Hu).
      destruct (performUpdate (set_isRunning true o)) as [[u|e] o2];
        cbn [fst snd] in *; [|discriminate].
      unfold scheduleUpdates. rewrite Hs. cbn. rewrite Hs, Hn, Hnx, Hidle.
      repeat split.
Qed.

End Generic.
End Controller.

(** ** The controller of a [PriceOracle], on concrete runs *)

Module Runs.
Import PriceOracle OracleBase Invariant Scenario.

Lemma timers_ok_new (cfg : PriceOracleConfig) : timers_ok (Oracle.new cfg).
Proof. split; [intros h []|reflexivity]. Qed.

(** C3, refuted as stated: two failed cycles, then a cycle that succeeds
    (its pipeline returns and [totalUpdates] goes up), after which the
    failure counter is still 2, not 0; one more failed cycle then reaches
    [retryAttempts = 3], stops the oracle and throws. *)
Lemma success_keeps_earlier_failures :
  let good := answers 100 101 102 in
  let r := performUpdate good afterTwoOutages in
  let r' := performUpdate outage (snd r) in
  is_ok (fst (pipeline config22 good afterTwoOutages)) = true /\
  fst r = Ok () /\ totalUpdates (snd r) = 1%Z /\
  errorCount (snd r) = 2%Z /\ errorCount (snd r) <> 0%Z /\
  fst r' = Throw noData /\ isRunning (snd r') = false.
Proof. vm_compute. repeat split; discriminate. Qed.

Lemma timers_ok_startedInOutage : timers_ok startedInOutage.
Proof.
  split.
  - intros h Hin. vm_compute in Hin. destruct Hin as [<-|[]]. reflexivity.
  - intros H. vm_compute in H. discriminate H.
Qed.

Lemma timers_ok_oneFailureLeft : timers_ok oneFailureLeft.
Proof.
  split.
  - intros h Hin. vm_compute in Hin. destruct Hin as [<-|[]]. reflexivity.
  - intros H. vm_compute in H. discriminate H.
Qed.

Lemma timers_ok_fired : timers_ok (fire 1 oneFailureLeft).
Proof.
  split.
  - intros h Hin. vm_compute in Hin. destruct Hin.
  - reflexivity.
Qed.

(** Three cycles into an outage, on an oracle that runs with [retryAttempts
    = 3]. The first is forced while the oracle has one failure behind it and
    its timer armed: the count goes to 2, the caller sees no error, the
    oracle runs on and the timer stays. The second is forced with two
    failures behind it and timer 1 armed: the count reaches 3, the error is
    thrown, the oracle goes from running to stopped and timer 1 is
    cancelled. The third is the same cycle run by the timer itself: the
    callback arms no further timer. *)
Lemma circuit_breaker_witness :
  let below := performUpdate outage startedInOutage in
  let tripped := performUpdate outage oneFailureLeft in
  let scheduled := performUpdate outage (fire 1 oneFailureLeft) in
  (timers_ok startedInOutage /\
   isRunning startedInOutage = true /\ timers startedInOutage = [0%nat] /\
   errorCount startedInOutage = 1%Z /\
   fst (pipeline config22 outage startedInOutage) = Throw noData /\
   errorCount (snd below) = 2%Z /\
   fst below = Ok () /\ isRunning (snd below) = true /\
   timers (snd below) = [0%nat] /\ updateTimer (snd below) = Some 0%nat) /\
  (timers_ok oneFailureLeft /\
   isRunning oneFailureLeft = true /\ timers oneFailureLeft = [1%nat] /\
   errorCount oneFailureLeft = 2%Z /\
   fst (pipeline config22 outage oneFailureLeft) = Throw noData /\
   errorCount (snd tripped) = 3%Z /\
   fst tripped = Throw noData /\ isRunning (snd tripped) = false /\
   timers (snd tripped) = [] /\ timers (scheduleUpdates (snd tripped)) = []) /\
  (timers_ok (fire 1 oneFailureLeft) /\
   isRunning (fire 1 oneFailureLeft) = true /\
   errorCount (snd scheduled) = 3%Z /\
   fst scheduled = Throw noData /\ isRunning (snd scheduled) = false /\
   timers (snd scheduled) = [] /\ timers (scheduleUpdates (snd scheduled)) = []).
Proof.
  pose (breaker := Controller.circuit_breaker
           (fetchData config22 (Oracle.initializeDataSources config22) outage)
           (validateData config22 outage) (processData config22)
           (submitToBlockchain config22 outage)
           (Date_now outage) (Math_random outage)).
  split; [|split].
  - split; [exact timers_ok_startedInOutage|].
    do 4 (split; [vm_compute; reflexivity|]).
    exact (breaker startedInOutage (snd (pipeline config22 outage startedInOutage))
             noData timers_ok_startedInOutage eq_refl).
  - split; [exact timers_ok_oneFailureLeft|].
    do 4 (split; [vm_compute; reflexivity|]).
    exact (breaker oneFailureLeft (snd (pipeline config22 outage oneFailureLeft))
             noData timers_ok_oneFailureLeft eq_refl).
  - split; [exact timers_ok_fired|].
    split; [vm_compute; reflexivity|].
    exact (breaker (fire 1 oneFailureLeft)
             (snd (pipeline config22 outage (fire 1 oneFailureLeft)))
             noData timers_ok_fired eq_refl).
Defined.

(** C6, refuted as stated: every source is down, so the initial cycle of
    [start] fails; the failure counter goes to 1, below [retryAttempts = 3],
    and [start] returns normally with the oracle running and a timer
    armed. *)
Lemma start_swallows_initial_failure :
  let o := Oracle.new config22 in
  let r := Oracle.start config22 outage o in
  fst (pipeline config22 outage (set_isRunning true o)) = Throw noData /\
  fst r = Ok () /\ isRunning (snd r) = true /\ timers (snd r) = [0%nat] /\
  errorCount (snd r) = 1%Z.
Proof. vm_compute. repeat split. Qed.

Lemma start_outcome_witness :
  let o := Oracle.new config22 in
  let r := Oracle.start config22 outage o in
  timers_ok o /\
  fst r = Ok () /\ isRunning (snd r) = true /\ timers (snd r) = [nextTimer o].
Proof.
  split; [apply timers_ok_new|].
  exact (Controller.start_outcome
           (fetchData config22 (Oracle.initializeDataSources config22) outage)
           (validateData config22 outage) (processData config22)
           (submitToBlockchain config22 outage)
           (Date_now outage) (Math_random outage)
           (Oracle.new config22) (timers_ok_new config22)).
Defined.

End Runs.

(** ** Outlier removal on identical prices *)

Module Outliers.
Import PriceOracle Scenario.

Lemma nan_leb (t : number) : (nan <=? t)%float = false.
Proof. rewrite leb_spec. reflexivity. Qed.

Lemma filter_none {A} (f : A -> bool) (l : list A) :
  (forall x, In x l -> f x = false) -> List.filter f l = [].
Proof.
  induction l as [|x l IH]; intros Hall; cbn; [reflexivity|].
  rewrite (Hall x (or_introl eq_refl)). apply IH.
  intros y Hy. apply Hall. right. exact Hy.
Qed.

Lemma identical_zScore (d : OracleData) :
  In d identical ->
  zScore (mean (prices identical)) (calculateStandardDeviation (prices identical)) d
  = nan.
Proof. intros [<-|[<-|[<-|[]]]]; vm_compute; reflexivity. Qed.

(** C2 at three observations of price 100: the standard deviation is 0, each
    z-score is [0 / 0 = NaN], no comparison with [NaN] holds, and the filter
    keeps nothing, whatever the outlier threshold (and the rest of the
    configuration) is. *)
Theorem identical_prices_all_dropped (cfg : PriceOracleConfig) :
  calculateStandardDeviation (prices identical) = 0%float /\
  removeOutliers cfg identical = [] /\
  removeOutliers cfg identical <> identical.
Proof.
  assert (H : removeOutliers cfg identical = []).
  { unfold removeOutliers. cbn [length identical Nat.leb].
    apply filter_none. intros d Hd. rewrite (identical_zScore d Hd).
    apply nan_leb. }
  split; [vm_compute; reflexivity|].
  split; [exact H|]. rewrite H. discriminate.
Qed.

End Outliers.

(** ** [validatePriceData] *)

Module Fetcher.
Import DataFetcher Scenario.

(** What [validatePriceData] does guarantee: a value it returns has a price
    for which [price <= 0] is false, a truthy timestamp as soon as the clock
    reading is truthy, and a truthy confidence. *)
Lemma number_or_truthy (x : option number) (d : number) :
  ToBoolean d = true -> ToBoolean (number_or x d) = true.
Proof.
  intros Hd. unfold number_or. destruct x as [x|]; [|exact Hd].
  destruct (ToBoolean x) eqn:Hx; [exact Hx|exact Hd].
Qed.

Lemma validatePriceData_returns (fetcherName : string) (now : number)
    (data : PartialPriceData) (pd : PriceData) :
  ToBoolean now = true ->
  validatePriceData fetcherName now data = Ok pd ->
  (price pd <=? 0)%float = false /\
  ToBoolean (timestamp pd) = true /\
  exists c, confidence pd = Some c /\ ToBoolean c = true.
Proof.
  intros Hnow. unfold validatePriceData.
  destruct (p_base data) as [b|]; [|discriminate].
  destruct (p_quote data) as [q|]; [|discriminate].
  destruct (p_price data) as [p|]; [|discriminate].
  destruct (_ || _); [discriminate|].
  destruct (p <=? 0)%float eqn:Hp; [discriminate|].
  intros [= <-]. cbn. split; [exact Hp|].
  split; [apply number_or_truthy, Hnow|].
  eexists. split; [reflexivity|]. apply number_or_truthy. reflexivity.
Qed.

(** A reported confidence of 0 comes out as 100, as a missing one does. *)
Lemma confidence_zero_is_full (c : option number) :
  c = Some 0%float \/ c = None \/ c = Some 100%float ->
  number_or c 100%float = 100%float.
Proof. intros [->|[->| ->]]; reflexivity. Qed.

(** C10 at the value [Binance.fetchPrice] builds from a price text that
    [parseFloat] cannot read: [typeof NaN] is ['number'] and [NaN <= 0] is
    false, so the value is returned, with a price that is not positive. *)
Theorem nan_price_is_returned :
  exists pd,
    validatePriceData "binance" 1700000000500%float unparsed = Ok pd /\
    price pd = nan /\ (0 <? price pd)%float = false.
Proof. eexists. vm_compute. repeat split. Qed.

End Fetcher.

(** ** Grouping, quorum and the update gate *)

Module Aggregation.
Import PriceOracle Spec FloatFacts Scenario.

Lemma removeOutliers_incl (cfg : PriceOracleConfig) (data : list OracleData)
    (d : OracleData) :
  In d (removeOutliers cfg data) -> In d data.
Proof.
  unfold removeOutliers. destruct (_ <=? _)%nat; [auto|].
  intros H. apply List.filter_In in H. tauto.
Qed.

Lemma group_push_keys (k : string) (od : OracleData)
    (g : list (string * list OracleData)) (x : string) :
  In x (List.map fst (group_push k od g)) -> x = k \/ In x (List.map fst g).
Proof.
  induction g as [|[k' ods] g IH]; cbn.
  - intros [<-|[]]. left. reflexivity.
  - destruct (String.eqb k' k); cbn; [tauto|].
    intros [<-|H]; [tauto|]. destruct (IH H); tauto.
Qed.

Lemma group_push_ok (od : OracleData) (g : list (string * list OracleData)) :
  grouped_ok g -> grouped_ok (group_push (keyOf od) od g).
Proof.
  unfold grouped_ok. induction g as [|[k' ods] g IH]; cbn; intros [Hnd Hall].
  - split; [apply List.NoDup_cons; [intros []|apply List.NoDup_nil]|].
    apply List.Forall_cons; [|apply List.Forall_nil].
    split; cbn; [discriminate|]. intros d [<-|[]]. reflexivity.
  - apply List.NoDup_cons_iff in Hnd as [Hnotin Hnd].
    apply List.Forall_cons_iff in Hall as [[Hne Hkey] Hall]. cbn in Hne, Hkey.
    destruct (String.eqb k' (keyOf od)) eqn:E; cbn.
    + apply String.eqb_eq in E. split; [apply List.NoDup_cons; assumption|].
      apply List.Forall_cons; [|exact Hall]. split; cbn.
      * destruct ods; discriminate.
      * intros d Hd. apply List.in_app_iff in Hd as [Hd|[<-|[]]]; auto.
    + apply String.eqb_neq in E. destruct (IH (conj Hnd Hall)) as [Hnd' Hall'].
      split.
      * apply List.NoDup_cons; [|exact Hnd'].
        intros Hin. apply group_push_keys in Hin as [->|Hin]; tauto.
      * apply List.Forall_cons; [split; assumption|exact Hall'].
Qed.

Lemma groupDataByPair_ok (data : list OracleData) : grouped_ok (groupDataByPair data).
Proof.
  unfold groupDataByPair.
  assert (H : forall g, grouped_ok g ->
            grouped_ok (fold_left
              (fun grouped oracleData =>
                 group_push (pairKeyOf (base (value oracleData))
                               (quote (value oracleData))) oracleData grouped)
              data g)).
  { induction data as [|d data IH]; intros g Hg; cbn; [exact Hg|].
    apply IH. apply (group_push_ok d g Hg). }
  apply H. split; [apply List.NoDup_nil|apply List.Forall_nil].
Qed.

(** An aggregated observation carries the key of the group it comes from. *)
Lemma aggregatePrices_key (cfg : PriceOracleConfig) (entry : string * list OracleData)
    (a : AggregatedPriceData) :
  group_ok entry ->
  aggregatePrices cfg (removeOutliers cfg (snd entry)) = Ok a ->
  keyOfAggregate a = fst entry.
Proof.
  intros [_ Hkey]. unfold aggregatePrices.
  destruct (removeOutliers cfg (snd entry)) as [|first rest] eqn:E; [discriminate|].
  intros [= <-]. unfold keyOfAggregate; cbn.
  apply Hkey. apply (removeOutliers_incl cfg). rewrite E. left. reflexivity.
Qed.

(** The loop of [processData]: what it appends and what it stores. *)
Lemma processPairs_stores (cfg : PriceOracleConfig) :
  forall (groups : list (string * list OracleData)) acc st res st',
    grouped_ok groups ->
    processPairs cfg groups acc st = (Ok res, st') ->
    (exists new, res = acc ++ new /\
       forall a, In a new -> lastPrices st' !! keyOfAggregate a = Some a) /\
    (forall k, ~ In k (List.map fst groups) ->
       lastPrices st' !! k = lastPrices st !! k) /\
    ledger st' = ledger st.
Proof.
  induction groups as [|[k ds] groups IH]; intros acc st res st' Hok Hrun.
  - cbn in Hrun. inversion Hrun; subst. split; [|split; reflexivity].
    exists []. split; [rewrite List.app_nil_r; reflexivity|intros a []].
  - destruct Hok as [Hnd Hall].
    cbn [List.map fst] in Hnd. apply List.NoDup_cons_iff in Hnd as [Hnotin Hnd].
    apply List.Forall_cons_iff in Hall as [Hg Hall].
    assert (Hskip : processPairs cfg groups acc st = (Ok res, st') ->
      (exists new, res = acc ++ new /\
         forall a, In a new -> lastPrices st' !! keyOfAggregate a = Some a) /\
      (forall k', ~ In k' (List.map fst ((k, ds) :: groups)) ->
         lastPrices st' !! k' = lastPrices st !! k') /\
      ledger st' = ledger st).
    { intros H. destruct (IH _ _ _ _ (conj Hnd Hall) H) as (Hnew & Hframe & Hl).
      split; [exact Hnew|]. split; [|exact Hl].
      intros k' Hk'. apply Hframe. cbn in Hk'. tauto. }
    cbn [processPairs] in Hrun.
    destruct (findPair cfg k); [|exact (Hskip Hrun)].
    destruct (length ds =? 0)%nat; [exact (Hskip Hrun)|].
    destruct (_ <? _)%float; [exact (Hskip Hrun)|].
    destruct (aggregatePrices cfg (removeOutliers cfg ds)) as [a|e] eqn:Ea;
      [|discriminate].
    pose proof (aggregatePrices_key cfg (k, ds) a Hg Ea) as Hka. cbn in Hka.
    destruct (IH _ _ _ _ (conj Hnd Hall) Hrun) as ((new & -> & Hnew) & Hframe & Hl).
    cbn [lastPrices ledger set_lastPrices] in Hframe, Hl.
    split; [|split; [|exact Hl]].
    + exists (a :: new). split; [rewrite <- List.app_assoc; reflexivity|].
      intros a' [<-|Hin]; [|exact (Hnew a' Hin)].
      rewrite Hka, (Hframe k Hnotin). apply lookup_insert_eq.
    + intros k' Hk'. cbn in Hk'. rewrite Hframe by tauto.
      apply lookup_insert_ne. intros ->. tauto.
Qed.

(** What [processData] returns is what it has just stored under the key the
    gate will look up. *)
Lemma processData_stores (cfg : PriceOracleConfig) (data : list OracleData)
    (st st' : State) (p : AggregatedPriceData) :
  processData cfg data st = (Ok p, st') ->
  lastPrices st' !! pairKeyOf (ag_base p) (ag_quote p) = Some p.
Proof.
  unfold processData.
  destruct (processPairs cfg (groupDataByPair data) [] st) as [[res|e] st1] eqn:E;
    [|discriminate].
  destruct res as [|first rest]; [discriminate|]. intros [= <- <-].
  destruct (processPairs_stores cfg _ _ _ _ _ (groupDataByPair_ok data) E)
    as ((new & Hres & Hnew) & _). cbn in Hres. subst new.
  apply (Hnew first). left. reflexivity.
Qed.

(** Whatever the data, the configuration and the state before the cycle: the
    gate that follows [processData] finds the price just aggregated as the
    "last" one and compares the new price with itself. *)
Lemma gate_compares_price_with_itself (cfg : PriceOracleConfig) (env : Env)
    (data : list OracleData) (st st' : State) (p : AggregatedPriceData) :
  processData cfg data st = (Ok p, st') ->
  submitToBlockchain cfg env p st' =
    if shouldUpdate cfg (ag_price p) (ag_price p)
    then send env p st' else (Ok "skipped", st').
Proof.
  intros H. unfold submitToBlockchain.
  rewrite (processData_stores cfg data st st' p H).
  destruct (shouldUpdate cfg (ag_price p) (ag_price p)); reflexivity.
Qed.

(** C1 at the first cycle of a new oracle (three sources answer 100, 101 and
    102; deviation threshold 1 percent): no price has been stored for the
    pair before the cycle, the cycle aggregates 101, and the gate withholds
    the commit: the pipeline returns ["skipped"] and nothing reaches the
    ledger. *)
Theorem first_observation_is_skipped :
  let o := Oracle.new config22 in
  let r := pipeline config22 (answers 100 101 102) o in
  lastPrices (OracleBase.derived o) !! "BTC/USD" = None /\
  fst r = Ok "skipped" /\
  ledger (OracleBase.derived (snd r)) = [] /\
  ag_price <$> lastPrices (OracleBase.derived (snd r)) !! "BTC/USD" = Some 101%float.
Proof. vm_compute. repeat split. Qed.

(** *** Quorum *)

Lemma aggregatePrices_nonempty (cfg : PriceOracleConfig) (data : list OracleData) :
  data <> [] -> exists a, aggregatePrices cfg data = Ok a.
Proof.
  intros Hne. unfold aggregatePrices. destruct data as [|first rest]; [congruence|].
  eexists. reflexivity.
Qed.

Lemma processPairs_quorum (cfg : PriceOracleConfig) :
  (0 <? minSourcesRequired cfg)%float = true ->
  forall (groups : list (string * list OracleData)) acc st,
  exists produced,
    fst (processPairs cfg groups acc st) = Ok (acc ++ produced) /\
    List.Forall2 (aggregated cfg) (List.filter (meetsFloor cfg) groups) produced.
Proof.
  intros Hfloor.
  destruct (ltb_not_nan _ _ Hfloor) as [_ Hmin].
  induction groups as [|[k ds] groups IH]; intros acc st.
  - exists []. cbn. rewrite List.app_nil_r. split; [reflexivity|constructor].
  - cbn [processPairs List.filter]. unfold meetsFloor at 1. cbn [fst snd].
    destruct (findPair cfg k); [|apply IH].
    destruct (length ds =? 0)%nat; cbn [negb andb]; [apply IH|].
    destruct (of_nat (length (removeOutliers cfg ds)) <? minSourcesRequired cfg)%float
      eqn:Hlt; cbn [negb]; [apply IH|].
    assert (Hne : removeOutliers cfg ds <> []).
    { intros E. rewrite E in Hlt. cbn [length] in Hlt.
      change (of_nat 0) with 0%float in Hlt. congruence. }
    destruct (aggregatePrices_nonempty cfg _ Hne) as [a Ha]. rewrite Ha.
    destruct (IH (acc ++ [a])
                (set_lastPrices (<[k:=a]> (lastPrices st)) st)) as (produced & Hrun & Hall).
    exists (a :: produced). split.
    + rewrite Hrun, <- List.app_assoc. reflexivity.
    + constructor; [|exact Hall]. split; [exact Ha|]. cbn [snd].
      apply leb_of_not_ltb; [apply of_nat_not_nan|exact Hmin|exact Hlt].
Qed.

Lemma set_derived_id {W} (o : OracleBase.Oracle W) :
  OracleBase.set_derived (OracleBase.derived o) o = o.
Proof. destruct o. reflexivity. Qed.

(** A cycle of a [PriceOracle] in which [processData] throws is a failed
    cycle. *)
Lemma pipeline_throws (cfg : PriceOracleConfig) (env : Env)
    (o : OracleBase.Oracle State) (data : list OracleData) (e : exn) :
  (1 <= OracleBase.retryAttempts (OracleBase.config o))%Z ->
  fst (fetchData cfg (Oracle.initializeDataSources cfg) env (OracleBase.derived o))
  = Ok data ->
  fst (processData cfg data (OracleBase.derived o)) = Throw e ->
  exists e' o', pipeline cfg env o = (Throw e', o').
Proof.
  intros Hretry Hfetch Hproc.
  unfold pipeline, OracleBase.pipeline, OracleBase.fetchDataWithRetry.
  destruct (Z.to_nat _) as [|fuel] eqn:Hfuel; [lia|].
  cbn [OracleBase.fetchAttempts].
  unfold fetchData in *. cbn [fst] in Hfetch. injection Hfetch as <-.
  rewrite set_derived_id.
  unfold validateData at 1.
  destruct (fold_left _ _ _) as [errors warnings].
  cbn [isValid OracleBase.derived OracleBase.set_derived].
  rewrite set_derived_id.
  destruct (negb _); [eexists _, _; reflexivity|].
  destruct (processData cfg _ (OracleBase.derived o)) as [[p|e1] st1];
    cbn [fst] in Hproc; [discriminate|].
  eexists _, _; reflexivity.
Qed.

(** C4 (amended), for a positive floor and at least one fetch attempt: the
    aggregated observations of a cycle are exactly those of the supported
    pairs whose group, after outlier removal, has at least
    [minSourcesRequired] members; a pair below the floor is left out without
    an error as long as some pair meets the floor. When no pair meets it,
    [processData] throws a [ValidationError] and the cycle counts as
    failed. *)
Theorem quorum_or_failed_cycle (cfg : PriceOracleConfig) (env : Env)
    (o : OracleBase.Oracle State) (data : list OracleData) :
  (0 <? minSourcesRequired cfg)%float = true ->
  (1 <= OracleBase.retryAttempts (OracleBase.config o))%Z ->
  fst (fetchData cfg (Oracle.initializeDataSources cfg) env (OracleBase.derived o))
  = Ok data ->
  let groups := groupDataByPair data in
  let meeting := List.filter (meetsFloor cfg) groups in
  exists produced,
    fst (processPairs cfg groups [] (OracleBase.derived o)) = Ok produced /\
    List.Forall2 (aggregated cfg) meeting produced /\
    (meeting <> [] ->
     is_ok (fst (processData cfg data (OracleBase.derived o))) = true) /\
    (meeting = [] ->
     fst (processData cfg data (OracleBase.derived o)) = Throw noData /\
     OracleBase.errorCount (snd (Oracle.performUpdate cfg env o))
     = (OracleBase.errorCount o + 1)%Z).
Proof.
  intros Hfloor Hretry Hfetch groups meeting.
  destruct (processPairs_quorum cfg Hfloor groups [] (OracleBase.derived o))
    as (produced & Hrun & Hall).
  cbn [app] in Hrun. exists produced.
  split; [exact Hrun|]. split; [exact Hall|].
  assert (Hproc : fst (processData cfg data (OracleBase.derived o)) =
                  match produced with
                  | [] => Throw noData
                  | first :: _ => Ok first
                  end).
  { unfold processData. fold groups.
    destruct (processPairs cfg groups [] (OracleBase.derived o)) as [[res|e] st1];
      cbn [fst] in Hrun; [|discriminate].
    injection Hrun as ->. destruct produced; reflexivity. }
  split.
  - intros Hne. rewrite Hproc. fold meeting in Hall.
    destruct Hall; [congruence|reflexivity].
  - intros Hnone. fold meeting in Hall. rewrite Hnone in Hall.
    inversion Hall; subst. split; [exact Hproc|].
    destruct (pipeline_throws cfg env o data noData Hretry Hfetch Hproc)
      as (e' & o' & Hp).
    unfold Oracle.performUpdate.
    rewrite (Controller.performUpdate_failure _ _ _ _ _ _ _ _ _ Hp). cbv zeta.
    destruct (_ <=? _)%Z; cbn [snd];
      [rewrite Controller.stop_keeps_errorCount|]; reflexivity.
Qed.

(** C4, refuted as stated: three sources answer 99, 100 and 150 with a floor
    of three sources and an outlier threshold of one standard deviation. The
    data pass validation; outlier removal drops 150, which leaves two
    observations, below the floor; no pair is left, [processData] throws a
    [ValidationError], and the failure counter of the cycle goes up. *)
Lemma skipped_pair_fails_the_cycle :
  let env := answers 99 100 150 in
  let o := Oracle.new config13 in
  exists data validation,
    fst (fetchData config13 (Oracle.initializeDataSources config13) env
           (OracleBase.derived o)) = Ok data /\
    fst (validateData config13 env data (OracleBase.derived o)) = Ok validation /\
    isValid validation = true /\
    length data = 3%nat /\
    length (removeOutliers config13 data) = 2%nat /\
    fst (processData config13 data (OracleBase.derived o)) = Throw noData /\
    OracleBase.errorCount (snd (Oracle.performUpdate config13 env o)) = 1%Z.
Proof. eexists _, _. vm_compute. repeat split. Qed.

Lemma quorum_or_failed_cycle_witness :
  let env := answers 99 100 150 in
  let o := Oracle.new config13 in
  (0 <? minSourcesRequired config13)%float = true /\
  (1 <= OracleBase.retryAttempts (OracleBase.config o))%Z /\
  exists data,
    fst (fetchData config13 (Oracle.initializeDataSources config13) env
           (OracleBase.derived o)) = Ok data /\
    exists produced,
      fst (processPairs config13 (groupDataByPair data) [] (OracleBase.derived o))
      = Ok produced /\
      List.Forall2 (aggregated config13)
        (List.filter (meetsFloor config13) (groupDataByPair data)) produced.
Proof.
  split; [reflexivity|]. split; [vm_compute; discriminate|].
  eexists. split; [reflexivity|].
  destruct (quorum_or_failed_cycle config13 (answers 99 100 150)
              (Oracle.new config13) _ eq_refl
              ltac:(vm_compute; discriminate) eq_refl)
    as (produced & Hrun & Hall & _).
  exists produced. split; [exact Hrun|exact Hall].
Defined.

End Aggregation.

(** ** The confidence score and the dispersion of the prices *)

Module Confidence.
Import PriceOracle Spec FloatOrder FloatFacts Rounding Scenario.
Local Open Scope float_scope.






(** Subtracting from an infinity gives that infinity or NaN. *)
Lemma sub_infinite (b p : float) :
  is_nan b = false -> finite_number b = false ->
  is_nan (b - p) = true \/ b - p = b.
Proof.
  intros Hn Hf. apply not_nan_spec in Hn. unfold finite_number in Hf.
  destruct (Prim2SF b) as [sb|sb| |sb mb eb] eqn:Eb; try discriminate;
    [|contradiction Hn; reflexivity].
  destruct (Prim2SF p) as [sp|sp| |sp mp ep] eqn:Ep.
  - right. apply Prim2SF_inj. rewrite sub_spec, Eb, Ep. reflexivity.
  - destruct (Bool.eqb sb sp) eqn:E.
    + left. apply is_nan_spec. rewrite sub_spec, Eb, Ep.
      destruct sb, sp; try discriminate; reflexivity.
    + right. apply Prim2SF_inj. rewrite sub_spec, Eb, Ep.
      destruct sb, sp; try discriminate; reflexivity.
  - left. apply is_nan_spec. rewrite sub_spec, Eb, Ep. reflexivity.
  - right. apply Prim2SF_inj. rewrite sub_spec, Eb, Ep. reflexivity.
Qed.




End Confidence.

(** ** The retry delay *)

Module RetryDelay.
Import OracleBase Spec FloatOrder FloatFacts Rounding.
Local Open Scope float_scope.

Lemma Math_pow_2_spec (k : Z) :
  Prim2SF (Math_pow_2 k) = binary_round prec emax false 4503599627370496 (-52 + k).
Proof.
  unfold Math_pow_2. rewrite Z_ldexp_spec.
  change (Prim2SF 1) with (S754_finite false 4503599627370496 (-52)). reflexivity.
Qed.

Lemma Math_pow_2_mono (k1 k2 : Z) :
  (k1 <= k2)%Z -> (Math_pow_2 k1 <=? Math_pow_2 k2) = true.
Proof.
  intros H. apply keys_leb; unfold fkey; rewrite ?Math_pow_2_spec;
    try apply binary_round_not_nan.
  apply (binary_round_mono _ _ _ _ (Z.min (-52 + k1) (-1074))); try lia.
  apply Z.mul_le_mono_nonneg_l; [lia|].
  apply Z.pow_le_mono_r; lia.
Qed.

Lemma baseDelay_capped (attempt : Z) : (6 <= attempt)%Z -> baseDelay attempt = 30000.
Proof.
  intros H. unfold baseDelay. apply Math_min_right.
  apply (ltb_leb_trans _ (1000 * Math_pow_2 5)); [reflexivity|].
  apply mul_le_mono_l; [reflexivity|]. apply Math_pow_2_mono. lia.
Qed.

Lemma baseDelay_values (attempt : Z) :
  (1 <= attempt)%Z ->
  In (baseDelay attempt) [1000; 2000; 4000; 8000; 16000; 30000]%list.
Proof.
  intros H.
  assert (Hc : (attempt = 1 \/ attempt = 2 \/ attempt = 3 \/ attempt = 4 \/
               attempt = 5 \/ 6 <= attempt)%Z) by lia.
  destruct Hc as [->|[->|[->|[->|[->|Hc]]]]].
  - left. reflexivity.
  - right. left. reflexivity.
  - do 2 right. left. reflexivity.
  - do 3 right. left. reflexivity.
  - do 4 right. left. reflexivity.
  - do 5 right. left. symmetry. apply baseDelay_capped, Hc.
Qed.

(** Between no jitter and full jitter. *)
Lemma jitter_bounds (b r : float) :
  positive_number b = true -> (0 <=? r) = true -> (r <=? 1) = true ->
  (0 * 0.1 * b <=? r * 0.1 * b) = true /\ (r * 0.1 * b <=? 1 * 0.1 * b) = true /\
  (Math_floor (b + 0 * 0.1 * b) <=? Math_floor (b + r * 0.1 * b)) = true /\
  (Math_floor (b + r * 0.1 * b) <=? Math_floor (b + 1 * 0.1 * b)) = true.
Proof.
  intros Hb H0 H1.
  assert (Hfb : finite_number b = true).
  { unfold positive_number, finite_number in *.
    destruct (Prim2SF b) as [s|s| |[] m e]; try discriminate; reflexivity. }
  assert (Hlo : (0 * 0.1 * b <=? r * 0.1 * b) = true)
    by (apply mul_le_mono_r; [exact Hb|]; apply mul_le_mono_r; [reflexivity|exact H0]).
  assert (Hhi : (r * 0.1 * b <=? 1 * 0.1 * b) = true)
    by (apply mul_le_mono_r; [exact Hb|]; apply mul_le_mono_r; [reflexivity|exact H1]).
  repeat split; try assumption; apply Math_floor_mono, add_le_mono_l; assumption.
Qed.

(** C9: for every attempt [n >= 1] and every value [Math.random()] can
    return (a number in [0, 1)), the delay is the floor of the base
    [min(1000 * 2^(n-1), 30000)] plus a jitter between 0 and one tenth of the
    base, and it lies between the base and [1.1] times the base. *)
Theorem retry_delay_bounds (attempt : Z) (random : float) :
  (1 <= attempt)%Z -> (0 <=? random) = true -> (random <? 1) = true ->
  let base := Math_min (1000 * Math_pow_2 (attempt - 1)) 30000 in
  let jitter := random * 0.1 * base in
  calculateRetryDelay random attempt = Math_floor (base + jitter) /\
  (0 <=? jitter) = true /\ (jitter <=? 0.1 * base) = true /\
  (base <=? calculateRetryDelay random attempt) = true /\
  (calculateRetryDelay random attempt <=? 1.1 * base) = true.
Proof.
  intros Hn H0 H1 base jitter. split; [reflexivity|].
  unfold calculateRetryDelay. fold base. fold jitter.
  apply leb_of_ltb in H1.
  pose proof (baseDelay_values attempt Hn) as Hv. unfold baseDelay in Hv. fold base in Hv.
  assert (Hall : forall b, In b [1000; 2000; 4000; 8000; 16000; 30000]%list ->
            positive_number b = true /\
            (0 <=? 0 * 0.1 * b) = true /\ (1 * 0.1 * b <=? 0.1 * b) = true /\
            (b <=? Math_floor (b + 0 * 0.1 * b)) = true /\
            (Math_floor (b + 1 * 0.1 * b) <=? 1.1 * b) = true).
  { intros b Hb. cbn [In] in Hb.
    destruct Hb as [<-|[<-|[<-|[<-|[<-|[<-|[]]]]]]]; vm_compute; repeat split. }
  destruct (Hall base Hv) as (Hpos & Hj0 & Hj1 & Hf0 & Hf1).
  destruct (jitter_bounds base random Hpos H0 H1) as (Ha & Hb & Hc & Hd).
  fold jitter in Ha, Hb, Hc, Hd.
  split; [exact (leb_trans _ _ _ Hj0 Ha)|].
  split; [exact (leb_trans _ _ _ Hb Hj1)|].
  split; [exact (leb_trans _ _ _ Hf0 Hc)|exact (leb_trans _ _ _ Hd Hf1)].
Qed.

Lemma retry_delay_bounds_witness :
  (1 <= 3)%Z /\ (0 <=? 0.75) = true /\ (0.75 <? 1) = true /\
  calculateRetryDelay 0.75 3 = 4300 /\
  (4000 <=? calculateRetryDelay 0.75 3) = true /\
  (calculateRetryDelay 0.75 3 <=? 1.1 * 4000) = true.
Proof.
  split; [lia|]. split; [reflexivity|]. split; [reflexivity|].
  split; [reflexivity|].
  destruct (retry_delay_bounds 3 0.75 ltac:(lia) eq_refl eq_refl)
    as (_ & _ & _ & Hlo & Hhi).
  split; [exact Hlo|exact Hhi].
Defined.

End RetryDelay.

(** ** The median *)

Module Median.
Import PriceOracle Spec FloatOrder FloatFacts Rounding.
Local Open Scope float_scope.

Section Rearranged.
Context {A : Type} (compare : A -> A -> number).






End Rearranged.

(** The comparator of [calculateMedian]. *)
Abbreviation difference := (fun a b : number => a - b) (only parsing).













(** The binary search does not depend on the iterations it is allowed, once
    they cover the gap between [left] and [right]. *)
Lemma insertionPoint_fuel {A} (compare : A -> A -> number) (pivot : A)
    (work : list A) :
  forall fuel fuel' left right,
    (right - left <= fuel)%nat -> (right - left <= fuel')%nat ->
    insertionPoint compare fuel pivot work left right =
    insertionPoint compare fuel' pivot work left right.
Proof.
  induction fuel as [|fuel IH]; intros fuel' left right H H'.
  - destruct fuel' as [|fuel']; cbn [insertionPoint]; [reflexivity|].
    destruct (Nat.ltb_spec left right); [lia|reflexivity].
  - destruct fuel' as [|fuel']; cbn [insertionPoint];
      destruct (Nat.ltb_spec left right) as [Hlt|Hge]; try reflexivity; [lia|].
    assert (Hhalf : ((right - left) / 2 < right - left)%nat)
      by (apply Nat.div_lt; lia).
    destruct (work !! (left + (right - left) / 2)%nat); [|reflexivity].
    destruct (before compare pivot a); apply IH; lia.
Qed.



(** Two arrays with a NaN. In [3, NaN, 1] both comparisons give NaN, the
    array is one run and stays as it is, and the median is the NaN in the
    middle. In [5, NaN, 4, 3, 2, 1] the run ends after the 4, and the
    binary search puts 3, 2 and 1 between the NaN and the 4, each before the
    one placed last. *)
Example sort_with_nan :
  sort (fun a b => a - b) [3; nan; 1] = [3; nan; 1] /\
  is_nan (calculateMedian [3; nan; 1]) = true /\
  sort (fun a b => a - b) [5; nan; 4; 3; 2; 1] = [5; nan; 1; 2; 3; 4] /\
  calculateMedian [5; nan; 4; 3; 2; 1] = 1.5.
Proof. repeat split. Qed.




End Median.

(** ** Grouping by pair *)

Module Grouping.
Import PriceOracle Spec Rules.

Lemma dedup_first_snoc (x : string) (xs : list string) :
  forall seen,
    dedup_first seen (xs ++ [x]) =
    dedup_first seen xs ++
      (if existsb (String.eqb x) seen || existsb (String.eqb x) xs then [] else [x]).
Proof.
  induction xs as [|y xs IH]; intros seen; cbn [dedup_first app existsb].
  - rewrite orb_false_r. destruct (existsb _ seen); reflexivity.
  - destruct (existsb (String.eqb y) seen) eqn:Hy.
    + rewrite IH. f_equal.
      destruct (String.eqb x y) eqn:E; [|reflexivity].
      apply String.eqb_eq in E. subst y. rewrite Hy. reflexivity.
    + cbn [app]. rewrite IH. cbn [existsb]. f_equal. f_equal.
      destruct (String.eqb x y), (existsb (String.eqb x) seen),
        (existsb (String.eqb x) xs); reflexivity.
Qed.

Lemma dedup_first_In (x : string) (xs : list string) :
  forall seen,
    In x (dedup_first seen xs) <-> In x xs /\ existsb (String.eqb x) seen = false.
Proof.
  induction xs as [|y xs IH]; intros seen; cbn [dedup_first In].
  - tauto.
  - destruct (existsb (String.eqb y) seen) eqn:Hy.
    + rewrite IH. split; [tauto|]. intros [[->|H] Hx]; [congruence|tauto].
    + cbn [In]. rewrite IH. cbn [existsb].
      destruct (String.eqb x y) eqn:E.
      * apply String.eqb_eq in E. subst y. cbn [orb]. split; [|tauto].
        intros [_|[_ H]]; [tauto|discriminate].
      * apply String.eqb_neq in E. cbn [orb]. split.
        -- intros [->|H]; [congruence|tauto].
        -- intros [[->|H] Hx]; [congruence|tauto].
Qed.

Lemma dedup_first_NoDup (xs : list string) :
  forall seen, List.NoDup (dedup_first seen xs).
Proof.
  induction xs as [|y xs IH]; intros seen; cbn [dedup_first].
  - apply List.NoDup_nil.
  - destruct (existsb (String.eqb y) seen); [apply IH|].
    apply List.NoDup_cons; [|apply IH].
    rewrite dedup_first_In. cbn [existsb]. rewrite String.eqb_refl.
    intros [_ H]. discriminate.
Qed.

Lemma existsb_eqb_In (x : string) (l : list string) :
  existsb (String.eqb x) l = true <-> In x l.
Proof.
  rewrite List.existsb_exists. split.
  - intros (y & Hy & E). apply String.eqb_eq in E. subst y. exact Hy.
  - intros H. exists x. split; [exact H|apply String.eqb_refl].
Qed.

Lemma membersOf_snoc (k : string) (pre : list OracleData) (d : OracleData) :
  membersOf k (pre ++ [d]) =
  membersOf k pre ++ (if String.eqb (keyOf d) k then [d] else []).
Proof. unfold membersOf. rewrite List.filter_app. reflexivity. Qed.

Lemma members_unchanged (pre : list OracleData) (d : OracleData) (keys : list string) :
  ~ In (keyOf d) keys ->
  List.map (fun k => (k, membersOf k pre)) keys =
  List.map (fun k => (k, membersOf k (pre ++ [d]))) keys.
Proof.
  intros Hnotin. apply List.map_ext_in. intros k Hk.
  rewrite membersOf_snoc.
  destruct (String.eqb (keyOf d) k) eqn:E; [|rewrite List.app_nil_r; reflexivity].
  apply String.eqb_eq in E. subst k. contradiction.
Qed.

(** One step of the loop of [groupDataByPair], on groups that are the
    members of the data seen so far. *)
Lemma group_push_members (pre : list OracleData) (d : OracleData) (keys : list string) :
  List.NoDup keys ->
  group_push (keyOf d) d (List.map (fun k => (k, membersOf k pre)) keys) =
  List.map (fun k => (k, membersOf k (pre ++ [d]))) keys ++
    (if existsb (String.eqb (keyOf d)) keys then []
     else [(keyOf d, [d])]).
Proof.
  induction keys as [|k keys IH]; intros Hnd; cbn [List.map group_push existsb app].
  - reflexivity.
  - apply List.NoDup_cons_iff in Hnd as [Hnotin Hnd].
    rewrite membersOf_snoc.
    rewrite (String.eqb_sym (keyOf d) k).
    destruct (String.eqb k (keyOf d)) eqn:E; cbn [orb app].
    + apply String.eqb_eq in E. subst k. rewrite List.app_nil_r. f_equal.
      apply members_unchanged, Hnotin.
    + rewrite List.app_nil_r. f_equal. apply IH, Hnd.
Qed.

Lemma fold_left_snoc {A B} (f : A -> B -> A) (l : list B) (x : B) (a : A) :
  fold_left f (l ++ [x]) a = f (fold_left f l a) x.
Proof. rewrite List.fold_left_app. reflexivity. Qed.

Lemma groupDataByPair_spec (data : list OracleData) :
  groupDataByPair data =
  List.map (fun k => (k, membersOf k data)) (dedup_first [] (List.map keyOf data)).
Proof.
  unfold groupDataByPair. fold keyOf.
  change (fun grouped oracleData =>
            let priceData := value oracleData in
            let pairKey := pairKeyOf (base priceData) (quote priceData) in
            group_push pairKey oracleData grouped)
    with (fun grouped oracleData => group_push (keyOf oracleData) oracleData grouped).
  induction data as [|d pre IH] using List.rev_ind; [reflexivity|].
  rewrite fold_left_snoc, IH, List.map_app. cbn [List.map].
  rewrite dedup_first_snoc. cbn [existsb orb].
  change (pairKeyOf (base (value d)) (quote (value d))) with (keyOf d).
  rewrite group_push_members by apply dedup_first_NoDup.
  rewrite List.map_app.
  assert (Hex : existsb (String.eqb (keyOf d)) (dedup_first [] (List.map keyOf pre)) =
                existsb (String.eqb (keyOf d)) (List.map keyOf pre)).
  { apply eq_true_iff_eq. rewrite !existsb_eqb_In, dedup_first_In. cbn [existsb].
    tauto. }
  rewrite Hex. destruct (existsb _ (List.map keyOf pre)) eqn:Hin; cbn [List.map].
  - reflexivity.
  - f_equal. f_equal. f_equal. unfold membersOf.
    rewrite List.filter_app. cbn [List.filter]. rewrite String.eqb_refl.
    rewrite Outliers.filter_none; [reflexivity|].
    intros d' Hd'. apply String.eqb_neq. intros E.
    assert (Hc : existsb (String.eqb (keyOf d)) (List.map keyOf pre) = true)
      by (apply existsb_eqb_In; rewrite <- E; apply List.in_map, Hd').
    congruence.
Qed.

(** X1: [groupDataByPair] makes one group per pair key, in the order in
    which the keys first appear in the data, and the group of a key holds
    exactly the observations with that key, in their order in the data: no
    observation is lost, duplicated or moved to another pair. No two groups
    share a key and no group is empty. *)
Theorem groupDataByPair_members (data : list OracleData) :
  groupDataByPair data =
    List.map (fun k => (k, membersOf k data)) (dedup_first [] (List.map keyOf data)) /\
  List.NoDup (List.map fst (groupDataByPair data)) /\
  (forall k ds, In (k, ds) (groupDataByPair data) -> ds <> []) /\
  (forall d, In d data -> In d (membersOf (keyOf d) data)).
Proof.
  split; [apply groupDataByPair_spec|].
  destruct (Aggregation.groupDataByPair_ok data) as [Hnd Hall].
  split; [exact Hnd|]. split.
  - intros k ds Hin. rewrite List.Forall_forall in Hall.
    exact (proj1 (Hall _ Hin)).
  - intros d Hd. apply List.filter_In. split; [exact Hd|apply String.eqb_refl].
Qed.

End Grouping.

(** ** NaN in arithmetic *)

Module NaN.
Local Open Scope float_scope.

Lemma is_nan_nan_eq (x : float) : is_nan x = true -> x = nan.
Proof.
  intros H. apply FloatFacts.is_nan_spec in H.
  rewrite <- (SF2Prim_Prim2SF x), H. reflexivity.
Qed.

Lemma add_nan_l (x y : float) : is_nan x = true -> is_nan (x + y) = true.
Proof.
  intros H. apply FloatFacts.is_nan_spec in H. apply FloatFacts.is_nan_spec.
  rewrite add_spec, H. reflexivity.
Qed.

Lemma add_nan_r (x y : float) : is_nan y = true -> is_nan (x + y) = true.
Proof.
  intros H. apply FloatFacts.is_nan_spec in H. apply FloatFacts.is_nan_spec.
  rewrite add_spec, H. destruct (Prim2SF x) as [s|s| |s m e]; reflexivity.
Qed.

Lemma sub_nan_r (x y : float) : is_nan y = true -> is_nan (x - y) = true.
Proof.
  intros H. apply FloatFacts.is_nan_spec in H. apply FloatFacts.is_nan_spec.
  rewrite sub_spec, H. destruct (Prim2SF x) as [s|s| |s m e]; reflexivity.
Qed.

Lemma div_nan_l (x y : float) : is_nan x = true -> is_nan (x / y) = true.
Proof.
  intros H. apply FloatFacts.is_nan_spec in H. apply FloatFacts.is_nan_spec.
  rewrite div_spec, H. reflexivity.
Qed.

Lemma abs_nan (x : float) : is_nan x = true -> is_nan (abs x) = true.
Proof.
  intros H. apply FloatFacts.is_nan_spec in H. apply FloatFacts.is_nan_spec.
  rewrite abs_spec, H. reflexivity.
Qed.

Lemma leb_nan_l (x t : float) : is_nan x = true -> (x <=? t) = false.
Proof.
  intros H. apply FloatFacts.is_nan_spec in H. rewrite leb_spec, H. reflexivity.
Qed.

Lemma leb_nan_r (x t : float) : is_nan x = true -> (t <=? x) = false.
Proof.
  intros H. apply FloatFacts.is_nan_spec in H. rewrite leb_spec, H.
  destruct (Prim2SF t) as [s|s| |s m e]; reflexivity.
Qed.

(** A sum with a NaN term is NaN. *)
Lemma fold_add_nan (values : list float) (acc : float) :
  is_nan acc = true ->
  is_nan (fold_left (fun sum v => sum + v) values acc) = true.
Proof.
  revert acc. induction values as [|v values IH]; intros acc H; cbn [fold_left];
    [exact H|].
  apply IH, add_nan_l, H.
Qed.

Lemma sum_nan (values : list float) (v : float) :
  In v values -> is_nan v = true -> is_nan (sum values) = true.
Proof.
  unfold sum. generalize 0. induction values as [|x values IH]; intros acc Hin Hv;
    [destruct Hin|].
  cbn [fold_left]. destruct Hin as [->|Hin].
  - apply fold_add_nan, add_nan_r, Hv.
  - apply IH; assumption.
Qed.

End NaN.

(** ** Outlier removal *)

Module OutlierFacts.
Import PriceOracle NaN.
Local Open Scope float_scope.

Lemma filter_sublist {A} (f : A -> bool) (l : list A) : sublist (List.filter f l) l.
Proof.
  induction l as [|x l IH]; cbn [List.filter]; [constructor|].
  destruct (f x); [apply sublist_skip|apply sublist_cons]; exact IH.
Qed.

(** X2: [removeOutliers] only ever drops observations: what it returns is a
    sub-sequence of its argument, in the same order. A group of at most two
    observations is returned as it is, whatever the threshold; of a larger
    group, every observation that is kept has a z-score that is at most the
    threshold. *)
Theorem removeOutliers_sublist (cfg : PriceOracleConfig) (data : list OracleData) :
  sublist (removeOutliers cfg data) data /\
  ((length data <= 2)%nat -> removeOutliers cfg data = data) /\
  ((2 < length data)%nat ->
   forall d, In d (removeOutliers cfg data) ->
     (zScore (mean (prices data)) (calculateStandardDeviation (prices data)) d
      <=? outlierThreshold cfg) = true).
Proof.
  unfold removeOutliers.
  destruct (length data <=? 2)%nat eqn:E.
  - apply Nat.leb_le in E. split; [reflexivity|]. split; [reflexivity|lia].
  - apply Nat.leb_gt in E. split; [apply filter_sublist|]. split; [lia|].
    intros _ d Hd. apply List.filter_In in Hd. tauto.
Qed.

Lemma removeOutliers_sublist_witness :
  (2 < length Scenario.identical)%nat /\
  sublist (removeOutliers Scenario.config22 Scenario.identical) Scenario.identical.
Proof.
  split; [cbn; lia|].
  exact (proj1 (removeOutliers_sublist Scenario.config22 Scenario.identical)).
Defined.

(** X3: one observation whose price is NaN empties a group of three or more:
    the mean is NaN, so is every z-score, no comparison with NaN holds, and
    [removeOutliers] keeps nothing, whatever the threshold and the other
    prices are. *)
Theorem nan_price_empties_group (cfg : PriceOracleConfig) (data : list OracleData)
    (d : OracleData) :
  (2 < length data)%nat -> In d data -> is_nan (price (value d)) = true ->
  removeOutliers cfg data = [].
Proof.
  intros Hlen Hin Hnan. unfold removeOutliers.
  destruct (length data <=? 2)%nat eqn:E; [apply Nat.leb_le in E; lia|].
  apply Outliers.filter_none. intros d' _.
  apply leb_nan_l. unfold zScore, Math_abs.
  apply abs_nan, div_nan_l, sub_nan_r. unfold mean.
  apply div_nan_l. apply (sum_nan _ (price (value d))); [|exact Hnan].
  unfold prices. apply (List.in_map (fun d => price (value d))), Hin.
Qed.

Lemma nan_price_empties_group_witness :
  let data := [Scenario.observation "coingecko" 100; Scenario.observation "binance" nan;
               Scenario.observation "coinmarketcap" 101] in
  (2 < length data)%nat /\ removeOutliers Scenario.config22 data = [].
Proof.
  split; [cbn; lia|].
  apply (nan_price_empties_group _ _ (Scenario.observation "binance" nan));
    [cbn; lia|right; left; reflexivity|reflexivity].
Defined.

End OutlierFacts.

(** ** The aggregated observation *)

Module Aggregate.
Import PriceOracle FloatOrder FloatFacts Rounding.
Local Open Scope float_scope.

Lemma Math_max_neg_infinity (x : float) : Math_max neg_infinity x = x.
Proof.
  unfold Math_max. destruct (is_nan x) eqn:Hx.
  - rewrite orb_true_r. symmetry. apply NaN.is_nan_nan_eq, Hx.
  - change (is_nan neg_infinity) with false. cbn [orb].
    destruct (neg_infinity <? x) eqn:E1; [reflexivity|].
    destruct (x <? neg_infinity) eqn:E2; [|reflexivity].
    apply leb_of_ltb in E2. apply leb_keys in E2 as (Hn & _ & Hk).
    apply key_bottom in Hk; [|exact Hn].
    rewrite <- (SF2Prim_Prim2SF x), Hk. reflexivity.
Qed.

(** The running maximum of [Math.max(...values)]. *)
Lemma fold_Math_max (values : list float) :
  forall acc,
    is_nan acc = false -> (forall v, In v values -> is_nan v = false) ->
    let m := fold_left Math_max values acc in
    In m (acc :: values) /\ (acc <=? m) = true /\
    forall v, In v values -> (v <=? m) = true.
Proof.
  induction values as [|x values IH]; intros acc Hacc Hall; cbn [fold_left].
  - split; [left; reflexivity|]. split; [apply leb_refl, Hacc|intros v []].
  - assert (Hx : is_nan x = false) by (apply Hall; left; reflexivity).
    destruct (Math_max_spec acc x Hacc Hx) as (Hor & Hle1 & Hle2).
    assert (Hm : is_nan (Math_max acc x) = false)
      by (destruct Hor as [-> | ->]; assumption).
    destruct (IH (Math_max acc x) Hm (fun v Hv => Hall v (or_intror Hv)))
      as (Hin & Hge & Hrest).
    split; [|split].
    + destruct Hin as [Hin|Hin]; [|right; right; exact Hin].
      rewrite <- Hin. destruct Hor as [-> | ->]; [left|right; left]; reflexivity.
    + exact (leb_trans _ _ _ Hle1 Hge).
    + intros v [<-|Hv]; [exact (leb_trans _ _ _ Hle2 Hge)|exact (Hrest v Hv)].
Qed.

Lemma Math_max_all_spec (values : list float) :
  values <> [] -> (forall v, In v values -> is_nan v = false) ->
  In (Math_max_all values) values /\
  forall v, In v values -> (v <=? Math_max_all values) = true.
Proof.
  intros Hne Hall. unfold Math_max_all.
  destruct values as [|x values]; [congruence|]. cbn [fold_left].
  rewrite Math_max_neg_infinity.
  assert (Hx : is_nan x = false) by (apply Hall; left; reflexivity).
  destruct (fold_Math_max values x Hx (fun v Hv => Hall v (or_intror Hv)))
    as (Hin & Hge & Hrest).
  split; [exact Hin|]. intros v [<-|Hv]; [exact Hge|exact (Hrest v Hv)].
Qed.

(** X4: of a group that is not empty, [aggregatePrices] returns an
    observation (it throws only on an empty group) that carries the base and
    quote of the first member and the size of the group as [sourceCount];
    [sources] names every source that contributed exactly once (a source that
    contributed twice is listed once), and [outliers] is always empty. *)
Theorem aggregatePrices_sources (cfg : PriceOracleConfig) (data : list OracleData) :
  match data with
  | [] => exists e, aggregatePrices cfg data = Throw e
  | first :: _ =>
      exists a,
        aggregatePrices cfg data = Ok a /\
        ag_base a = base (value first) /\ ag_quote a = quote (value first) /\
        sourceCount a = length data /\
        List.NoDup (ag_sources a) /\
        (forall s, In s (ag_sources a) <-> exists d, In d data /\ od_source d = s) /\
        outliers a = []
  end.
Proof.
  destruct data as [|first rest]; [eexists; reflexivity|].
  eexists. split; [reflexivity|]. cbn [ag_base ag_quote sourceCount ag_sources outliers].
  repeat split; try reflexivity.
  - apply Grouping.dedup_first_NoDup.
  - intros H. apply Grouping.dedup_first_In in H as [H _].
    apply List.in_map_iff in H as (d & Hd & Hin). exists d. tauto.
  - intros (d & Hin & Hd). apply Grouping.dedup_first_In. split; [|reflexivity].
    rewrite <- Hd. apply List.in_map, Hin.
Qed.

(** X5: when no timestamp of the group is NaN, the aggregated observation
    carries the timestamp of the newest member: it is the timestamp of some
    member, and no member has a later one. *)
Theorem aggregatePrices_timestamp (cfg : PriceOracleConfig) (data : list OracleData)
    (a : AggregatedPriceData) :
  aggregatePrices cfg data = Ok a ->
  (forall d, In d data -> is_nan (timestamp (value d)) = false) ->
  (exists d, In d data /\ timestamp (value d) = ag_timestamp a) /\
  forall d, In d data -> (timestamp (value d) <=? ag_timestamp a) = true.
Proof.
  intros Hagg Hall. unfold aggregatePrices in Hagg.
  destruct data as [|first rest] eqn:Hdata; [discriminate|].
  rewrite <- Hdata in *. injection Hagg as <-. cbn [ag_timestamp].
  destruct (Math_max_all_spec (List.map (fun d => timestamp (value d)) data))
    as [Hin Hge].
  - rewrite Hdata. discriminate.
  - intros v Hv. apply List.in_map_iff in Hv as (d & <- & Hd). apply Hall, Hd.
  - split.
    + apply List.in_map_iff in Hin as (d & Hd & Hin). exists d. tauto.
    + intros d Hd. apply Hge. apply (List.in_map (fun d => timestamp (value d))), Hd.
Qed.

Lemma aggregatePrices_timestamp_witness :
  exists a,
    aggregatePrices Scenario.config22 Scenario.identical = Ok a /\
    (1700000000000 <=? ag_timestamp a) = true.
Proof.
  eexists. split; [reflexivity|].
  refine (proj2 (aggregatePrices_timestamp Scenario.config22 Scenario.identical _
                   eq_refl _) (Scenario.observation "binance" 100) _).
  - intros d [<-|[<-|[<-|[]]]]; reflexivity.
  - right. left. reflexivity.
Defined.

End Aggregate.

(** ** Validation *)

Module Validation.
Import PriceOracle Spec Rules.
Local Open Scope float_scope.

Section Validate.
Variable cfg : PriceOracleConfig.
Variable env : Env.

Lemma validateOne_errors (pairKey : string) (pair : TradingPair) (ds : list OracleData) :
  forall errors warnings,
  exists extra,
    fst (fold_left (validateOne cfg env pairKey pair) ds (errors, warnings)) =
      errors ++ extra /\
    (extra = [] <-> forallb (inRange pair) ds = true).
Proof.
  induction ds as [|d ds IH]; intros errors warnings; cbn [fold_left forallb].
  - exists []. rewrite List.app_nil_r. tauto.
  - unfold validateOne at 2. unfold inRange at 1.
    destruct ((price (value d) <? minPrice pair) || (maxPrice pair <? price (value d)));
      cbn [negb andb];
      match goal with
      | |- context [fold_left _ ds (?e, ?w)] => destruct (IH e w) as (extra & Hfst & Hiff)
      end.
    + eexists. rewrite Hfst, <- List.app_assoc. split; [reflexivity|].
      cbn. split; discriminate.
    + exists extra. split; assumption.
Qed.

Lemma validatePair_errors (entry : string * list OracleData) :
  forall errors warnings,
  exists extra,
    fst (validatePair cfg env (errors, warnings) entry) = errors ++ extra /\
    (extra = [] <-> groupAccepted cfg entry = true).
Proof.
  intros errors warnings. destruct entry as [pairKey pairData].
  unfold validatePair, groupAccepted. cbn [fst snd].
  destruct (findPair cfg pairKey) as [tradingPair|].
  - destruct (of_nat (length pairData) <? minSourcesRequired cfg); cbn [negb andb].
    + eexists. split; [reflexivity|]. split; discriminate.
    + destruct (validateOne_errors pairKey tradingPair pairData errors warnings)
        as (extra & Hfst & Hiff).
      destruct (fold_left _ pairData (errors, warnings)) as [errors' warnings'].
      cbn [fst] in Hfst. exists extra.
      destruct (_ <? _); cbn [fst]; split; assumption.
  - eexists. split; [reflexivity|]. split; discriminate.
Qed.

Lemma validatePairs_errors (groups : list (string * list OracleData)) :
  forall errors warnings,
  exists extra,
    fst (fold_left (validatePair cfg env) groups (errors, warnings)) = errors ++ extra /\
    (extra = [] <-> forallb (groupAccepted cfg) groups = true).
Proof.
  induction groups as [|entry groups IH]; intros errors warnings;
    cbn [fold_left forallb].
  - exists []. rewrite List.app_nil_r. tauto.
  - destruct (validatePair_errors entry errors warnings) as (extra1 & H1 & Hiff1).
    destruct (validatePair cfg env (errors, warnings) entry) as [errors1 warnings1].
    cbn [fst] in H1. subst errors1.
    destruct (IH (errors ++ extra1) warnings1) as (extra2 & H2 & Hiff2).
    exists (extra1 ++ extra2). rewrite H2, List.app_assoc. split; [reflexivity|].
    rewrite andb_true_iff, <- Hiff1, <- Hiff2. split.
    + intros H. apply List.app_eq_nil in H. exact H.
    + intros [-> ->]. reflexivity.
Qed.

Lemma validateData_spec (data : list OracleData) (st : State) :
  exists validation,
    validateData cfg env data st = (Ok validation, st) /\
    isValid validation = forallb (groupAccepted cfg) (groupDataByPair data) /\
    (isValid validation = true <-> errors validation = []).
Proof.
  unfold validateData.
  destruct (validatePairs_errors (groupDataByPair data) [] []) as (extra & Hfst & Hiff).
  destruct (fold_left _ (groupDataByPair data) ([], [])) as [errs warns].
  cbn [fst app] in Hfst. subst extra.
  eexists. split; [reflexivity|]. cbn [isValid errors].
  assert (Hlen : (length errs =? 0)%nat = true <-> errs = []).
  { rewrite Nat.eqb_eq. destruct errs; cbn; split; congruence. }
  split; [|exact Hlen].
  apply eq_true_iff_eq. rewrite Hlen. exact Hiff.
Qed.

(** X6: [validateData] never throws and leaves the state as it is. The
    data are valid exactly when every group of [groupDataByPair] belongs to a
    supported pair, is not smaller than [minSourcesRequired] and has no price
    below [minPrice] or above [maxPrice] of its pair. Stale timestamps and a
    high deviation only add warnings: the clock and [maxPriceAge] have no
    part in the verdict. One group that fails makes the data of the whole
    cycle invalid. *)
Theorem validateData_accepts (data : list OracleData) (st : State) :
  exists validation,
    validateData cfg env data st = (Ok validation, st) /\
    isValid validation = forallb (groupAccepted cfg) (groupDataByPair data) /\
    (isValid validation = true <-> errors validation = []) /\
    (forall entry, In entry (groupDataByPair data) -> groupAccepted cfg entry = false ->
       isValid validation = false).
Proof.
  destruct (validateData_spec data st) as (validation & Hrun & Hvalid & Herr).
  exists validation. split; [exact Hrun|]. split; [exact Hvalid|].
  split; [exact Herr|].
  intros entry Hin Hbad. rewrite Hvalid.
  destruct (forallb _ _) eqn:E; [|reflexivity].
  rewrite List.forallb_forall in E. rewrite (E entry Hin) in Hbad. discriminate.
Qed.

End Validate.
End Validation.

(** ** The update gate, for every price *)

Module Gate.
Import PriceOracle Spec FloatFacts.
Local Open Scope float_scope.

(** The change in percent from a price to itself is [0] or NaN. *)
Lemma change_to_itself (p : float) :
  let changePercent := Math_abs ((p - p) / p) * 100 in
  changePercent = 0 \/ is_nan changePercent = true.
Proof.
  cbv zeta. unfold Math_abs.
  assert (H : Prim2SF (abs ((p - p) / p) * 100) = S754_zero false \/
              Prim2SF (abs ((p - p) / p) * 100) = S754_nan).
  { rewrite mul_spec, abs_spec, div_spec, sub_spec.
    change (Prim2SF 100) with (S754_finite false 7036874417766400 (-46)).
    destruct (Prim2SF p) as [s|s| |s m e].
    - destruct s; right; reflexivity.
    - destruct s; right; reflexivity.
    - right; reflexivity.
    - left. unfold SF64sub, SFsub. rewrite Z.sub_diag. reflexivity. }
  destruct H as [H|H].
  - left. rewrite <- (SF2Prim_Prim2SF (abs ((p - p) / p) * 100)), H. reflexivity.
  - right. apply is_nan_spec, H.
Qed.

Lemma shouldUpdate_same (cfg : PriceOracleConfig) (p : float) :
  (deviationThreshold cfg <=? 0) = false -> shouldUpdate cfg p p = false.
Proof.
  intros Hthr. unfold shouldUpdate.
  destruct (change_to_itself p) as [H|H]; cbv zeta in H.
  - rewrite H. exact Hthr.
  - apply NaN.leb_nan_r, H.
Qed.

Lemma processPairs_ledger (cfg : PriceOracleConfig)
    (groups : list (string * list OracleData)) :
  forall acc st, ledger (snd (processPairs cfg groups acc st)) = ledger st.
Proof.
  induction groups as [|[k ds] groups IH]; intros acc st; cbn [processPairs];
    [reflexivity|].
  destruct (findPair cfg k); [|apply IH].
  destruct (length ds =? 0)%nat; [apply IH|].
  destruct (_ <? _); [apply IH|].
  destruct (aggregatePrices cfg (removeOutliers cfg ds)); [|reflexivity].
  rewrite IH. reflexivity.
Qed.

Lemma processData_ledger (cfg : PriceOracleConfig) (data : list OracleData) (st : State) :
  ledger (snd (processData cfg data st)) = ledger st.
Proof.
  unfold processData.
  pose proof (processPairs_ledger cfg (groupDataByPair data) [] st) as H.
  destruct (processPairs cfg (groupDataByPair data) [] st) as [[[|first rest]|e] st1];
    exact H.
Qed.

(** A cycle of a [PriceOracle] whose deviation threshold is not [<= 0]. *)
Lemma pipeline_skips (cfg : PriceOracleConfig) (env : Env)
    (o : OracleBase.Oracle State) :
  (deviationThreshold cfg <=? 0) = false ->
  let r := Scenario.pipeline cfg env o in
  ledger (OracleBase.derived (snd r)) = ledger (OracleBase.derived o) /\
  (forall txHash, fst r = Ok txHash -> txHash = "skipped").
Proof.
  intros Hthr r.
  assert (Hr : r = Scenario.pipeline cfg env o) by reflexivity. clearbody r.
  unfold Scenario.pipeline, OracleBase.pipeline, OracleBase.fetchDataWithRetry in Hr.
  destruct (Z.to_nat _) as [|fuel]; cbn [OracleBase.fetchAttempts] in Hr;
    [subst r; split; [reflexivity|intros tx H; discriminate H]|].
  unfold fetchData at 1 in Hr. rewrite Aggregation.set_derived_id in Hr.
  unfold validateData at 1 in Hr.
  destruct (fold_left _ _ _) as [errs warns].
  cbn [isValid OracleBase.derived OracleBase.set_derived] in Hr.
  rewrite Aggregation.set_derived_id in Hr.
  destruct (negb _); [subst r; split; [reflexivity|intros tx H; discriminate H]|].
  pose proof (processData_ledger cfg
                (flat_map (fun pair => if isActive pair
                                       then fetchFromSources
                                              (Oracle.initializeDataSources cfg) env pair
                                       else [])
                   (supportedPairs cfg)) (OracleBase.derived o)) as Hl.
  destruct (processData cfg _ (OracleBase.derived o)) as [[p|e] st1] eqn:Hp;
    cbn [snd] in Hl; cbn [OracleBase.derived OracleBase.set_derived] in Hr;
    [|subst r; split; [exact Hl|intros tx H; discriminate H]].
  rewrite (Aggregation.gate_compares_price_with_itself cfg env _ _ _ _ Hp) in Hr.
  rewrite (shouldUpdate_same cfg _ Hthr) in Hr. subst r.
  cbn [fst snd OracleBase.derived OracleBase.set_derived].
  split; [exact Hl|]. intros txHash [= <-]. reflexivity.
Qed.

Lemma stop_derived {W} (o : OracleBase.Oracle W) :
  OracleBase.derived (OracleBase.stop o) = OracleBase.derived o.
Proof.
  unfold OracleBase.stop. destruct (OracleBase.isRunning o); cbn; [|reflexivity].
  destruct (OracleBase.updateTimer o); reflexivity.
Qed.

Lemma performUpdate_ledger (cfg : PriceOracleConfig) (env : Env)
    (o : OracleBase.Oracle State) :
  (deviationThreshold cfg <=? 0) = false ->
  ledger (OracleBase.derived (snd (Oracle.performUpdate cfg env o)))
  = ledger (OracleBase.derived o).
Proof.
  intros Hthr. destruct (pipeline_skips cfg env o Hthr) as [Hl _].
  unfold Oracle.performUpdate, OracleBase.performUpdate.
  unfold Scenario.pipeline in Hl.
  destruct (OracleBase.pipeline _ _ _ _ _ o) as [[txHash|e] o1]; cbn [snd] in Hl.
  - exact Hl.
  - cbn. destruct (_ <=? _)%Z; cbn [snd]; [rewrite stop_derived|]; exact Hl.
Qed.

(** X7: as long as the deviation threshold is not zero or negative (it is
    1 percent by default), no operation of a [PriceOracle] ever hands a
    transaction to the ledger client. [processData] stores the new price
    before the gate reads the "last" one, the gate compares every price with
    itself, and each cycle that gets as far as the gate ends in ["skipped"];
    this holds for every configuration, every answer of the sources and
    every earlier state, for the cycles run by [start], by the timer and by
    [forceUpdate] alike. *)
Theorem positive_threshold_never_sends (cfg : PriceOracleConfig) (env : Env)
    (o : OracleBase.Oracle State) (h : nat) :
  (deviationThreshold cfg <=? 0) = false ->
  (forall txHash, fst (Scenario.pipeline cfg env o) = Ok txHash -> txHash = "skipped") /\
  ledger (OracleBase.derived (snd (Oracle.performUpdate cfg env o)))
    = ledger (OracleBase.derived o) /\
  ledger (OracleBase.derived (snd (Oracle.start cfg env o)))
    = ledger (OracleBase.derived o) /\
  ledger (OracleBase.derived (Oracle.onTimer cfg env h o))
    = ledger (OracleBase.derived o).
Proof.
  intros Hthr.
  split; [exact (proj2 (pipeline_skips cfg env o Hthr))|].
  split; [exact (performUpdate_ledger cfg env o Hthr)|].
  split.
  - unfold Oracle.start, OracleBase.start.
    destruct (OracleBase.isRunning o); [reflexivity|].
    destruct (negb _); [reflexivity|].
    pose proof (performUpdate_ledger cfg env (OracleBase.set_isRunning true o) Hthr) as H.
    unfold Oracle.performUpdate in H.
    destruct (OracleBase.performUpdate _ _ _ _ _ _ _) as [[u|e] o1]; cbn [snd] in *.
    + unfold OracleBase.scheduleUpdates. destruct (negb _); exact H.
    + exact H.
  - unfold Oracle.onTimer, OracleBase.onTimer.
    pose proof (performUpdate_ledger cfg env (OracleBase.fire h o) Hthr) as H.
    unfold Oracle.performUpdate in H.
    destruct (OracleBase.performUpdate _ _ _ _ _ _ _) as [r o1]; cbn [snd] in *.
    unfold OracleBase.scheduleUpdates. destruct (negb _); exact H.
Qed.

Lemma positive_threshold_never_sends_witness :
  let env := Scenario.answers 100 150 200 in
  let o := Oracle.new Scenario.config22 in
  (deviationThreshold Scenario.config22 <=? 0) = false /\
  ledger (OracleBase.derived (snd (Oracle.start Scenario.config22 env o))) = [].
Proof.
  split; [reflexivity|].
  exact (proj1 (proj2 (proj2 (positive_threshold_never_sends Scenario.config22
                                (Scenario.answers 100 150 200)
                                (Oracle.new Scenario.config22) 0 eq_refl)))).
Defined.

(** *** The stored prices *)

Lemma processPairs_keeps (cfg : PriceOracleConfig)
    (groups : list (string * list OracleData)) (k : string) :
  forall acc st,
    is_Some (lastPrices st !! k) ->
    is_Some (lastPrices (snd (processPairs cfg groups acc st)) !! k).
Proof.
  induction groups as [|[k' ds] groups IH]; intros acc st Hk; cbn [processPairs];
    [exact Hk|].
  destruct (findPair cfg k'); [|apply IH, Hk].
  destruct (length ds =? 0)%nat; [apply IH, Hk|].
  destruct (_ <? _); [apply IH, Hk|].
  destruct (aggregatePrices cfg (removeOutliers cfg ds)); [|exact Hk].
  apply IH. cbn. apply lookup_insert_is_Some'. right. exact Hk.
Qed.

Lemma group_keys (data : list OracleData) (k : string) :
  In k (List.map fst (groupDataByPair data)) -> In k (List.map keyOf data).
Proof.
  rewrite Grouping.groupDataByPair_spec, List.map_map. cbn [fst].
  rewrite List.map_id. intros H. apply Grouping.dedup_first_In in H. tauto.
Qed.

(** X8: what [getCurrentPrice] answers after [processData] has returned an
    observation: that observation for its own pair; for a pair that none of
    the cycle's data belong to, what it answered before; and for no pair
    does an answer turn into [null]: a stored price is replaced by a newer
    one, never dropped, however old it is. *)
Theorem getCurrentPrice_after_processData (cfg : PriceOracleConfig)
    (data : list OracleData) (st st' : State) (p : AggregatedPriceData) :
  processData cfg data st = (Ok p, st') ->
  getCurrentPrice (ag_base p) (ag_quote p) st' = Some p /\
  (forall b q, ~ In (pairKeyOf b q) (List.map keyOf data) ->
     getCurrentPrice b q st' = getCurrentPrice b q st) /\
  (forall b q, is_Some (getCurrentPrice b q st) -> is_Some (getCurrentPrice b q st')).
Proof.
  intros Hp. unfold getCurrentPrice.
  split; [exact (Aggregation.processData_stores cfg data st st' p Hp)|].
  unfold processData in Hp.
  destruct (processPairs cfg (groupDataByPair data) [] st) as [[res|e] st1] eqn:E;
    [|discriminate].
  assert (Hst : st1 = st') by (destruct res; [discriminate|congruence]).
  subst st1. split.
  - intros b q Hnot.
    destruct (Aggregation.processPairs_stores cfg _ _ _ _ _
                (Aggregation.groupDataByPair_ok data) E) as (_ & Hframe & _).
    apply Hframe. intros Hin. apply Hnot, group_keys, Hin.
  - intros b q Hsome.
    pose proof (processPairs_keeps cfg (groupDataByPair data) (pairKeyOf b q) [] st Hsome)
      as H.
    rewrite E in H. exact H.
Qed.

Lemma getCurrentPrice_after_processData_witness :
  let data := [Scenario.observation "coingecko" 100; Scenario.observation "binance" 101;
               Scenario.observation "coinmarketcap" 102] in
  exists p st',
    processData Scenario.config22 data {| lastPrices := ∅; ledger := [] |} = (Ok p, st') /\
    getCurrentPrice (ag_base p) (ag_quote p) st' = Some p.
Proof.
  intros data.
  destruct (processData Scenario.config22 data {| lastPrices := ∅; ledger := [] |})
    as [[p|e] st'] eqn:E; [|vm_compute in E; discriminate E].
  exists p, st'. split; [reflexivity|].
  exact (proj1 (getCurrentPrice_after_processData Scenario.config22 data _ _ _ E)).
Defined.

End Gate.

(** ** Retrying the fetch *)

Module Retry.
Import OracleBase Rules.

Lemma delaysFrom_S (Math_random : Z -> number) (first : Z) (count : nat) :
  delaysFrom Math_random first (S count) =
  calculateRetryDelay (Math_random first) first ::
    delaysFrom Math_random (first + 1) count.
Proof.
  unfold delaysFrom. cbn [seq List.map]. rewrite Z.add_0_r. f_equal.
  rewrite <- List.seq_shift, List.map_map. apply List.map_ext. intros i.
  replace (first + Z.of_nat (S i))%Z with (first + 1 + Z.of_nat i)%Z by lia.
  reflexivity.
Qed.

Section Generic.
Context {W D : Type}.
Variable fetchData : W -> result (list D) * W.
Variable Math_random : Z -> number.

Lemma fetchAttempts_config (fuel : nat) :
  forall attempt lastError (o : Oracle W),
    config (snd (fetchAttempts fetchData Math_random fuel attempt lastError o)) = config o.
Proof.
  intros attempt lastError o.
  exact (proj1 (Controller.fetchAttempts_control fetchData Math_random fuel
                  attempt lastError o)).
Qed.

(** The loop of [fetchDataWithRetry] when each of its calls of [fetchData]
    throws. *)
Lemma fetchAttempts_exhausted :
  forall fuel attempt lastError (o : Oracle W),
    (attempt + Z.of_nat fuel = retryAttempts (config o) + 1)%Z ->
    (forall k, (k < fuel)%nat ->
       is_ok (fst (fetchData (afterCalls fetchData k (derived o)))) = false) ->
    let r := fetchAttempts fetchData Math_random fuel attempt lastError o in
    fst r = match fuel with
            | O => Throw (match lastError with
                          | Some e => e
                          | None => Error_ "All fetch attempts failed"
                          end)
            | S calls => fst (fetchData (afterCalls fetchData calls (derived o)))
            end /\
    derived (snd r) = afterCalls fetchData fuel (derived o) /\
    slept (snd r) = slept o ++ delaysFrom Math_random attempt (fuel - 1).
Proof.
  induction fuel as [|fuel IH]; intros attempt lastError o Hn Hfail;
    cbn [fetchAttempts].
  - cbn. rewrite List.app_nil_r. repeat split.
  - pose proof (Hfail 0%nat ltac:(lia)) as Hf.
    change (afterCalls fetchData 0 (derived o)) with (derived o) in Hf.
    destruct (fetchData (derived o)) as [[data|error] w] eqn:Ef; cbn [fst] in Hf;
      [discriminate|]. clear Hf.
    cbn [set_derived config].
    assert (Hnext : forall k, afterCalls fetchData k w =
                              afterCalls fetchData (S k) (derived o)).
    { intros k. unfold afterCalls. rewrite Nat.iter_succ_r, Ef. reflexivity. }
    destruct fuel as [|fuel].
    + assert (Hlt : (attempt <? retryAttempts (config o))%Z = false)
        by (apply Z.ltb_ge; lia).
      rewrite Hlt. cbn. rewrite List.app_nil_r, Ef. repeat split.
    + assert (Hlt : (attempt <? retryAttempts (config o))%Z = true)
        by (apply Z.ltb_lt; lia).
      rewrite Hlt.
      match goal with
      | |- context [fetchAttempts _ _ _ _ _ ?o1] =>
          destruct (IH (attempt + 1)%Z (Some error) o1) as (Hr & Hd & Hs);
            [cbn; lia
            |intros k Hk; cbn [derived sleep set_derived]; rewrite Hnext;
             apply Hfail; lia|]
      end.
      cbv zeta in Hr, Hd, Hs. cbv zeta. rewrite Hr, Hd, Hs.
      cbn [derived slept sleep set_derived]. rewrite !Hnext.
      split; [reflexivity|]. split; [reflexivity|].
      rewrite <- List.app_assoc. f_equal.
      replace (S (S fuel) - 1)%nat with (S (S fuel - 1)) by lia.
      rewrite delaysFrom_S. reflexivity.
Qed.

(** X9: when each call of [fetchData] that [fetchDataWithRetry] makes
    throws, it calls [fetchData] exactly [retryAttempts] times, one call on
    the state the call before has left, sleeps between two attempts but not
    after the last one (so [retryAttempts - 1] times, with the delays of
    attempts 1, 2, ... in this order), and then throws what the last call
    has thrown, whatever the calls before have thrown. With [retryAttempts]
    at zero or below it does not call [fetchData] at all and throws ["All
    fetch attempts failed"]. *)
Theorem fetchDataWithRetry_exhausted (o : Oracle W) :
  let n := Z.to_nat (retryAttempts (config o)) in
  (forall k, (k < n)%nat ->
     is_ok (fst (fetchData (afterCalls fetchData k (derived o)))) = false) ->
  let r := fetchDataWithRetry fetchData Math_random o in
  if (retryAttempts (config o) <=? 0)%Z
  then r = (Throw (Error_ "All fetch attempts failed"), o)
  else fst r = fst (fetchData (afterCalls fetchData (n - 1) (derived o))) /\
       derived (snd r) = afterCalls fetchData n (derived o) /\
       slept (snd r) = slept o ++ delaysFrom Math_random 1 (n - 1).
Proof.
  intros n Hfail r. subst r. unfold fetchDataWithRetry. fold n.
  destruct (Z.leb_spec (retryAttempts (config o)) 0) as [Hle|Hgt].
  - replace n with 0%nat by lia. reflexivity.
  - destruct (fetchAttempts_exhausted n 1%Z None o ltac:(lia) Hfail)
      as (Hr & Hd & Hs).
    destruct n as [|calls] eqn:E; [lia|].
    replace (S calls - 1)%nat with calls in * by lia.
    split; [exact Hr|]. split; assumption.
Qed.

End Generic.

(** A source that counts its calls and fails each time, the third time with
    another error than before. *)
Lemma fetchDataWithRetry_exhausted_witness :
  let o := create (Oracle.oracleConfig Scenario.config22) 0%nat in
  let fetchData := fun calls : nat =>
    (@Throw (list nat) (Error_ (if (calls =? 2)%nat then "refused" else "timeout")),
     S calls) in
  let r := fetchDataWithRetry fetchData (fun _ => 0.5%float) o in
  retryAttempts (config o) = 3%Z /\
  fst r = Throw (Error_ "refused") /\ derived (snd r) = 3%nat /\
  slept (snd r) = [1050%float; 2100%float].
Proof.
  intros o fetchData r. split; [reflexivity|].
  exact (fetchDataWithRetry_exhausted fetchData (fun _ => 0.5%float) o
           (fun _ _ => eq_refl)).
Defined.

(** The fetch of a [PriceOracle] succeeds at the first attempt. *)
Lemma price_fetch_once (cfg : PriceOracleConfig) (env : PriceOracle.Env)
    (o : Oracle PriceOracle.State) :
  (1 <= retryAttempts (config o))%Z ->
  fetchDataWithRetry
    (PriceOracle.fetchData cfg (Oracle.initializeDataSources cfg) env)
    (PriceOracle.Math_random env) o =
  (fst (PriceOracle.fetchData cfg (Oracle.initializeDataSources cfg) env (derived o)), o).
Proof.
  intros Hn. unfold fetchDataWithRetry.
  destruct (Z.to_nat _) as [|fuel] eqn:E; [lia|].
  cbn [fetchAttempts]. unfold PriceOracle.fetchData. cbn [fst].
  rewrite Aggregation.set_derived_id. reflexivity.
Qed.

Lemma fetchAttempts_zero {W D} (fetchData : W -> result (list D) * W)
    (Math_random : Z -> number) (attempt : Z) (lastError : option exn) (o : Oracle W) :
  snd (fetchAttempts fetchData Math_random 0 attempt lastError o) = o.
Proof. reflexivity. Qed.

Lemma stop_slept {W} (o : Oracle W) : slept (stop o) = slept o.
Proof.
  unfold stop. destruct (isRunning o); cbn; [|reflexivity].
  destruct (updateTimer o); reflexivity.
Qed.

(** X10: [PriceOracle.fetchData] catches the failure of every source itself
    and never throws, so for a price oracle the retry loop stops at its first
    attempt: with [retryAttempts] at 1 or more, [fetchDataWithRetry] returns
    what [fetchData] returns, whatever the sources answer, and no cycle ever
    sleeps a retry delay, not even when every source is down. *)
Theorem price_oracle_never_retries (cfg : PriceOracleConfig) (env : PriceOracle.Env)
    (o : Oracle PriceOracle.State) :
  is_ok (fst (PriceOracle.fetchData cfg (Oracle.initializeDataSources cfg) env
                (derived o))) = true /\
  ((1 <= retryAttempts (config o))%Z ->
   fetchDataWithRetry
     (PriceOracle.fetchData cfg (Oracle.initializeDataSources cfg) env)
     (PriceOracle.Math_random env) o =
   (fst (PriceOracle.fetchData cfg (Oracle.initializeDataSources cfg) env (derived o)),
    o)) /\
  slept (snd (Oracle.performUpdate cfg env o)) = slept o.
Proof.
  split; [reflexivity|]. split; [apply price_fetch_once|].
  unfold Oracle.performUpdate, performUpdate.
  assert (Hp : slept (snd (Scenario.pipeline cfg env o)) = slept o).
  { unfold Scenario.pipeline, pipeline.
    destruct (Z_le_gt_dec 1 (retryAttempts (config o))) as [Hn|Hn].
    - rewrite (price_fetch_once cfg env o Hn). unfold PriceOracle.fetchData at 1.
      cbn [fst].
      destruct (PriceOracle.validateData cfg env _ (derived o)) as [[v|e] w1];
        [|reflexivity].
      destruct (negb (isValid v)); [reflexivity|].
      cbn [derived set_derived].
      destruct (PriceOracle.processData cfg _ w1) as [[p|e] w2]; [|reflexivity].
      destruct (PriceOracle.submitToBlockchain cfg env p w2) as [[tx|e] w3];
        reflexivity.
    - unfold fetchDataWithRetry.
      replace (Z.to_nat (retryAttempts (config o))) with 0%nat by lia. reflexivity. }
  unfold Scenario.pipeline in Hp.
  destruct (pipeline _ _ _ _ _ o) as [[tx|e] o1]; cbn [snd] in *; [exact Hp|].
  destruct (_ <=? _)%Z; cbn [snd]; [rewrite stop_slept|]; exact Hp.
Qed.

Lemma price_oracle_never_retries_witness :
  let o := Oracle.new Scenario.config22 in
  (1 <= retryAttempts (config o))%Z /\
  slept (snd (Oracle.performUpdate Scenario.config22 Scenario.outage o)) = [].
Proof.
  split; [vm_compute; discriminate|].
  exact (proj2 (proj2 (price_oracle_never_retries Scenario.config22 Scenario.outage
                         (Oracle.new Scenario.config22)))).
Defined.

End Retry.

(** ** One timer at most *)

Module Schedule.
Import OracleBase Invariant Events.

Lemma scheduled_eq {W} (o o' : Oracle W) :
  isRunning o' = isRunning o -> updateTimer o' = updateTimer o ->
  timers o' = timers o -> scheduled o -> scheduled o'.
Proof. intros Hr Ht Hl. unfold scheduled. rewrite Hr, Ht, Hl. tauto. Qed.

Lemma stop_no_timer {W} (o : Oracle W) : scheduled o -> timers (stop o) = [].
Proof.
  intros [Hnone|(Hrun & h & Hl & Hh)]; unfold stop.
  - destruct (isRunning o); cbn [negb]; [|exact Hnone].
    cbn. destruct (updateTimer o); cbn; rewrite Hnone; reflexivity.
  - rewrite Hrun. cbn. rewrite Hh. cbn. rewrite Hl. cbn.
    rewrite Nat.eqb_refl. reflexivity.
Qed.

Lemma stop_not_running {W} (o : Oracle W) : isRunning (stop o) = false.
Proof.
  unfold stop. destruct (isRunning o) eqn:E; cbn [negb]; [|exact E].
  cbn. destruct (updateTimer o); reflexivity.
Qed.

Lemma scheduled_stop {W} (o : Oracle W) : scheduled o -> scheduled (stop o).
Proof. intros H. left. apply stop_no_timer, H. Qed.

Lemma scheduled_setTimeout {W} (o : Oracle W) :
  timers o = [] -> isRunning o = true -> scheduled (setTimeout o).
Proof.
  intros Hl Hr. right. split; [exact Hr|]. exists (nextTimer o). cbn. rewrite Hl.
  split; reflexivity.
Qed.

Section Generic.
Context {W D T : Type}.
Variable fetchData : W -> result (list D) * W.
Variable validateData : list D -> W -> result ValidationResult * W.
Variable processData : list D -> W -> result T * W.
Variable submitToBlockchain : T -> W -> result string * W.
Variable Date_now : number.
Variable Math_random : Z -> number.

Local Abbreviation performUpdate :=
  (performUpdate fetchData validateData processData submitToBlockchain
     Date_now Math_random).
Local Abbreviation reachable :=
  (reachable fetchData validateData processData submitToBlockchain
     Date_now Math_random).

(** A cycle arms no timer; it leaves the schedule as it is or, when it
    stops the controller, empty. *)
Lemma performUpdate_scheduled (o : Oracle W) :
  scheduled o ->
  scheduled (snd (performUpdate o)) /\
  (timers o = [] -> timers (snd (performUpdate o)) = []).
Proof.
  intros Hs.
  pose proof (Controller.pipeline_control fetchData validateData processData
                submitToBlockchain Math_random o) as Hc.
  unfold OracleBase.performUpdate.
  destruct (pipeline _ _ _ _ _ o) as [[txHash|error] o1]; cbn [snd] in *;
    destruct Hc as (_&Hr&Ht&_&_&_&Hl&_).
  - split; [apply (scheduled_eq o); assumption|].
    cbn. rewrite Hl. tauto.
  - assert (Hs' : scheduled (set_errorCount (errorCount o1 + 1)%Z o1))
      by (apply (scheduled_eq o); assumption).
    destruct (_ <=? _)%Z; cbn [snd].
    + split; [apply scheduled_stop, Hs'|]. intros _. apply stop_no_timer, Hs'.
    + split; [exact Hs'|]. cbn. rewrite Hl. tauto.
Qed.

Lemma scheduleUpdates_scheduled (o : Oracle W) :
  timers o = [] -> scheduled (scheduleUpdates o).
Proof.
  intros Hl. unfold scheduleUpdates.
  destruct (isRunning o) eqn:Hr; cbn [negb]; [|left; exact Hl].
  apply scheduled_setTimeout; assumption.
Qed.

Lemma reachable_scheduled (o : Oracle W) : reachable o -> scheduled o.
Proof.
  induction 1 as [cfg w|o Hreach IH|o Hreach IH|o Hreach IH|o h Hreach IH Hin
                 |o newConfig Hreach IH].
  - left. reflexivity.
  - unfold start. destruct (isRunning o) eqn:Hr; [exact IH|].
    destruct (negb _); [exact IH|].
    assert (Hl : timers o = []).
    { destruct IH as [Hl|(Hrun & _)]; [exact Hl|congruence]. }
    assert (Hs : scheduled (set_isRunning true o)) by (left; exact Hl).
    destruct (performUpdate_scheduled _ Hs) as [Hs' Hnone].
    specialize (Hnone Hl).
    destruct (performUpdate (set_isRunning true o)) as [[u|e] o1]; cbn [snd] in *;
      [apply scheduleUpdates_scheduled, Hnone|exact Hs'].
  - apply scheduled_stop, IH.
  - unfold forceUpdate. apply performUpdate_scheduled, IH.
  - unfold onTimer.
    assert (Hl : timers (fire h o) = []).
    { destruct IH as [Hl|(_ & h' & Hl & _)]; [rewrite Hl in Hin; destruct Hin|].
      rewrite Hl in Hin. destruct Hin as [<-|[]]. cbn. rewrite Hl. cbn.
      rewrite Nat.eqb_refl. reflexivity. }
    assert (Hs : scheduled (fire h o)) by (left; exact Hl).
    destruct (performUpdate_scheduled _ Hs) as [_ Hnone].
    apply scheduleUpdates_scheduled, Hnone, Hl.
  - apply (scheduled_eq o); [reflexivity..|exact IH].
Qed.

(** X11: in every state a controller can reach from a new instance by
    calls of [start], [stop], [forceUpdate] and [updateConfig] and by its
    timer firing (each run to completion), at most one timer is armed; the
    armed timer is the one kept in [updateTimer], and a controller that is
    not running has none. So cycles are never scheduled twice, and after
    [stop] or after the circuit breaker no further cycle is due. *)
Theorem one_timer_at_most (o : Oracle W) :
  reachable o ->
  (length (timers o) <= 1)%nat /\
  (forall h, In h (timers o) -> updateTimer o = Some h) /\
  (isRunning o = false -> timers o = []).
Proof.
  intros Hreach. destruct (reachable_scheduled o Hreach) as [Hl|(Hr & h & Hl & Hh)];
    rewrite Hl.
  - split; [cbn; lia|]. split; [intros h []|reflexivity].
  - split; [cbn; lia|]. split; [intros h' [<-|[]]; exact Hh|congruence].
Qed.

End Generic.

Lemma one_timer_at_most_witness :
  let cfg := Scenario.config22 in
  let env := Scenario.answers 100 101 102 in
  let o := Oracle.onTimer cfg env 0 (snd (Oracle.start cfg env (Oracle.new cfg))) in
  reachable
    (PriceOracle.fetchData cfg (Oracle.initializeDataSources cfg) env)
    (PriceOracle.validateData cfg env) (PriceOracle.processData cfg)
    (PriceOracle.submitToBlockchain cfg env)
    (PriceOracle.Date_now env) (PriceOracle.Math_random env) o /\
  (length (timers o) <= 1)%nat.
Proof.
  intros cfg env o.
  assert (Hreach : reachable
            (PriceOracle.fetchData cfg (Oracle.initializeDataSources cfg) env)
            (PriceOracle.validateData cfg env) (PriceOracle.processData cfg)
            (PriceOracle.submitToBlockchain cfg env)
            (PriceOracle.Date_now env) (PriceOracle.Math_random env) o).
  { apply reach_timer; [apply reach_start, reach_create|left; reflexivity]. }
  split; [exact Hreach|].
  exact (proj1 (one_timer_at_most _ _ _ _ _ _ _ Hreach)).
Defined.

End Schedule.

(** ** Health *)

Module HealthFacts.
Import OracleBase.
Local Open Scope float_scope.

Lemma sub_zero_r (x : float) : x - 0 = x.
Proof.
  rewrite <- (SF2Prim_Prim2SF (x - 0)), sub_spec.
  change (Prim2SF 0) with (S754_zero false).
  rewrite <- (SF2Prim_Prim2SF x) at 2. f_equal.
  destruct (Prim2SF x) as [[]|[]| |s m e]; reflexivity.
Qed.

Section Generic.
Context {W S : Type}.
Variable getSourcesStatus : W -> result (list S) * W.
Variable Date_now : number.

Local Abbreviation getHealth := (getHealth getSourcesStatus Date_now).

(** X12: an oracle that has not completed a cycle yet ([lastUpdateTime] is
    still 0) is never reported healthy once the clock reads more than two
    update intervals (in milliseconds since the epoch, as [Date.now()] does):
    [getHealth] answers [unhealthy] when the oracle is not running or its
    status cannot be read, and [degraded] otherwise. So a [start] whose first
    cycle failed without reaching [retryAttempts], which returns normally,
    leaves an oracle that does not pass the health check. *)
Theorem never_updated_never_healthy (o : Oracle W) :
  lastUpdateTime o = 0 ->
  (cfg_updateInterval (config o) * 2 * 1000 <? Date_now) = true ->
  fst (fst (getHealth o)) =
    (if isRunning o && is_ok (fst (getSourcesStatus (derived o)))
     then degraded else unhealthy).
Proof.
  intros Hlast Hage. unfold OracleBase.getHealth, getStatus.
  destruct (getSourcesStatus (derived o)) as [[sources|error] w]; cbn [fst is_ok].
  - cbn [status_isActive lastUpdate config set_derived]. rewrite Hlast, sub_zero_r, Hage.
    destruct (isRunning o); reflexivity.
  - rewrite andb_false_r. reflexivity.
Qed.

(** The answer is [unhealthy] exactly when the oracle is not running or the
    status of the sources cannot be read. *)
Lemma unhealthy_iff (o : Oracle W) :
  fst (fst (getHealth o)) = unhealthy <->
  isRunning o = false \/ is_ok (fst (getSourcesStatus (derived o))) = false.
Proof.
  unfold OracleBase.getHealth, getStatus.
  destruct (getSourcesStatus (derived o)) as [[sources|error] w]; cbn [fst is_ok].
  - cbn [status_isActive]. destruct (isRunning o); cbn [negb].
    + destruct (_ <? _); [cbn; split; [discriminate|intros [|]; discriminate]|].
      destruct (_ <? _); cbn; split; try discriminate; intros [|]; discriminate.
    + cbn. tauto.
  - cbn. tauto.
Qed.

End Generic.

Section Breaker.
Context {W D T S : Type}.
Variable fetchData : W -> result (list D) * W.
Variable validateData : list D -> W -> result ValidationResult * W.
Variable processData : list D -> W -> result T * W.
Variable submitToBlockchain : T -> W -> result string * W.
Variable getSourcesStatus : W -> result (list S) * W.
Variable Date_now : number.
Variable Math_random : Z -> number.

(** X13: a cycle throws to its caller only when it has stopped the oracle
    (the failure counter has reached [retryAttempts]), and from then on
    [getHealth] reports [unhealthy], at whatever time it is asked; a cycle
    that returns normally leaves the running flag as it was. *)
Theorem thrown_cycle_is_unhealthy (o : Oracle W) (now : number) :
  let r := performUpdate fetchData validateData processData submitToBlockchain
             Date_now Math_random o in
  match fst r with
  | Throw _ =>
      isRunning (snd r) = false /\
      (retryAttempts (config o) <= errorCount (snd r))%Z /\
      fst (fst (getHealth getSourcesStatus now (snd r))) = unhealthy
  | Ok _ => isRunning (snd r) = isRunning o
  end.
Proof.
  cbv zeta.
  pose proof (Controller.pipeline_control fetchData validateData processData
                submitToBlockchain Math_random o) as Hc.
  unfold performUpdate.
  destruct (pipeline _ _ _ _ _ o) as [[txHash|error] o1]; cbn [snd fst] in *;
    destruct Hc as (Hcfg&Hr&_&He&_).
  - exact Hr.
  - cbn [config set_errorCount errorCount]. rewrite Hcfg, He.
    destruct (Z.leb_spec (retryAttempts (config o)) (errorCount o + 1)) as [Hle|Hgt];
      cbn [fst snd]; [|exact Hr].
    split; [apply Schedule.stop_not_running|].
    split; [rewrite Controller.stop_keeps_errorCount; cbn; lia|].
    apply unhealthy_iff. left. apply Schedule.stop_not_running.
Qed.

End Breaker.

Lemma never_updated_never_healthy_witness :
  let cfg := Scenario.config22 in
  let o := snd (Oracle.start cfg Scenario.outage (Oracle.new cfg)) in
  let noSources := fun st : PriceOracle.State => (@Ok (list unit) [], st) in
  isRunning o = true /\ lastUpdateTime o = 0 /\
  fst (fst (getHealth noSources 1700000000500 o)) = degraded.
Proof.
  intros cfg o noSources. split; [reflexivity|]. split; [reflexivity|].
  exact (never_updated_never_healthy noSources 1700000000500 o eq_refl eq_refl).
Defined.

End HealthFacts.

(** ** The fetchers *)

Module Fetchers.
Import DataFetcher JSString Rules.

Lemma substring_all (s : string) : String.substring 0 (String.length s) s = s.
Proof. induction s as [|c s IH]; cbn; [reflexivity|]. rewrite IH. reflexivity. Qed.

Lemma substring_split (s : string) :
  forall k, (k <= String.length s)%nat ->
    (String.substring 0 k s +:+ String.substring k (String.length s - k) s)%string = s.
Proof.
  induction s as [|c s IH]; intros k Hk.
  - destruct k; [reflexivity|cbn in Hk; lia].
  - destruct k as [|k].
    + rewrite Nat.sub_0_r, substring_all. reflexivity.
    + cbn [String.length] in *. cbn [Nat.sub String.substring].
      change (String c ?a +:+ ?b)%string with (String c (a +:+ b)).
      f_equal. apply IH. lia.
Qed.

Lemma substring_length (s : string) :
  forall n m, (n <= String.length s)%nat ->
    String.length (String.substring n m s) = Nat.min m (String.length s - n).
Proof.
  induction s as [|c s IH]; intros n m Hn; cbn [String.length] in *.
  - destruct n, m; cbn; lia.
  - destruct n as [|n].
    + destruct m as [|m]; [reflexivity|].
      cbn [String.substring String.length]. rewrite IH by lia. lia.
    + cbn [String.substring]. rewrite IH by lia. cbn. lia.
Qed.

(** The split of a symbol by [slice(0, -4)] and [slice(-4)]. *)
Lemma symbol_split (s : string) :
  (slice s 0 (Some (-4)%Z) +:+ slice s (-4) None)%string = s /\
  String.length (slice s 0 (Some (-4)%Z)) = (String.length s - 4)%nat /\
  String.length (slice s (-4) None) = Nat.min 4 (String.length s).
Proof.
  unfold slice, clamp. cbn [Z.ltb Z.compare].
  set (len := String.length s).
  change (0 <? 0)%Z with false. cbn match.
  rewrite Z.min_l by lia. cbn [Z.to_nat].
  replace (Z.to_nat (Z.max (Z.max (Z.of_nat len + -4) 0 - 0) 0)) with (len - 4)%nat by lia.
  replace (Z.to_nat (Z.max (Z.of_nat len + -4) 0)) with (len - 4)%nat by lia.
  replace (Z.to_nat (Z.max (Z.of_nat len - Z.max (Z.of_nat len + -4) 0) 0))
    with (len - (len - 4))%nat by lia.
  split; [apply substring_split; lia|].
  split; rewrite substring_length by lia; fold len; lia.
Qed.

Lemma length_zero_empty (s : string) : String.length s = 0%nat <-> s = ""%string.
Proof. destruct s; cbn; split; congruence. Qed.

(** X14: what [validatePriceData] does with every input. It throws
    ["Invalid price data structure"] when base or quote is missing or empty
    or the price is not a number, and ["Price must be positive"] when the
    price is [<= 0]; otherwise it returns base, quote and price as given
    (a NaN price included), the name of the fetcher as source, the timestamp
    given unless it is missing, 0 or NaN (then the clock reading), and the
    confidence given unless it is missing, 0 or NaN (then 100). *)
Theorem validatePriceData_cases (fetcherName : string) (now : number)
    (data : PartialPriceData) :
  match validatePriceData fetcherName now data with
  | Ok pd =>
      p_base data = Some (base pd) /\ base pd <> ""%string /\
      p_quote data = Some (quote pd) /\ quote pd <> ""%string /\
      p_price data = Some (price pd) /\ (price pd <=? 0)%float = false /\
      source pd = fetcherName /\
      timestamp pd = number_or (p_timestamp data) now /\
      confidence pd = Some (number_or (p_confidence data) 100%float) /\
      volume24h pd = p_volume24h data /\ change24h pd = p_change24h data /\
      marketCap pd = p_marketCap data
  | Throw e =>
      (e = Error_ "Invalid price data structure" /\
       (truthy_string (p_base data) = false \/ truthy_string (p_quote data) = false \/
        p_price data = None)) \/
      (e = Error_ "Price must be positive" /\
       exists p, p_price data = Some p /\ (p <=? 0)%float = true)
  end.
Proof.
  unfold validatePriceData.
  destruct (p_base data) as [b|] eqn:Hb; [|left; cbn; tauto].
  destruct (p_quote data) as [q|] eqn:Hq; [|left; cbn; tauto].
  destruct (p_price data) as [p|] eqn:Hp; [|left; tauto].
  destruct (truthy_string (Some b)) eqn:Tb; cbn [negb orb]; [|left; tauto].
  destruct (truthy_string (Some q)) eqn:Tq; cbn [negb orb]; [|left; tauto].
  destruct (p <=? 0)%float eqn:Hle; [right; split; [reflexivity|eauto]|].
  cbn. cbn in Tb, Tq. apply negb_true_iff in Tb, Tq.
  apply String.eqb_neq in Tb, Tq. repeat split; assumption.
Qed.

Lemma validatePriceData_Throw (fetcherName : string) (now : number)
    (data : PartialPriceData) (e : exn) :
  validatePriceData fetcherName now data = Throw e ->
  truthy_string (p_base data) = false \/ truthy_string (p_quote data) = false \/
  p_price data = None \/
  exists p, p_price data = Some p /\ (p <=? 0)%float = true.
Proof.
  unfold validatePriceData.
  destruct (p_base data) as [b|] eqn:Hb; [|cbn; tauto].
  destruct (p_quote data) as [q|] eqn:Hq; [|cbn; tauto].
  destruct (p_price data) as [p|] eqn:Hp; [|tauto].
  destruct (truthy_string (Some b)) eqn:Tb; cbn [negb orb]; [|tauto].
  destruct (truthy_string (Some q)) eqn:Tq; cbn [negb orb]; [|tauto].
  destruct (p <=? 0)%float eqn:Hle; [|discriminate].
  intros _. right. right. right. exists p. split; [reflexivity|exact Hle].
Qed.

Lemma validatePriceData_Ok (fetcherName : string) (now : number)
    (data : PartialPriceData) (pd : PriceData) :
  validatePriceData fetcherName now data = Ok pd ->
  p_base data = Some (base pd) /\ base pd <> ""%string /\
  p_quote data = Some (quote pd) /\ quote pd <> ""%string /\
  p_price data = Some (price pd) /\ (price pd <=? 0)%float = false /\
  source pd = fetcherName.
Proof.
  unfold validatePriceData.
  destruct (p_base data) as [b|] eqn:Hb; [|discriminate].
  destruct (p_quote data) as [q|] eqn:Hq; [|discriminate].
  destruct (p_price data) as [p|] eqn:Hp; [|discriminate].
  destruct (truthy_string (Some b)) eqn:Tb; cbn [negb orb]; [|discriminate].
  destruct (truthy_string (Some q)) eqn:Tq; cbn [negb orb]; [|discriminate].
  destruct (p <=? 0)%float eqn:Hle; [discriminate|].
  intros [= <-]. cbn. cbn in Tb, Tq. apply negb_true_iff in Tb, Tq.
  apply String.eqb_neq in Tb, Tq. repeat split; assumption.
Qed.

Lemma Binance_items_split (clock : nat -> number) (items : list (string * number)) :
  forall reads results,
    Binance_items clock reads items = Ok results ->
    List.Forall2 splitOf items results.
Proof.
  induction items as [|[item_symbol item_price] items IH]; intros reads results;
    cbn [Binance_items].
  - intros [= <-]. constructor.
  - destruct (validatePriceData _ _ _) as [pd|e] eqn:Hv; [|discriminate].
    destruct (Binance_items clock _ items) as [rest|e] eqn:Hrest; [|discriminate].
    intros [= <-]. constructor; [|exact (IH _ _ Hrest)].
    apply validatePriceData_Ok in Hv as (Hb & Hbne & Hq & _ & Hp & Hpos & Hsrc).
    cbn in Hb, Hq, Hp. injection Hb as Hb. injection Hq as Hq. injection Hp as Hp.
    destruct (symbol_split item_symbol) as (Hcat & Hlb & Hlq).
    unfold splitOf. cbn [fst snd]. rewrite <- Hb, <- Hq, <- Hp.
    split; [exact Hcat|]. split; [|rewrite Hb, Hp; repeat split; assumption].
    rewrite Hlq.
    assert (String.length (slice item_symbol 0 (Some (-4)%Z)) <> 0%nat).
    { rewrite length_zero_empty, Hb. exact Hbne. }
    lia.
Qed.

(** X15: [BinanceFetcher.fetchMultiplePrices] answers for all items or for
    none. When it returns, it returns one price per item of the response, in
    the same order; the quote of each is the last four characters of the
    symbol and the base is the rest, which is not empty (so ["ETHBTC"] comes
    back as base ["ET"] and quote ["HBTC"]), and no price is [<= 0]. One item
    whose symbol has four characters or fewer, or whose price is [<= 0],
    makes the whole call throw, and a failed request is thrown on. *)
Theorem Binance_all_or_nothing (clock : nat -> number) (reads : nat)
    (response : result (list (string * number))) :
  match Binance_fetchMultiplePrices clock reads response with
  | Ok results =>
      exists items, response = Ok items /\ List.Forall2 splitOf items results
  | Throw e =>
      response = Throw e \/
      exists items item,
        response = Ok items /\ In item items /\
        ((String.length (fst item) <= 4)%nat \/ (snd item <=? 0)%float = true)
  end.
Proof.
  unfold Binance_fetchMultiplePrices. destruct response as [items|networkError];
    [|left; reflexivity].
  destruct (Binance_items clock reads items) as [results|e] eqn:E.
  - exists items. split; [reflexivity|]. exact (Binance_items_split _ _ _ _ E).
  - right. exists items.
    revert reads e E. induction items as [|[item_symbol item_price] items IH];
      intros reads e E; cbn [Binance_items] in E; [discriminate|].
    destruct (validatePriceData _ _ _) as [pd|e'] eqn:Hv.
    + destruct (Binance_items clock _ items) as [rest|e''] eqn:Hrest; [discriminate|].
      destruct (IH _ _ Hrest) as (item & _ & Hin & Hbad).
      exists item. split; [reflexivity|]. split; [right; exact Hin|exact Hbad].
    + exists (item_symbol, item_price). split; [reflexivity|].
      split; [left; reflexivity|]. cbn [fst snd].
      destruct (symbol_split item_symbol) as (_ & Hlb & Hlq).
      apply validatePriceData_Throw in Hv. cbn in Hv.
      destruct Hv as [Hb|[Hq|[Hp|(p & [= <-] & Hle)]]].
      * left. apply negb_false_iff, String.eqb_eq, length_zero_empty in Hb. lia.
      * left. apply negb_false_iff, String.eqb_eq, length_zero_empty in Hq. lia.
      * discriminate.
      * right. exact Hle.
Qed.

End Fetchers.

(** ** Sending a transaction *)

Module Sending.
Import TONClient Rules.

Lemma backoffFrom_S (retryDelay : number) (first : Z) (count : nat) :
  backoffFrom retryDelay first (S count) =
  (retryDelay * of_Z first)%float :: backoffFrom retryDelay (first + 1) count.
Proof.
  unfold backoffFrom. cbn [seq List.map]. rewrite Z.add_0_r. f_equal.
  rewrite <- List.seq_shift, List.map_map. apply List.map_ext. intros i.
  replace (first + Z.of_nat (S i))%Z with (first + 1 + Z.of_nat i)%Z by lia.
  reflexivity.
Qed.

Lemma after_nil (c : Client) : after [] c = c.
Proof. destruct c. unfold after. cbn. rewrite List.app_nil_r. reflexivity. Qed.

Lemma after_sleep (ms : number) (delays : list number) (c : Client) :
  after delays (ton_sleep ms c) = after (ms :: delays) c.
Proof. unfold after, ton_sleep. cbn. rewrite <- List.app_assoc. reflexivity. Qed.

Section Send.
Variable transfer : Z -> result string.
Variable Date_now : number.

(** The loop when the attempts after [attempt] fail up to attempt [k], at
    which the loop ends: with a transfer, or because [k] is the last
    attempt. *)
Lemma sendAttempts_until (err : Z -> exn) (k : Z) :
  forall fuel attempt (c : Client),
    (attempt + Z.of_nat fuel = maxRetries (ton_config c))%Z ->
    (attempt < k <= maxRetries (ton_config c))%Z ->
    (forall j, (attempt < j < k)%Z -> transfer j = Throw (err j)) ->
    is_ok (transfer k) = true \/ k = maxRetries (ton_config c) ->
    sendAttempts transfer Date_now fuel attempt c =
    (match transfer k with
     | Ok transferText =>
         Returned {| hash := transferText; success := true;
                     gasUsed := ton_gasLimit (ton_config c);
                     tr_timestamp := Date_now |}
     | Throw _ => Raised notAConstructor
     end,
     after (backoffFrom (retryDelay (ton_config c)) (attempt + 1)
              (Z.to_nat (k - attempt - 1))) c).
Proof.
  induction fuel as [|fuel IH]; intros attempt c Hfuel Hk Hfail Hend; [lia|].
  cbn [sendAttempts].
  assert (Hlt : (attempt <? maxRetries (ton_config c))%Z = true) by (apply Z.ltb_lt; lia).
  rewrite Hlt. cbn [negb].
  destruct (Z.eq_dec (attempt + 1)%Z k) as [<-|Hne].
  - replace (Z.to_nat (attempt + 1 - attempt - 1)%Z) with 0%nat by lia.
    cbn [backoffFrom seq List.map]. rewrite after_nil.
    destruct (transfer (attempt + 1)%Z) as [transferText|error]; [reflexivity|].
    destruct Hend as [Hend|Hend]; [discriminate|].
    rewrite <- Hend, Z.leb_refl. reflexivity.
  - rewrite (Hfail (attempt + 1)%Z) by lia.
    assert (Hnot : (maxRetries (ton_config c) <=? attempt + 1)%Z = false)
      by (apply Z.leb_gt; lia).
    rewrite Hnot.
    rewrite (IH (attempt + 1)%Z); cbn [ton_sleep ton_config]; try lia;
      [|intros j Hj; apply Hfail; lia|exact Hend].
    rewrite after_sleep.
    replace (Z.to_nat (k - attempt - 1)) with (S (Z.to_nat (k - (attempt + 1) - 1)))
      by lia.
    rewrite backoffFrom_S. reflexivity.
Qed.

(** X16: how [sendTransaction] fails. [BlockchainError] is only an
    interface, so each of the three places that mean to throw one
    ([WALLET_NOT_INITIALIZED], [TRANSACTION_ERROR], [UNEXPECTED_ERROR])
    throws the same [TypeError], "BlockchainError is not a constructor", and
    neither the number of attempts nor the error of the last attempt reaches
    the caller. Without a wallet (before [initialize], or after
    [disconnect], which also makes [isReady] false and [getWalletAddress]
    throw) the error is thrown at once. With [maxRetries] at zero or below
    it is thrown without a single attempt. When every attempt fails, exactly
    [maxRetries] attempts are made, with a sleep of [retryDelay * k] after
    the failed attempt [k] except the last, and then the error is thrown. *)
Theorem sendTransaction_failures (err : Z -> exn) (c : Client) :
  let n := maxRetries (ton_config c) in
  let typeError := TypeError "BlockchainError is not a constructor" in
  sendTransaction transfer Date_now (disconnect c) = (Raised typeError, disconnect c) /\
  isReady (disconnect c) = false /\
  getWalletAddress (disconnect c) = Raised typeError /\
  match wallet c with
  | None => sendTransaction transfer Date_now c = (Raised typeError, c)
  | Some _ =>
      if (n <=? 0)%Z
      then sendTransaction transfer Date_now c = (Raised typeError, c)
      else
        (forall j, (1 <= j <= n)%Z -> transfer j = Throw (err j)) ->
        sendTransaction transfer Date_now c =
        (Raised typeError,
         after (backoffFrom (retryDelay (ton_config c)) 1 (Z.to_nat n - 1)) c)
  end.
Proof.
  intros n typeError. split; [reflexivity|]. split; [reflexivity|].
  split; [reflexivity|].
  unfold sendTransaction. destruct (wallet c) as [address|]; [|reflexivity].
  destruct (Z.leb_spec n 0) as [Hle|Hgt].
  - subst n. destruct (Z.to_nat _) as [|fuel] eqn:E; [reflexivity|].
    cbn [sendAttempts].
    assert (H : (0 <? maxRetries (ton_config c))%Z = false) by (apply Z.ltb_ge; lia).
    rewrite H. reflexivity.
  - intros Hfail. subst n.
    rewrite (sendAttempts_until err (maxRetries (ton_config c))
               (Z.to_nat (maxRetries (ton_config c))) 0 c
               ltac:(lia) ltac:(lia) (fun j Hj => Hfail j ltac:(lia))
               (or_intror eq_refl)).
    rewrite (Hfail (maxRetries (ton_config c))) by lia.
    replace (Z.to_nat (maxRetries (ton_config c) - 0 - 1))
      with (Z.to_nat (maxRetries (ton_config c)) - 1)%nat by lia.
    reflexivity.
Qed.

(** X17: when attempt [k] is the first that goes through (and [k] is at
    most [maxRetries]), [sendTransaction] returns the text of that transfer
    as hash, marked as a success, with the configured gas limit as the gas
    used; it has slept [retryDelay * 1], ..., [retryDelay * (k - 1)] before,
    and makes no further attempt. *)
Theorem sendTransaction_succeeds (err : Z -> exn) (c : Client) (k : Z)
    (transferText address : string) :
  wallet c = Some address ->
  (1 <= k <= maxRetries (ton_config c))%Z ->
  (forall j, (1 <= j < k)%Z -> transfer j = Throw (err j)) ->
  transfer k = Ok transferText ->
  sendTransaction transfer Date_now c =
  (Returned {| hash := transferText; success := true;
               gasUsed := ton_gasLimit (ton_config c); tr_timestamp := Date_now |},
   after (backoffFrom (retryDelay (ton_config c)) 1 (Z.to_nat k - 1)) c).
Proof.
  intros Hw Hk Hfail Hok. unfold sendTransaction. rewrite Hw.
  assert (Hend : is_ok (transfer k) = true) by (rewrite Hok; reflexivity).
  rewrite (sendAttempts_until err k (Z.to_nat (maxRetries (ton_config c))) 0 c
             ltac:(lia) ltac:(lia)
             (fun j Hj => Hfail j ltac:(lia))
             (or_introl Hend)).
  rewrite Hok. f_equal. f_equal. f_equal. lia.
Qed.

End Send.

Lemma sendTransaction_failures_witness :
  let transfer := fun j : Z =>
    @Throw string (Error_ (if (j =? 3)%Z then "seqno mismatch" else "timeout")) in
  sendTransaction transfer 0%float Scenario.sampleClient =
  (Raised (TypeError "BlockchainError is not a constructor"),
   after [5000%float; 10000%float] Scenario.sampleClient).
Proof.
  intros transfer.
  exact (proj2 (proj2 (proj2 (sendTransaction_failures transfer 0%float
           (fun j => Error_ (if (j =? 3)%Z then "seqno mismatch" else "timeout"))
           Scenario.sampleClient)))
           (fun _ _ => eq_refl)).
Defined.

Lemma sendTransaction_succeeds_witness :
  let transfer := fun j : Z => if (j =? 2)%Z then Ok "te6cc" else Throw (Error_ "timeout") in
  wallet Scenario.sampleClient = Some "EQ"%string /\
  fst (sendTransaction transfer 0%float Scenario.sampleClient) =
    Returned {| hash := "te6cc"; success := true; gasUsed := 1000000;
                tr_timestamp := 0 |} /\
  ton_slept (snd (sendTransaction transfer 0%float Scenario.sampleClient)) = [5000%float].
Proof.
  intros transfer. split; [reflexivity|].
  rewrite (sendTransaction_succeeds transfer 0%float (fun _ => Error_ "timeout")
             Scenario.sampleClient 2 "te6cc" "EQ" eq_refl ltac:(cbn; lia)).
  - split; reflexivity.
  - intros j Hj. assert (j = 1%Z) as -> by lia. reflexivity.
  - reflexivity.
Defined.

End Sending.

(** ** The logger *)

Module Logging.
Import Logger Rules.

Lemma levels_rank (level : string) :
  levels level = option_map of_nat (rank level).
Proof.
  unfold levels, rank.
  repeat match goal with |- context [String.eqb level ?s] => destruct (String.eqb level s) end;
    reflexivity.
Qed.

Lemma rank_bound (level : string) (r : nat) : rank level = Some r -> (r <= 3)%nat.
Proof.
  unfold rank.
  repeat match goal with |- context [String.eqb level ?s] => destruct (String.eqb level s) end;
    intros [= <-]; lia.
Qed.

(** X18: a message is written exactly when its level and the configured
    level are both among debug, info, warn and error and the message's level
    is not below the configured one. So with a configured level that is
    none of the four (a misspelt [LOG_LEVEL], which the constructor takes as
    it is), nothing is written at all, errors included. *)
Theorem shouldLog_spec (logLevel level : string) :
  shouldLog logLevel level =
    match rank level, rank logLevel with
    | Some l, Some threshold => (threshold <=? l)%nat
    | _, _ => false
    end.
Proof.
  unfold shouldLog. rewrite !levels_rank.
  destruct (rank level) as [l|] eqn:Hl; [|reflexivity].
  destruct (rank logLevel) as [t|] eqn:Ht; [|reflexivity].
  apply rank_bound in Hl, Ht. cbn [option_map].
  assert (Hl' : (l = 0 \/ l = 1 \/ l = 2 \/ l = 3)%nat) by lia.
  assert (Ht' : (t = 0 \/ t = 1 \/ t = 2 \/ t = 3)%nat) by lia.
  destruct Hl' as [->|[->|[->| ->]]], Ht' as [->|[->|[->| ->]]]; reflexivity.
Qed.

End Logging.

(** ** Configured sources and adapters *)

Module Adapters.
Import PriceOracle App.

Lemma find_enabled (cfg : PriceOracleConfig) (n : string) :
  match List.find (fun s => String.eqb (name s) n) (sources cfg) with
  | Some sourceConfig => enabled sourceConfig
  | None => false
  end = true ->
  In n (List.map name (List.filter enabled (sources cfg))).
Proof.
  destruct (List.find _ (sources cfg)) as [s|] eqn:E; [|discriminate].
  intros He. apply List.find_some in E as [Hin Hn]. apply String.eqb_eq in Hn.
  subst n. apply List.in_map, List.filter_In. tauto.
Qed.

(** X19: the adapters a [PriceOracle] creates are among coingecko, binance
    and coinmarketcap, each at most once and in this order, and each has an
    enabled entry of its name in the configuration; so there are at most
    three, and never more than the enabled entries that
    [validateConfiguration] counts. What [validateConfiguration] accepts has
    enough enabled entries, at least one pair and a known network; it can
    still give the oracle fewer adapters than [minSourcesRequired]: an
    enabled entry under any other name is counted but gets no adapter. *)
Theorem adapters_bound (cfg : PriceOracleConfig) :
  let adapters := Oracle.initializeDataSources cfg in
  sublist adapters ["coingecko"; "binance"; "coinmarketcap"]%string /\
  List.NoDup adapters /\
  (forall n, In n adapters ->
     exists s, In s (sources cfg) /\ name s = n /\ enabled s = true) /\
  (length adapters <= 3)%nat /\
  (length adapters <= length (List.filter enabled (sources cfg)))%nat /\
  (forall network, validateConfiguration network cfg = None ->
     (of_nat (length (List.filter enabled (sources cfg))) <? minSourcesRequired cfg)%float
       = false /\
     supportedPairs cfg <> [] /\ (network = "mainnet" \/ network = "testnet")%string).
Proof.
  intros adapters.
  assert (Hsub : sublist adapters ["coingecko"; "binance"; "coinmarketcap"]%string)
    by apply OutlierFacts.filter_sublist.
  assert (Hnd : List.NoDup adapters).
  { apply NoDup_ListNoDup.
    refine (sublist_NoDup _ _ _ Hsub). apply NoDup_ListNoDup.
    repeat (apply List.NoDup_cons; [cbn; intuition discriminate|]).
    apply List.NoDup_nil. }
  assert (Hin : forall n, In n adapters ->
                  In n (List.map name (List.filter enabled (sources cfg)))).
  { intros n Hn. apply List.filter_In in Hn as [_ Hn]. apply find_enabled, Hn. }
  split; [exact Hsub|]. split; [exact Hnd|]. split; [|split].
  - intros n Hn. apply Hin, List.in_map_iff in Hn as (s & Hs & Hf).
    apply List.filter_In in Hf. exists s. tauto.
  - apply sublist_length in Hsub. exact Hsub.
  - split.
    + rewrite <- (List.length_map name (List.filter enabled (sources cfg))).
      apply List.NoDup_incl_length; [exact Hnd|exact Hin].
    + intros network. unfold validateConfiguration.
      destruct (_ <? _)%float; [discriminate|].
      destruct (supportedPairs cfg) as [|pair pairs]; [discriminate|]. cbn [length Nat.eqb].
      cbn [existsb]. rewrite orb_false_r.
      destruct (String.eqb network "mainnet") eqn:E1;
        [apply String.eqb_eq in E1; intros _; split; [reflexivity|]; split;
           [discriminate|left; exact E1]|].
      destruct (String.eqb network "testnet") eqn:E2; cbn [orb negb]; [|discriminate].
      apply String.eqb_eq in E2. intros _. split; [reflexivity|].
      split; [discriminate|right; exact E2].
Qed.

(** A configuration that [validateConfiguration] accepts and that gives
    the oracle no adapter at all. *)
Lemma accepted_without_adapters :
  let cfg := {| supportedPairs := [Scenario.btcusd];
                sources := [Scenario.sourceConfig "kraken"; Scenario.sourceConfig "okx"];
                aggregationMethod := median; outlierThreshold := 2;
                minSourcesRequired := 2; maxPriceAge := 300; updateInterval := 300;
                deviationThreshold := 1 |} in
  validateConfiguration "testnet" cfg = None /\ Oracle.initializeDataSources cfg = [].
Proof. split; reflexivity. Qed.

End Adapters.

(** ** A whole cycle of a price oracle *)

Module Cycle.
Import PriceOracle Rules FloatOrder FloatFacts Rounding.
Local Open Scope float_scope.

Lemma fetchFromSources_length (dataSources : list string) (env : Env) (pair : TradingPair) :
  (length (fetchFromSources dataSources env pair) <= length dataSources)%nat.
Proof.
  unfold fetchFromSources. induction dataSources as [|s l IH]; cbn [flat_map length];
    [lia|].
  rewrite List.length_app. destruct (fetchPrice env s _ _); cbn [length]; lia.
Qed.

Lemma active_length (dataSources : list string) (env : Env) (pairs : list TradingPair) :
  (length (flat_map (fun pair => if isActive pair
                                 then fetchFromSources dataSources env pair else [])
             pairs)
   <= length (List.filter isActive pairs) * length dataSources)%nat.
Proof.
  induction pairs as [|pair pairs IH]; cbn [flat_map List.filter length]; [lia|].
  rewrite List.length_app.
  pose proof (fetchFromSources_length dataSources env pair).
  destruct (isActive pair); cbn [length]; lia.
Qed.

(** X20: [fetchData] of a price oracle never throws and leaves the state as
    it is. Every observation it returns is the answer of one adapter for one
    active supported pair, tagged with the adapter's name, with the key of
    the pair that was asked for and with the timestamp and confidence of the
    answer; a source that throws and a pair that is not active contribute
    nothing. So there are at most (active pairs) x (adapters)
    observations. *)
Theorem fetchData_observations (cfg : PriceOracleConfig) (dataSources : list string)
    (env : Env) (st : State) :
  exists data,
    fetchData cfg dataSources env st = (Ok data, st) /\
    (forall d, In d data <->
       exists pair,
         In pair (supportedPairs cfg) /\ isActive pair = true /\
         In (od_source d) dataSources /\
         fetchPrice env (od_source d) (tp_base pair) (tp_quote pair) = Ok (value d) /\
         metadata_pair d = pairKeyOf (tp_base pair) (tp_quote pair) /\
         od_timestamp d = timestamp (value d) /\
         metadata_confidence d = confidence (value d)) /\
    (length data <=
     length (List.filter isActive (supportedPairs cfg)) * length dataSources)%nat.
Proof.
  eexists. split; [reflexivity|]. split; [|apply active_length].
  intros d. rewrite List.in_flat_map. split.
  - intros (pair & Hpair & Hd). destruct (isActive pair) eqn:Ha; [|destruct Hd].
    exists pair. split; [exact Hpair|]. split; [exact Ha|].
    unfold fetchFromSources in Hd. apply List.in_flat_map in Hd as (s & Hs & Hd).
    destruct (fetchPrice env s _ _) as [priceData|e] eqn:E; [|destruct Hd].
    destruct Hd as [<-|[]]. cbn. repeat split; assumption.
  - intros (pair & Hpair & Ha & Hs & Hf & Hm & Ht & Hc).
    exists pair. split; [exact Hpair|]. rewrite Ha.
    unfold fetchFromSources. apply List.in_flat_map. exists (od_source d).
    split; [exact Hs|]. rewrite Hf. left. destruct d. cbn in *. congruence.
Qed.

(** The pipeline of a cycle, step by step. *)
Lemma pipeline_steps (cfg : PriceOracleConfig) (env : Env)
    (o : OracleBase.Oracle State) :
  (deviationThreshold cfg <=? 0) = false ->
  (1 <= OracleBase.retryAttempts (OracleBase.config o))%Z ->
  let data := flat_map (fun pair => if isActive pair
                                    then fetchFromSources
                                           (Oracle.initializeDataSources cfg) env pair
                                    else [])
                (supportedPairs cfg) in
  is_ok (fst (Scenario.pipeline cfg env o)) =
    forallb (groupAccepted cfg) (groupDataByPair data) &&
    is_ok (fst (processData cfg data (OracleBase.derived o))).
Proof.
  intros Hthr Hn data.
  unfold Scenario.pipeline, OracleBase.pipeline.
  rewrite (Retry.price_fetch_once cfg env o Hn). unfold fetchData at 1. cbn [fst].
  fold data.
  destruct (Validation.validateData_spec cfg env data (OracleBase.derived o))
    as (validation & Hrun & Hvalid & _).
  rewrite Hrun, <- Hvalid. rewrite Aggregation.set_derived_id.
  destruct (isValid validation); cbn [negb andb]; [|reflexivity].
  destruct (processData cfg data (OracleBase.derived o)) as [[p|e] st1] eqn:Hp;
    cbn [fst is_ok]; [|reflexivity].
  cbn [OracleBase.derived OracleBase.set_derived].
  rewrite (Aggregation.gate_compares_price_with_itself cfg env _ _ _ _ Hp).
  rewrite (Gate.shouldUpdate_same cfg _ Hthr). reflexivity.
Qed.

(** X21: the outcome of a cycle of a price oracle, for a deviation
    threshold that is not [<= 0] and at least one fetch attempt. The cycle
    is counted as a successful update ([totalUpdates] goes up by one,
    [lastUpdateTime] is set to the clock, the failure counter stays) exactly
    when the fetched data pass validation and [processData] returns an
    observation; nothing has been sent to the ledger then. In every other
    case the cycle is counted as a failure and [totalUpdates] and
    [lastUpdateTime] stay as they were. *)
Theorem cycle_outcome (cfg : PriceOracleConfig) (env : Env)
    (o : OracleBase.Oracle State) :
  (deviationThreshold cfg <=? 0) = false ->
  (1 <= OracleBase.retryAttempts (OracleBase.config o))%Z ->
  let data := flat_map (fun pair => if isActive pair
                                    then fetchFromSources
                                           (Oracle.initializeDataSources cfg) env pair
                                    else [])
                (supportedPairs cfg) in
  let r := Oracle.performUpdate cfg env o in
  if forallb (groupAccepted cfg) (groupDataByPair data) &&
     is_ok (fst (processData cfg data (OracleBase.derived o)))
  then fst r = Ok tt /\
       OracleBase.totalUpdates (snd r) = (OracleBase.totalUpdates o + 1)%Z /\
       OracleBase.lastUpdateTime (snd r) = Date_now env /\
       OracleBase.errorCount (snd r) = OracleBase.errorCount o /\
       ledger (OracleBase.derived (snd r)) = ledger (OracleBase.derived o)
  else OracleBase.totalUpdates (snd r) = OracleBase.totalUpdates o /\
       OracleBase.lastUpdateTime (snd r) = OracleBase.lastUpdateTime o /\
       OracleBase.errorCount (snd r) = (OracleBase.errorCount o + 1)%Z.
Proof.
  intros Hthr Hn. cbv zeta.
  pose proof (pipeline_steps cfg env o Hthr Hn) as Hs. cbv zeta in Hs. rewrite <- Hs.
  clear Hs.
  pose proof (Gate.performUpdate_ledger cfg env o Hthr) as Hl.
  pose proof (Controller.pipeline_control _ _ _ _ (Math_random env) o
              : Controller.same_control o (snd (Scenario.pipeline cfg env o))) as Hc.
  unfold Oracle.performUpdate, OracleBase.performUpdate in *.
  unfold Scenario.pipeline in *.
  destruct (OracleBase.pipeline _ _ _ _ _ o) as [[txHash|e] o1]; cbn [fst snd is_ok] in *;
    destruct Hc as (_&_&_&He&Ht&Hu&_).
  - cbn. cbn in Hl. repeat split; congruence.
  - destruct (_ <=? _)%Z; cbn [snd].
    + unfold OracleBase.stop. cbn.
      destruct (OracleBase.isRunning o1); cbn; [destruct (OracleBase.updateTimer o1)|];
        cbn; repeat split; congruence.
    + cbn. repeat split; congruence.
Qed.

Lemma cycle_outcome_witness :
  let cfg := Scenario.config22 in
  let env := Scenario.answers 100 101 102 in
  let r := Oracle.performUpdate cfg env (Oracle.new cfg) in
  (deviationThreshold cfg <=? 0) = false /\
  OracleBase.totalUpdates (snd r) = 1%Z /\
  ledger (OracleBase.derived (snd r)) = [].
Proof.
  intros cfg env r. split; [reflexivity|].
  pose proof (cycle_outcome cfg env (Oracle.new cfg) eq_refl
                ltac:(vm_compute; discriminate)) as H.
  cbv zeta in H.
  match type of H with
  | if ?b then _ else _ => replace b with true in H by (vm_compute; reflexivity)
  end.
  destruct H as (_ & Ht & _ & _ & Hl). split; [exact Ht|exact Hl].
Defined.

(** ** The range of the confidence score *)

Lemma bounded_finite (p lo hi : float) :
  finite_number lo = true -> finite_number hi = true ->
  (lo <=? p) = true -> (p <=? hi) = true -> finite_number p = true.
Proof.
  unfold finite_number. intros Hlo Hhi H1 H2.
  apply leb_keys in H1 as (_ & Hn & K1). apply leb_keys in H2 as (_ & _ & K2).
  unfold fkey in *.
  destruct (Prim2SF p) as [s|s| |s m e]; try reflexivity; [|contradiction Hn; reflexivity].
  destruct (Prim2SF lo) as [s1|s1| |s1 m1 e1]; try discriminate;
    destruct (Prim2SF hi) as [s2|s2| |s2 m2 e2]; try discriminate;
    destruct s; try destruct s1; try destruct s2; cbn in K1, K2; lia.
Qed.

(** For a coefficient of variation that is a number and not negative: the
    base confidence is at most 100, and taking the penalty off makes it no
    larger. *)
Lemma penalty_lowers (cfg : PriceOracleConfig) (n : nat) (cv : float) :
  (0 <=? cv) = true ->
  is_nan (of_nat n / minSourcesRequired cfg) = false ->
  let b := Math_min (of_nat n / minSourcesRequired cfg) 1 * 100 in
  let p := Math_min (cv * 50) 30 in
  (b <=? 100) = true /\ (b - p <=? b) = true.
Proof.
  intros Hcv Hq.
  set (q := of_nat n / minSourcesRequired cfg) in *.
  destruct (Math_min_spec q 1 Hq eq_refl) as (_ & _ & Hm1).
  assert (Hb : (Math_min q 1 * 100 <=? 100) = true)
    by (exact (mul_le_mono_r 100 _ 1 eq_refl Hm1)).
  set (b := Math_min q 1 * 100) in *.
  assert (Hp50 : (0 <=? cv * 50) = true)
    by (exact (mul_le_mono_r 50 0 cv eq_refl Hcv)).
  destruct (leb_not_nan _ _ Hp50) as [_ Hn50].
  destruct (Math_min_spec (cv * 50) 30 Hn50 eq_refl) as (Hor & _ & Hp30).
  assert (Hp0 : (0 <=? Math_min (cv * 50) 30) = true)
    by (destruct Hor as [-> | ->]; [exact Hp50|reflexivity]).
  set (p := Math_min (cv * 50) 30) in *.
  assert (Hpf : finite_number p = true)
    by (exact (bounded_finite p 0 30 eq_refl eq_refl Hp0 Hp30)).
  destruct (leb_not_nan _ _ Hb) as [Hbn _].
  cbv zeta. split; [exact Hb|].
  destruct (finite_number b) eqn:Hbf.
  - rewrite <- (HealthFacts.sub_zero_r b) at 2.
    apply sub_le_antitone; assumption.
  - assert (E : b - p = b).
    { apply not_nan_spec in Hbn. unfold finite_number in Hbf, Hpf.
      apply Prim2SF_inj. rewrite sub_spec.
      destruct (Prim2SF b) as [sb|sb| |sb mb eb]; try discriminate;
        [|contradiction Hbn; reflexivity].
      destruct (Prim2SF p) as [sp|sp| |sp mp ep]; try discriminate; reflexivity. }
    rewrite E. apply leb_refl, Hbn.
Qed.

(** X22: for a coefficient of variation that is a number and not negative
    (prices above zero give no other), the confidence score lies between 0
    and 100, also when the group is larger than [minSourcesRequired]. *)
Theorem confidence_in_range (cfg : PriceOracleConfig) (n : nat) (cv : float) :
  (0 <=? cv) = true ->
  is_nan (of_nat n / minSourcesRequired cfg) = false ->
  (0 <=? confidenceOf cfg n cv) = true /\ (confidenceOf cfg n cv <=? 100) = true.
Proof.
  intros Hcv Hq. unfold confidenceOf.
  destruct (penalty_lowers cfg n cv Hcv Hq) as [Hb Hsub]. cbv zeta in Hb, Hsub.
  set (b := Math_min (of_nat n / minSourcesRequired cfg) 1 * 100) in *.
  set (p := Math_min (cv * 50) 30) in *.
  destruct (leb_not_nan _ _ Hsub) as [Hsn _].
  destruct (Math_max_spec (b - p) 0 Hsn eq_refl) as (Hmax & _ & Hge).
  split; [exact Hge|].
  destruct Hmax as [-> | ->]; [exact (leb_trans _ _ _ Hsub Hb)|reflexivity].
Qed.

Lemma confidence_in_range_witness :
  (0 <=? 0.01) = true /\
  (0 <=? confidenceOf Scenario.config22 3 0.01) = true /\
  (confidenceOf Scenario.config22 3 0.01 <=? 100) = true.
Proof.
  split; [reflexivity|].
  exact (confidence_in_range Scenario.config22 3 0.01 eq_refl eq_refl).
Defined.

End Cycle.

(** ** The confidence score, for every group *)

Module Score.
Import PriceOracle Spec FloatOrder FloatFacts Rounding Scenario.
Local Open Scope float_scope.













End Score.

(** ** The standard deviation is not negative *)

Module Deviation.
Import PriceOracle FloatOrder FloatFacts.
Local Open Scope float_scope.

Lemma binary_round_aux_not_below_zero (m e : Z) (l : location) :
  SFltb (binary_round_aux prec emax false m e l) (S754_zero false) = false.
Proof.
  unfold binary_round_aux.
  destruct (shr_fexp prec emax m e l) as [mrs' e'].
  destruct (shr_fexp prec emax _ e' loc_Exact) as [mrs'' e''].
  destruct (shr_m mrs'') as [|p|p]; [reflexivity| |reflexivity].
  destruct (e'' <=? _)%Z; reflexivity.
Qed.

Lemma sqrt_not_below_zero (x : float) : (sqrt x <? 0) = false.
Proof.
  rewrite ltb_spec, sqrt_spec. change (Prim2SF 0) with (S754_zero false).
  unfold SF64sqrt, SFsqrt.
  destruct (Prim2SF x) as [s|[]| |[] m e]; try reflexivity.
  destruct (SFsqrt_core_binary prec emax (Z.pos m) e) as [[mz ez] lz].
  apply binary_round_aux_not_below_zero.
Qed.

(** X23: whatever the prices (none, one, NaN or infinite ones included),
    the standard deviation that is computed is not below zero (it is a
    number that is zero or more, or NaN); so is the [standardDeviation] of
    every aggregated observation. *)
Theorem standardDeviation_not_negative (cfg : PriceOracleConfig)
    (values : list number) (data : list OracleData) (a : AggregatedPriceData) :
  (calculateStandardDeviation values <? 0) = false /\
  (aggregatePrices cfg data = Ok a -> (standardDeviation a <? 0) = false).
Proof.
  split; [apply sqrt_not_below_zero|].
  unfold aggregatePrices. destruct data as [|first rest]; [discriminate|].
  intros [= <-]. apply sqrt_not_below_zero.
Qed.

End Deviation.

(** ** Which pair reaches the gate *)

Module FirstPair.
Import PriceOracle Spec FloatFacts.
Local Open Scope float_scope.

Lemma stored_under_key (cfg : PriceOracleConfig) (st : State)
    (meeting : list (string * list OracleData)) (produced : list AggregatedPriceData) :
  List.Forall2 (aggregated cfg) meeting produced ->
  List.Forall group_ok meeting ->
  (forall a, In a produced -> lastPrices st !! keyOfAggregate a = Some a) ->
  forall entry, In entry meeting ->
    exists a, aggregated cfg entry a /\
              getCurrentPrice (ag_base a) (ag_quote a) st = Some a /\
              pairKeyOf (ag_base a) (ag_quote a) = fst entry.
Proof.
  induction 1 as [|entry' a meeting' produced' Hagg Hrest IH];
    intros Hgroups Hstored entry Hin; [destruct Hin|].
  apply List.Forall_cons_iff in Hgroups as [Hg Hgroups].
  destruct Hin as [<-|Hin].
  - exists a. split; [exact Hagg|].
    split; [apply Hstored; left; reflexivity|].
    exact (Aggregation.aggregatePrices_key cfg entry' a Hg (proj1 Hagg)).
  - apply IH; [exact Hgroups| |exact Hin].
    intros a' Ha'. apply Hstored. right. exact Ha'.
Qed.

(** X24: the observation that [processData] returns, and that the gate
    then looks at, is that of the first pair (in the order in which the pairs
    first appear in the data) whose group meets the floor; the pairs after it
    that meet the floor are aggregated and stored for [getCurrentPrice], but
    not passed on. When no pair meets the floor it throws. *)
Theorem first_pair_is_passed_on (cfg : PriceOracleConfig) (data : list OracleData)
    (st : State) :
  (0 <? minSourcesRequired cfg) = true ->
  let r := processData cfg data st in
  match List.filter (meetsFloor cfg) (groupDataByPair data) with
  | [] => fst r = Throw Scenario.noData
  | first :: others =>
      exists p,
        fst r = Ok p /\ aggregated cfg first p /\
        forall entry, In entry (first :: others) ->
          exists a, aggregated cfg entry a /\
                    getCurrentPrice (ag_base a) (ag_quote a) (snd r) = Some a /\
                    pairKeyOf (ag_base a) (ag_quote a) = fst entry
  end.
Proof.
  intros Hfloor r. subst r. unfold processData.
  destruct (Aggregation.processPairs_quorum cfg Hfloor (groupDataByPair data) [] st)
    as (produced & Hrun & Hall).
  cbn [app] in Hrun.
  destruct (processPairs cfg (groupDataByPair data) [] st) as [[res|e] st1] eqn:E;
    cbn [fst] in Hrun; [|discriminate].
  injection Hrun as ->.
  destruct (Aggregation.processPairs_stores cfg _ _ _ _ _
              (Aggregation.groupDataByPair_ok data) E) as ((new & Hnew & Hstored) & _).
  cbn [app] in Hnew. subst new.
  assert (Hgroups : List.Forall group_ok
                      (List.filter (meetsFloor cfg) (groupDataByPair data))).
  { apply List.Forall_forall. intros entry Hin. apply List.filter_In in Hin as [Hin _].
    destruct (Aggregation.groupDataByPair_ok data) as [_ Hok].
    rewrite List.Forall_forall in Hok. exact (Hok entry Hin). }
  destruct (List.filter (meetsFloor cfg) (groupDataByPair data)) as [|first others];
    inversion Hall as [|? p ? rest Hfirst Hothers]; subst; [reflexivity|].
  exists p. cbn [fst snd]. split; [reflexivity|]. split; [exact Hfirst|].
  exact (stored_under_key cfg st1 _ _ Hall Hgroups Hstored).
Qed.

Lemma first_pair_is_passed_on_witness :
  let data := [Scenario.observation "coingecko" 100; Scenario.observation "binance" 101;
               Scenario.observation "coinmarketcap" 102] in
  (0 <? minSourcesRequired Scenario.config22) = true /\
  exists p, fst (processData Scenario.config22 data
                   {| lastPrices := ∅; ledger := [] |}) = Ok p.
Proof.
  intros data. split; [reflexivity|].
  pose proof (first_pair_is_passed_on Scenario.config22 data
                {| lastPrices := ∅; ledger := [] |} eq_refl) as H.
  cbv zeta in H.
  destruct (List.filter (meetsFloor Scenario.config22) (groupDataByPair data))
    as [|first others] eqn:E; [vm_compute in E; discriminate E|].
  destruct H as (p & Hp & _). exists p. exact Hp.
Defined.

End FirstPair.

(** ** The rate limiter *)

Module RateLimit.
Import DataFetcher FloatOrder FloatFacts Rounding.
Local Open Scope float_scope.

(** X25: [checkRateLimit] lets a request go at once when the time since
    the last request is not below the interval [60000 / rateLimit] (or when
    one of the two is NaN); otherwise it sleeps for a time that is above
    zero and, when the clock has not gone backwards, at most the interval. *)
Theorem rate_limit_wait (rateLimit lastRequestTime now : number) :
  let elapsed := now - lastRequestTime in
  let minInterval := 60 * 1000 / rateLimit in
  match checkRateLimit rateLimit lastRequestTime now with
  | None => (elapsed <? minInterval) = false
  | Some waitTime =>
      (elapsed <? minInterval) = true /\ waitTime = minInterval - elapsed /\
      (0 <? waitTime) = true /\
      ((0 <=? elapsed) = true -> (waitTime <=? minInterval) = true)
  end.
Proof.
  cbv zeta. unfold checkRateLimit.
  set (elapsed := now - lastRequestTime). set (minInterval := 60 * 1000 / rateLimit).
  destruct (elapsed <? minInterval) eqn:E; [|reflexivity].
  destruct (ltb_not_nan _ _ E) as [He Hm].
  assert (Hpos : (0 <? minInterval - elapsed) = true)
    by (rewrite (sub_positive_iff elapsed minInterval He Hm); exact E).
  split; [reflexivity|]. split; [reflexivity|]. split; [exact Hpos|].
  intros H0.
  destruct (finite_number minInterval) eqn:Hf.
  - rewrite <- (HealthFacts.sub_zero_r minInterval) at 2.
    apply sub_le_antitone; assumption.
  - destruct (Confidence.sub_infinite minInterval elapsed Hm Hf) as [Hn|Heq].
    + destruct (ltb_not_nan _ _ Hpos) as [_ Hw]. congruence.
    + rewrite Heq. apply leb_refl, Hm.
Qed.

Lemma rate_limit_wait_witness :
  checkRateLimit 50 1700000000000 1700000000200 = Some 1000 /\
  (0 <? 1000) = true /\ (1000 <=? 60 * 1000 / 50) = true.
Proof.
  pose proof (rate_limit_wait 50 1700000000000 1700000000200) as H.
  cbv zeta in H.
  change (checkRateLimit 50 1700000000000 1700000000200) with (Some 1000) in H.
  destruct H as (_ & _ & Hpos & Hle).
  split; [reflexivity|]. split; [exact Hpos|]. exact (Hle eq_refl).
Defined.

End RateLimit.

(** ** After the circuit breaker *)

Module Primed.
Import OracleBase Invariant.

Section Generic.
Context {W D T : Type}.
Variable fetchData : W -> result (list D) * W.
Variable validateData : list D -> W -> result ValidationResult * W.
Variable processData : list D -> W -> result T * W.
Variable submitToBlockchain : T -> W -> result string * W.
Variable Date_now : number.
Variable Math_random : Z -> number.

Local Abbreviation pipeline :=
  (pipeline fetchData validateData processData submitToBlockchain Math_random).
Local Abbreviation performUpdate :=
  (performUpdate fetchData validateData processData submitToBlockchain
     Date_now Math_random).
Local Abbreviation start :=
  (start fetchData validateData processData submitToBlockchain
     Date_now Math_random).
Local Abbreviation onTimer :=
  (onTimer fetchData validateData processData submitToBlockchain
     Date_now Math_random).



End Generic.


End Primed.
